(** * monaco-remote: remote cursors, selections and content synchronisation

    A shallow embedding of the TypeScript sources

    - [RemoteSelection]          (src/selection.ts)
    - [RemoteCursorWidget]       (the cursor content widget)
    - [RemoteCursorManager]      (src/RemoteCursorManager.ts)
    - [RemoteSelectionManager]   (src/RemoteSelectionManager.ts)
    - [EditorContentManager]     (the synchronisation controller)

    JavaScript objects live in a store ([World]); a widget is referred to by
    the index at which it was allocated, so that "the same instance" is
    "the same reference".  Closures are defunctionalised ([Callback],
    [TimerTask]).  Numbers are integers ([Z]); a string is a [string] that
    holds the UTF-8 bytes of the text, with [jsLength] for [.length]. *)

From Stdlib Require Import ZArith Ascii String List Bool Lia.
From stdpp Require Import base option list gmap strings fin_maps.

Local Open Scope string_scope.
Local Open Scope list_scope.
Local Open Scope Z_scope.

(** ** Monaco data: positions, ranges, selections *)

Record IPosition := mkPosition { lineNumber : Z; column : Z }.

Record IRange := mkRange {
  startLineNumber : Z;
  startColumn : Z;
  endLineNumber : Z;
  endColumn : Z
}.

Record ISelection := mkSelection {
  selectionStartLineNumber : Z;
  selectionStartColumn : Z;
  positionLineNumber : Z;
  positionColumn : Z
}.

#[global] Instance IPosition_eq_dec : EqDecision IPosition.
Proof. solve_decision. Defined.

#[global] Instance IRange_eq_dec : EqDecision IRange.
Proof. solve_decision. Defined.

#[global] Instance ISelection_eq_dec : EqDecision ISelection.
Proof. solve_decision. Defined.

(** [new Range(l1, c1, l2, c2)]: Monaco's constructor stores the two end
    points in document order. *)
Definition Range_new (l1 c1 l2 c2 : Z) : IRange :=
  if (l2 <? l1) || ((l1 =? l2) && (c2 <? c1))
  then mkRange l2 c2 l1 c1
  else mkRange l1 c1 l2 c2.

(** [new Selection(...)] is a [Range] built the same way; only its start
    and end positions are read by this program. *)
Definition Selection_new (l1 c1 l2 c2 : Z) : IRange := Range_new l1 c1 l2 c2.

(** [new Range(r.startLineNumber, r.startColumn, r.endLineNumber, r.endColumn)] *)
Definition toRange (r : IRange) : IRange :=
  Range_new (startLineNumber r) (startColumn r) (endLineNumber r) (endColumn r).

Definition getStartPosition (r : IRange) : IPosition :=
  mkPosition (startLineNumber r) (startColumn r).

Definition getEndPosition (r : IRange) : IPosition :=
  mkPosition (endLineNumber r) (endColumn r).

(** ** The text model of the editor *)

Record ITextModel := mkModel { getValue : string; getVersionId : Z }.

Record IModelContentChange := mkChange {
  range : IRange;
  rangeOffset : Z;
  rangeLength : Z;
  text : string
}.

Record IModelContentChangedEvent := mkChanged {
  changes : list IModelContentChange;
  versionId : Z
}.

(** The buffer and the edit operations belong to the editor, which this
    program only calls; they are taken as an interface.  What the editor
    makes of an edit operation [{range, text, forceMoveMarkers: true}] on
    a buffer is read through four functions: whether the operation changes
    the buffer at all, the buffer it leaves, the change it reports to the
    content listeners, and where it leaves the cursor of the editor. *)

Class TextModelOps := {
  (** [model.getPositionAt(offset)] on a buffer *)
  getPositionAt : string → Z → IPosition;
  (** [model.getOffsetAt(position)] on a buffer *)
  getOffsetAt : string → IPosition → Z;
  (** whether replacing [range] by [text] changes the buffer; an operation
      that does not is dropped by the editor *)
  editChanges : string → IRange → string → bool;
  (** the buffer after replacing [range] by [text] *)
  applyEdit : string → IRange → string → string;
  (** the change reported for the operation: the range as the editor has
      validated it against the buffer, its offset and length, the text *)
  changeOf : string → IRange → string → IModelContentChange;
  (** the state of the editor's cursor after the operation on a buffer,
      when it differs from the state before, which is the first argument *)
  cursorAfterEdit : ISelection → string → IRange → string → option ISelection
}.

(** [s.length]: the number of UTF-16 code units of [s].  In the UTF-8
    bytes of [s], a byte below 0x80 and the first byte of a sequence of two
    or three bytes start a character of one unit, the first byte of a
    sequence of four bytes starts one of two units, and the other bytes
    continue a character. *)
Definition utf16Units (c : ascii) : Z :=
  let n := Z.of_N (N_of_ascii c) in
  if n <? 128 then 1 else if n <? 192 then 0 else if n <? 240 then 1 else 2.

Fixpoint jsLength (s : string) : Z :=
  match s with
  | EmptyString => 0
  | String c rest => utf16Units c + jsLength rest
  end.

Record ICursorPositionChangedEvent := mkCursorMoved { position : IPosition }.

Record ICursorSelectionChangedEvent := mkSelectionChanged { selection : ISelection }.

Record IModelDecoration := mkDecoration {
  decorationRange : IRange;
  className : string;
  hoverMessage : option string
}.

(** ** Messages *)

Record IEditorUser := mkUser { uid : string; color : string; label : string }.

(** [IMessageData] after decoding: [messageType] selects the shape of
    [data].  [OtherMessage] stands for every other [messageType]. *)
Inductive IMessageData :=
  | CursorPosition (data : ICursorPositionChangedEvent)
  | CursorSelection (data : ICursorSelectionChangedEvent)
  | CodeSnippet (data : IModelContentChangedEvent)
  | OtherMessage (messageType : string).

Definition messageType_of (m : IMessageData) : string :=
  match m with
  | CursorPosition _ => "CursorPosition"
  | CursorSelection _ => "CursorSelection"
  | CodeSnippet _ => "CodeSnippet"
  | OtherMessage t => t
  end.

(** [IMessage]; [message] is kept decoded (the codec is
    [pako.deflate (JSON.stringify _)] and its inverse). *)
Record IMessage := mkMessage { message_uid : option string; message : IMessageData }.

(** ** Closures *)

(** [onDisposed] callbacks: [() => this.removeCursor(user.uid)] and
    [() => this.removeSelection(user.uid)]. *)
Inductive Callback :=
  | CbRemoveCursor (id : string)
  | CbRemoveSelection (id : string).

(** [setTimeout] callbacks of a cursor widget: [() => this.showTooltip()]
    and the auto-hide arrow function of [showTooltip]. *)
Inductive TimerTask :=
  | TShowTooltip (widget : nat)
  | THideTooltip (widget : nat).

#[global] Instance TimerTask_eq_dec : EqDecision TimerTask.
Proof. solve_decision. Defined.

(** ** Widgets *)

Record TooltipNode := mkTooltip { innerHTML : string; opacity : string }.

Record RemoteCursorWidget := mkCursorWidget {
  cw_id : string;
  cw_background : string;
  cw_display : string;
  cw_tooltipNode : option TooltipNode;
  cw_tooltipDuration : Z;
  (** [Some true]: a live scroll listener; [Some false]: disposed *)
  cw_scrollListener : option bool;
  cw_onDisposed : Callback;
  cw_position : option IPosition;
  cw_hideTimer : option nat;
  cw_disposed : bool;
  (** ghost: how many times [this.onDisposed()] has been called *)
  cw_onDisposedCalls : nat
}.

Record RemoteSelection := mkRemoteSelection {
  rs_id : string;
  rs_label : string;
  rs_onDisposed : Callback;
  rs_className : string;
  rs_css : string;
  (** [styleElement.parentElement !== null] *)
  rs_styleAttached : bool;
  rs_startPosition : option IPosition;
  rs_endPosition : option IPosition;
  rs_decorations : list nat;
  rs_disposed : bool;
  (** ghost: how many times [this.onDisposed()] has been called *)
  rs_onDisposedCalls : nat
}.

(** ** The store *)

Record World := mkWorld {
  (** the editor *)
  model : option ITextModel;
  contentWidgets : list nat;
  decorations : gmap nat IModelDecoration;
  nextDecoration : nat;
  (** ghost: the [executeEdits] calls so far, oldest first *)
  editLog : list (string * IRange * string);
  (** the [onDidChangeModelContent] subscription held in [disposer] *)
  contentListener : bool;
  (** pending timers: id, delay, callback *)
  timers : list (nat * (Z * TimerTask));
  nextTimer : nat;
  (** objects *)
  cursors : gmap nat RemoteCursorWidget;
  selections : gmap nat RemoteSelection;
  nextRef : nat;
  (** RemoteCursorManager *)
  cursorWidgets : gmap string nat;
  tooltips : bool;
  tooltipDuration : Z;
  (** RemoteSelectionManager *)
  remoteSelections : gmap string nat;
  (** EditorContentManager: [channel !== undefined], and what was handed
      to [channel.sendMessage], oldest first *)
  channel : bool;
  outbox : list IMessageData;
  (** the [layoutContentWidget] calls so far: the widget and the position
      it asked for, oldest first *)
  layouts : list (nat * IPosition);
  (** the editor's own cursor: its primary selection *)
  localCursor : ISelection
}.

(** *** Field updates *)

Definition set_model (m : option ITextModel) (w : World) : World :=
  mkWorld m (contentWidgets w) (decorations w) (nextDecoration w) (editLog w)
    (contentListener w) (timers w) (nextTimer w) (cursors w) (selections w)
    (nextRef w) (cursorWidgets w) (tooltips w) (tooltipDuration w)
    (remoteSelections w) (channel w) (outbox w) (layouts w) (localCursor w).

Definition set_contentWidgets (l : list nat) (w : World) : World :=
  mkWorld (model w) l (decorations w) (nextDecoration w) (editLog w)
    (contentListener w) (timers w) (nextTimer w) (cursors w) (selections w)
    (nextRef w) (cursorWidgets w) (tooltips w) (tooltipDuration w)
    (remoteSelections w) (channel w) (outbox w) (layouts w) (localCursor w).

Definition set_decorations (d : gmap nat IModelDecoration) (n : nat) (w : World) : World :=
  mkWorld (model w) (contentWidgets w) d n (editLog w)
    (contentListener w) (timers w) (nextTimer w) (cursors w) (selections w)
    (nextRef w) (cursorWidgets w) (tooltips w) (tooltipDuration w)
    (remoteSelections w) (channel w) (outbox w) (layouts w) (localCursor w).

Definition set_editLog (l : list (string * IRange * string)) (w : World) : World :=
  mkWorld (model w) (contentWidgets w) (decorations w) (nextDecoration w) l
    (contentListener w) (timers w) (nextTimer w) (cursors w) (selections w)
    (nextRef w) (cursorWidgets w) (tooltips w) (tooltipDuration w)
    (remoteSelections w) (channel w) (outbox w) (layouts w) (localCursor w).

Definition set_contentListener (b : bool) (w : World) : World :=
  mkWorld (model w) (contentWidgets w) (decorations w) (nextDecoration w) (editLog w)
    b (timers w) (nextTimer w) (cursors w) (selections w)
    (nextRef w) (cursorWidgets w) (tooltips w) (tooltipDuration w)
    (remoteSelections w) (channel w) (outbox w) (layouts w) (localCursor w).

Definition set_timers (t : list (nat * (Z * TimerTask))) (n : nat) (w : World) : World :=
  mkWorld (model w) (contentWidgets w) (decorations w) (nextDecoration w) (editLog w)
    (contentListener w) t n (cursors w) (selections w)
    (nextRef w) (cursorWidgets w) (tooltips w) (tooltipDuration w)
    (remoteSelections w) (channel w) (outbox w) (layouts w) (localCursor w).

Definition set_cursors (c : gmap nat RemoteCursorWidget) (w : World) : World :=
  mkWorld (model w) (contentWidgets w) (decorations w) (nextDecoration w) (editLog w)
    (contentListener w) (timers w) (nextTimer w) c (selections w)
    (nextRef w) (cursorWidgets w) (tooltips w) (tooltipDuration w)
    (remoteSelections w) (channel w) (outbox w) (layouts w) (localCursor w).

Definition set_selections (s : gmap nat RemoteSelection) (w : World) : World :=
  mkWorld (model w) (contentWidgets w) (decorations w) (nextDecoration w) (editLog w)
    (contentListener w) (timers w) (nextTimer w) (cursors w) s
    (nextRef w) (cursorWidgets w) (tooltips w) (tooltipDuration w)
    (remoteSelections w) (channel w) (outbox w) (layouts w) (localCursor w).

Definition set_nextRef (n : nat) (w : World) : World :=
  mkWorld (model w) (contentWidgets w) (decorations w) (nextDecoration w) (editLog w)
    (contentListener w) (timers w) (nextTimer w) (cursors w) (selections w)
    n (cursorWidgets w) (tooltips w) (tooltipDuration w)
    (remoteSelections w) (channel w) (outbox w) (layouts w) (localCursor w).

Definition set_cursorWidgets (m : gmap string nat) (w : World) : World :=
  mkWorld (model w) (contentWidgets w) (decorations w) (nextDecoration w) (editLog w)
    (contentListener w) (timers w) (nextTimer w) (cursors w) (selections w)
    (nextRef w) m (tooltips w) (tooltipDuration w)
    (remoteSelections w) (channel w) (outbox w) (layouts w) (localCursor w).

Definition set_remoteSelections (m : gmap string nat) (w : World) : World :=
  mkWorld (model w) (contentWidgets w) (decorations w) (nextDecoration w) (editLog w)
    (contentListener w) (timers w) (nextTimer w) (cursors w) (selections w)
    (nextRef w) (cursorWidgets w) (tooltips w) (tooltipDuration w)
    m (channel w) (outbox w) (layouts w) (localCursor w).

Definition set_outbox (o : list IMessageData) (w : World) : World :=
  mkWorld (model w) (contentWidgets w) (decorations w) (nextDecoration w) (editLog w)
    (contentListener w) (timers w) (nextTimer w) (cursors w) (selections w)
    (nextRef w) (cursorWidgets w) (tooltips w) (tooltipDuration w)
    (remoteSelections w) (channel w) o (layouts w) (localCursor w).

Definition set_layouts (l : list (nat * IPosition)) (w : World) : World :=
  mkWorld (model w) (contentWidgets w) (decorations w) (nextDecoration w) (editLog w)
    (contentListener w) (timers w) (nextTimer w) (cursors w) (selections w)
    (nextRef w) (cursorWidgets w) (tooltips w) (tooltipDuration w)
    (remoteSelections w) (channel w) (outbox w) l (localCursor w).

Definition set_localCursor (s : ISelection) (w : World) : World :=
  mkWorld (model w) (contentWidgets w) (decorations w) (nextDecoration w) (editLog w)
    (contentListener w) (timers w) (nextTimer w) (cursors w) (selections w)
    (nextRef w) (cursorWidgets w) (tooltips w) (tooltipDuration w)
    (remoteSelections w) (channel w) (outbox w) (layouts w) s.

Definition cw_set_display (d : string) (c : RemoteCursorWidget) : RemoteCursorWidget :=
  mkCursorWidget (cw_id c) (cw_background c) d (cw_tooltipNode c)
    (cw_tooltipDuration c) (cw_scrollListener c) (cw_onDisposed c)
    (cw_position c) (cw_hideTimer c) (cw_disposed c) (cw_onDisposedCalls c).

Definition cw_set_tooltipNode (t : option TooltipNode) (c : RemoteCursorWidget) : RemoteCursorWidget :=
  mkCursorWidget (cw_id c) (cw_background c) (cw_display c) t
    (cw_tooltipDuration c) (cw_scrollListener c) (cw_onDisposed c)
    (cw_position c) (cw_hideTimer c) (cw_disposed c) (cw_onDisposedCalls c).

Definition cw_set_scrollListener (l : option bool) (c : RemoteCursorWidget) : RemoteCursorWidget :=
  mkCursorWidget (cw_id c) (cw_background c) (cw_display c) (cw_tooltipNode c)
    (cw_tooltipDuration c) l (cw_onDisposed c)
    (cw_position c) (cw_hideTimer c) (cw_disposed c) (cw_onDisposedCalls c).

Definition cw_set_position (p : option IPosition) (c : RemoteCursorWidget) : RemoteCursorWidget :=
  mkCursorWidget (cw_id c) (cw_background c) (cw_display c) (cw_tooltipNode c)
    (cw_tooltipDuration c) (cw_scrollListener c) (cw_onDisposed c)
    p (cw_hideTimer c) (cw_disposed c) (cw_onDisposedCalls c).

Definition cw_set_hideTimer (t : option nat) (c : RemoteCursorWidget) : RemoteCursorWidget :=
  mkCursorWidget (cw_id c) (cw_background c) (cw_display c) (cw_tooltipNode c)
    (cw_tooltipDuration c) (cw_scrollListener c) (cw_onDisposed c)
    (cw_position c) t (cw_disposed c) (cw_onDisposedCalls c).

Definition cw_set_disposed (b : bool) (c : RemoteCursorWidget) : RemoteCursorWidget :=
  mkCursorWidget (cw_id c) (cw_background c) (cw_display c) (cw_tooltipNode c)
    (cw_tooltipDuration c) (cw_scrollListener c) (cw_onDisposed c)
    (cw_position c) (cw_hideTimer c) b (cw_onDisposedCalls c).

Definition cw_count_onDisposed (c : RemoteCursorWidget) : RemoteCursorWidget :=
  mkCursorWidget (cw_id c) (cw_background c) (cw_display c) (cw_tooltipNode c)
    (cw_tooltipDuration c) (cw_scrollListener c) (cw_onDisposed c)
    (cw_position c) (cw_hideTimer c) (cw_disposed c) (S (cw_onDisposedCalls c)).

Definition rs_set_styleAttached (b : bool) (s : RemoteSelection) : RemoteSelection :=
  mkRemoteSelection (rs_id s) (rs_label s) (rs_onDisposed s) (rs_className s)
    (rs_css s) b (rs_startPosition s) (rs_endPosition s) (rs_decorations s)
    (rs_disposed s) (rs_onDisposedCalls s).

Definition rs_set_positions (a b : option IPosition) (s : RemoteSelection) : RemoteSelection :=
  mkRemoteSelection (rs_id s) (rs_label s) (rs_onDisposed s) (rs_className s)
    (rs_css s) (rs_styleAttached s) a b (rs_decorations s)
    (rs_disposed s) (rs_onDisposedCalls s).

Definition rs_set_decorations (d : list nat) (s : RemoteSelection) : RemoteSelection :=
  mkRemoteSelection (rs_id s) (rs_label s) (rs_onDisposed s) (rs_className s)
    (rs_css s) (rs_styleAttached s) (rs_startPosition s) (rs_endPosition s) d
    (rs_disposed s) (rs_onDisposedCalls s).

Definition rs_set_disposed (b : bool) (s : RemoteSelection) : RemoteSelection :=
  mkRemoteSelection (rs_id s) (rs_label s) (rs_onDisposed s) (rs_className s)
    (rs_css s) (rs_styleAttached s) (rs_startPosition s) (rs_endPosition s)
    (rs_decorations s) b (rs_onDisposedCalls s).

Definition rs_count_onDisposed (s : RemoteSelection) : RemoteSelection :=
  mkRemoteSelection (rs_id s) (rs_label s) (rs_onDisposed s) (rs_className s)
    (rs_css s) (rs_styleAttached s) (rs_startPosition s) (rs_endPosition s)
    (rs_decorations s) (rs_disposed s) (S (rs_onDisposedCalls s)).

(** Writing a field of the widget at reference [r]. *)
Definition updCursor (r : nat) (f : RemoteCursorWidget → RemoteCursorWidget) (w : World) : World :=
  set_cursors (alter f r (cursors w)) w.

Definition updSelection (r : nat) (f : RemoteSelection → RemoteSelection) (w : World) : World :=
  set_selections (alter f r (selections w)) w.

(** ** Editor and timer primitives *)

Definition addContentWidget (r : nat) (w : World) : World :=
  set_contentWidgets (contentWidgets w ++ [r]) w.

Definition removeContentWidget (r : nat) (w : World) : World :=
  set_contentWidgets (filter (λ x, x ≠ r) (contentWidgets w)) w.

(** The ids [n, n+1, ...] given to a list of new decorations. *)
Fixpoint freshDecorations (n : nat) (new : list IModelDecoration)
    (d : gmap nat IModelDecoration) : list nat * gmap nat IModelDecoration :=
  match new with
  | [] => ([], d)
  | x :: rest =>
      let (ids, d') := freshDecorations (S n) rest (<[n:=x]> d) in
      (n :: ids, d')
  end.

(** [editor.deltaDecorations(old, new)]: drops the decorations [old], adds
    [new] and returns the ids of the added ones; an editor without a model
    has no decorations and returns [[]].  The store keeps each decoration
    as the program hands it over; the editor shows it over that range as
    far as the range lies in the document. *)
Definition deltaDecorations (old : list nat) (new : list IModelDecoration)
    (w : World) : list nat * World :=
  match model w with
  | None => ([], w)
  | Some _ =>
      let kept := foldr delete (decorations w) old in
      let (ids, d) := freshDecorations (nextDecoration w) new kept in
      (ids, set_decorations d (nextDecoration w + length new)%nat w)
  end.

Definition setTimeout (task : TimerTask) (delay : Z) (w : World) : nat * World :=
  (nextTimer w, set_timers (timers w ++ [(nextTimer w, (delay, task))]) (S (nextTimer w)) w).

Definition clearTimeout (t : nat) (w : World) : World :=
  set_timers (filter (λ x, x.1 ≠ t) (timers w)) (nextTimer w) w.

Section Program.

Context `{TextModelOps}.

(** ** RemoteCursorWidget *)

Definition RemoteCursorWidget_new (widgetId color label : string)
    (tooltipEnabled : bool) (tooltipDuration : Z) (onDisposed : Callback)
    (w : World) : nat * World :=
  let this := nextRef w in
  let widget :=
    {| cw_id := "monaco-remote-cursor-" +:+ widgetId;
       cw_background := color;
       cw_display := "";
       cw_tooltipNode := if tooltipEnabled then Some (mkTooltip label "") else None;
       cw_tooltipDuration := tooltipDuration;
       cw_scrollListener := if tooltipEnabled then Some true else None;
       cw_onDisposed := onDisposed;
       cw_position := None;
       cw_hideTimer := None;
       cw_disposed := false;
       cw_onDisposedCalls := 0 |} in
  (this, addContentWidget this
           (set_nextRef (S this) (set_cursors (<[this:=widget]> (cursors w)) w))).

Definition RemoteCursorWidget_hide (this : nat) (w : World) : World :=
  updCursor this (cw_set_display "none") w.

Definition RemoteCursorWidget_show (this : nat) (w : World) : World :=
  updCursor this (cw_set_display "inherit") w.

(** [this.position = {position, preference}], then
    [editor.layoutContentWidget(this)]. *)
Definition updatePosition (this : nat) (position : IPosition) (w : World) : World :=
  let w1 := updCursor this (cw_set_position (Some position)) w in
  set_layouts (layouts w1 ++ [(this, position)]) w1.

(** Only moves the tooltip node ([style.top], [style.left]), which is not
    part of the store. *)
Definition updateTooltipPosition (this : nat) (w : World) : World := w.

Definition setTooltipVisible (this : nat) (visible : bool) (w : World) : World :=
  updCursor this
    (λ c, match cw_tooltipNode c with
          | None => c
          | Some t =>
              cw_set_tooltipNode
                (Some (mkTooltip (innerHTML t) (if visible then "1.0" else "0"))) c
          end) w.

Definition showTooltip (this : nat) (w : World) : World :=
  let w := updateTooltipPosition this w in
  match cursors w !! this with
  | None => w
  | Some c =>
      let w1 := match cw_hideTimer c with
                | Some t => clearTimeout t w
                | None => setTooltipVisible this true w
                end in
      let (t, w2) := setTimeout (THideTooltip this) (cw_tooltipDuration c) w1 in
      updCursor this (cw_set_hideTimer (Some t)) w2
  end.

(** The arrow function scheduled by [showTooltip]. *)
Definition hideTooltipTask (this : nat) (w : World) : World :=
  updCursor this (cw_set_hideTimer None) (setTooltipVisible this false w).

Definition RemoteCursorWidget_setPosition (this : nat) (position : IPosition)
    (w : World) : World :=
  let w1 := updatePosition this position w in
  match cursors w1 !! this with
  | None => w1
  | Some c =>
      match cw_tooltipNode c with
      | Some _ => (setTimeout (TShowTooltip this) 0 w1).2
      | None => w1
      end
  end.

Definition RemoteCursorWidget_setOffset (this : nat) (offset : Z) (w : World) : World :=
  match model w with
  | None => w
  | Some m => RemoteCursorWidget_setPosition this (getPositionAt (getValue m) offset) w
  end.

Definition setPositionWithModelContentChange (this : nat)
    (change : IModelContentChange) (w : World) : World :=
  match model w with
  | None => w
  | Some m =>
      updatePosition this
        (getPositionAt (getValue m)
           (rangeOffset change + jsLength (text change))) w
  end.

(** A reference that is not in the store counts as disposed; the program
    never holds one. *)
Definition RemoteCursorWidget_isDisposed (this : nat) (w : World) : bool :=
  match cursors w !! this with
  | Some c => cw_disposed c
  | None => true
  end.

(** [dispose()]; [onDisposed] runs the stored callback. *)
Definition RemoteCursorWidget_dispose (onDisposed : Callback → World → option World)
    (this : nat) (w : World) : option World :=
  match cursors w !! this with
  | None => Some w
  | Some c =>
      if cw_disposed c then Some w
      else
        let w1 := removeContentWidget this w in
        let w2 := match cw_scrollListener c with
                  | Some _ => updCursor this (cw_set_scrollListener (Some false)) w1
                  | None => w1
                  end in
        let w3 := updCursor this (cw_set_disposed true) w2 in
        onDisposed (cw_onDisposed c) (updCursor this cw_count_onDisposed w3)
  end.

Definition RemoteCursorWidget_getPosition (this : nat) (w : World) : option IPosition :=
  c ← cursors w !! this; cw_position c.

(** ** RemoteSelection *)

Definition RemoteSelection_new (id color label : string) (onDisposed : Callback)
    (w : World) : nat * World :=
  let this := nextRef w in
  let uniqueClassId := "monaco-remote-selection-" +:+ id in
  let s :=
    {| rs_id := id;
       rs_label := label;
       rs_onDisposed := onDisposed;
       rs_className := "monaco-remote-selection " +:+ uniqueClassId;
       rs_css := "." +:+ uniqueClassId +:+ " { background-color: " +:+ color +:+ " }";
       rs_styleAttached := true;
       rs_startPosition := None;
       rs_endPosition := None;
       rs_decorations := [];
       rs_disposed := false;
       rs_onDisposedCalls := 0 |} in
  (this, set_nextRef (S this) (set_selections (<[this:=s]> (selections w)) w)).

Definition swapIfNeeded (start end_ : IPosition) : IPosition * IPosition :=
  if (lineNumber start <? lineNumber end_)
     || ((lineNumber start =? lineNumber end_) && (column start <=? column end_))
  then (start, end_)
  else (end_, start).

Definition render (this : nat) (w : World) : World :=
  match selections w !! this with
  | None => w
  | Some s =>
      match rs_startPosition s, rs_endPosition s with
      | Some a, Some b =>
          let range := Range_new (lineNumber a) (column a) (lineNumber b) (column b) in
          let options := mkDecoration range (rs_className s) (Some (rs_label s)) in
          let (ids, w1) := deltaDecorations (rs_decorations s) [options] w in
          updSelection this (rs_set_decorations ids) w1
      | _, _ => w
      end
  end.

Definition RemoteSelection_setPositions (this : nat) (start end_ : IPosition)
    (w : World) : World :=
  let ordered := swapIfNeeded start end_ in
  render this (updSelection this (rs_set_positions (Some ordered.1) (Some ordered.2)) w).

Definition RemoteSelection_setOffsets (this : nat) (start end_ : Z) (w : World) : World :=
  match model w with
  | None => w
  | Some m =>
      RemoteSelection_setPositions this
        (getPositionAt (getValue m) start) (getPositionAt (getValue m) end_) w
  end.

Definition RemoteSelection_show (this : nat) (w : World) : World := render this w.

Definition RemoteSelection_hide (this : nat) (w : World) : World :=
  match selections w !! this with
  | None => w
  | Some s =>
      let (ids, w1) := deltaDecorations (rs_decorations s) [] w in
      updSelection this (rs_set_decorations ids) w1
  end.

Definition RemoteSelection_isDisposed (this : nat) (w : World) : bool :=
  match selections w !! this with
  | Some s => rs_disposed s
  | None => true
  end.

Definition RemoteSelection_dispose (onDisposed : Callback → World → option World)
    (this : nat) (w : World) : option World :=
  match selections w !! this with
  | None => Some w
  | Some s =>
      if negb (rs_disposed s) then
        let w1 := if rs_styleAttached s
                  then updSelection this (rs_set_styleAttached false) w
                  else w in
        let w2 := RemoteSelection_hide this w1 in
        let w3 := updSelection this (rs_set_disposed true) w2 in
        onDisposed (rs_onDisposed s) (updSelection this rs_count_onDisposed w3)
      else Some w
  end.

(** ** RemoteCursorManager *)

Definition addCursor (user : IEditorUser) (w : World) : nat * World :=
  match cursorWidgets w !! uid user with
  | Some cursorWidget => (cursorWidget, w)
  | None =>
      let (cursorWidget, w1) :=
        RemoteCursorWidget_new (uid user) (color user) (label user)
          (tooltips w) (tooltipDuration w * 1000) (CbRemoveCursor (uid user)) w in
      (cursorWidget, set_cursorWidgets (<[uid user:=cursorWidget]> (cursorWidgets w1)) w1)
  end.

Definition removeCursor_body (onDisposed : Callback → World → option World)
    (id : string) (w : World) : option World :=
  let cursorWidget := cursorWidgets w !! id in
  w1 ← match cursorWidget with
       | Some c =>
           if negb (RemoteCursorWidget_isDisposed c w)
           then RemoteCursorWidget_dispose onDisposed c w
           else Some w
       | None => Some w
       end;
  Some (set_cursorWidgets (delete id (cursorWidgets w1)) w1).

Definition setCursorPosition (id : string) (position : IPosition) (w : World) : World :=
  match cursorWidgets w !! id with
  | Some c => RemoteCursorWidget_setPosition c position w
  | None => w
  end.

Definition setCursorOffset (id : string) (offset : Z) (w : World) : World :=
  match cursorWidgets w !! id with
  | Some c => RemoteCursorWidget_setOffset c offset w
  | None => w
  end.

Definition showCursor (id : string) (w : World) : World :=
  match cursorWidgets w !! id with
  | Some c => RemoteCursorWidget_show c w
  | None => w
  end.

Definition hideCursor (id : string) (w : World) : World :=
  match cursorWidgets w !! id with
  | Some c => RemoteCursorWidget_hide c w
  | None => w
  end.

(** ** RemoteSelectionManager *)

Definition addSelection (user : IEditorUser) (w : World) : nat * World :=
  match remoteSelections w !! uid user with
  | Some selection => (selection, w)
  | None =>
      let (selection, w1) :=
        RemoteSelection_new (uid user) (color user) (color user)
          (CbRemoveSelection (uid user)) w in
      (selection, set_remoteSelections (<[uid user:=selection]> (remoteSelections w1)) w1)
  end.

Definition removeSelection_body (onDisposed : Callback → World → option World)
    (id : string) (w : World) : option World :=
  let remoteSelection := remoteSelections w !! id in
  match remoteSelection with
  | Some s =>
      if negb (RemoteSelection_isDisposed s w)
      then RemoteSelection_dispose onDisposed s w
      else Some w
  | None => Some w
  end.

Definition setSelectionOffsets (id : string) (start end_ : Z) (w : World) : World :=
  match remoteSelections w !! id with
  | Some s => RemoteSelection_setOffsets s start end_ w
  | None => w
  end.

Definition setSelectionPositions (id : string) (start end_ : IPosition) (w : World) : World :=
  match remoteSelections w !! id with
  | Some s => RemoteSelection_setPositions s start end_ w
  | None => w
  end.

Definition showSelection (id : string) (w : World) : World :=
  match remoteSelections w !! id with
  | Some s => RemoteSelection_show s w
  | None => w
  end.

Definition hideSelection (id : string) (w : World) : World :=
  match remoteSelections w !! id with
  | Some s => RemoteSelection_hide s w
  | None => w
  end.

(** ** Running the disposal callbacks

    [removeCursor] disposes a widget, whose callback calls [removeCursor]
    again; the nesting is bounded by [fuel], and [None] is "out of fuel". *)

Fixpoint runCallback (fuel : nat) (cb : Callback) (w : World) : option World :=
  match fuel with
  | O => None
  | S n =>
      match cb with
      | CbRemoveCursor id => removeCursor_body (runCallback n) id w
      | CbRemoveSelection id => removeSelection_body (runCallback n) id w
      end
  end.

Definition removeCursor (fuel : nat) (id : string) (w : World) : option World :=
  removeCursor_body (runCallback fuel) id w.

Definition removeSelection (fuel : nat) (id : string) (w : World) : option World :=
  removeSelection_body (runCallback fuel) id w.

Definition cursorDispose (fuel : nat) (this : nat) (w : World) : option World :=
  RemoteCursorWidget_dispose (runCallback fuel) this w.

Definition selectionDispose (fuel : nat) (this : nat) (w : World) : option World :=
  RemoteSelection_dispose (runCallback fuel) this w.

(** A timer that fires: it leaves the pending list and its callback runs. *)
Definition runTask (task : TimerTask) (w : World) : World :=
  match task with
  | TShowTooltip c => showTooltip c w
  | THideTooltip c => hideTooltipTask c w
  end.

Definition fireTimer (t : nat) (w : World) : World :=
  match list_find (λ x, x.1 = t) (timers w) with
  | Some (_, (_, (_, task))) => runTask task (clearTimeout t w)
  | None => w
  end.

(** ** EditorContentManager *)

(** The store right after the constructors: the managers exist exactly
    when a channel was given, and so do the editor subscriptions.  The
    constructors throw when [options.editor] is undefined or null; a store
    always has its editor, whose model may be null and whose cursor starts
    at the first position. *)
Definition newWorld (m : option ITextModel) (tooltips_ : bool)
    (tooltipDuration_ : Z) (channel_ : bool) : World :=
  {| model := m; contentWidgets := []; decorations := ∅; nextDecoration := 0;
     editLog := []; contentListener := channel_; timers := []; nextTimer := 0;
     cursors := ∅; selections := ∅; nextRef := 0;
     cursorWidgets := ∅; tooltips := tooltips_; tooltipDuration := tooltipDuration_;
     remoteSelections := ∅; channel := channel_; outbox := []; layouts := [];
     localCursor := mkSelection 1 1 1 1 |}.

Definition EditorContentManager_new (m : option ITextModel) (channel_ : bool) : World :=
  newWorld m true 20 channel_.

Definition sendMessage (m : IMessageData) (w : World) : World :=
  if channel w then set_outbox (outbox w ++ [m]) w else w.

Definition editorCursorPositionChangeListener (event : ICursorPositionChangedEvent)
    (w : World) : World :=
  sendMessage (CursorPosition event) w.

Definition editorCursorSelectionChangedListener (event : ICursorSelectionChangedEvent)
    (w : World) : World :=
  sendMessage (CursorSelection event) w.

Definition sendCodeSnippet (event : IModelContentChangedEvent) (w : World) : World :=
  match model w with
  | None => w
  | Some m =>
      if versionId event <? getVersionId m then w
      else sendMessage (CodeSnippet event) w
  end.

(** The editor's cursor has moved to [s]: the editor tells the listeners
    of [onDidChangeCursorPosition] and of [onDidChangeCursorSelection], in
    this order.  The only ones are those the constructor subscribed when a
    channel was given, which nothing unsubscribes; without a channel their
    [sendMessage] would do nothing. *)
Definition cursorStateChanged (s : ISelection) (w : World) : World :=
  let position_ := mkPosition (positionLineNumber s) (positionColumn s) in
  editorCursorSelectionChangedListener (mkSelectionChanged s)
    (editorCursorPositionChangeListener (mkCursorMoved position_)
       (set_localCursor s w)).

(** [editor.executeEdits(source, [{range, text, forceMoveMarkers}])].  An
    operation that changes nothing is dropped: the model keeps its version
    and no listener is told.  Otherwise the editor replaces [range] by
    [text] in its model, which moves to the next version; it tells the
    content listeners, with the change and the new version (the only
    content listener is the one the constructor subscribed,
    [event => this.sendCodeSnippet(event)]); and it recovers its cursor,
    telling the cursor listeners when the cursor has moved. *)
Definition executeEdits (source : string) (range_ : IRange) (text_ : string)
    (w : World) : World :=
  match model w with
  | None => w
  | Some m =>
      let w0 := set_editLog (editLog w ++ [(source, range_, text_)]) w in
      if editChanges (getValue m) range_ text_ then
        let change := changeOf (getValue m) range_ text_ in
        let m' := mkModel (applyEdit (getValue m) range_ text_) (getVersionId m + 1) in
        let w1 := set_model (Some m') w0 in
        let w2 := if contentListener w1
                  then sendCodeSnippet (mkChanged [change] (getVersionId m')) w1
                  else w1 in
        match cursorAfterEdit (localCursor w) (getValue m) range_ text_ with
        | Some s => cursorStateChanged s w2
        | None => w2
        end
      else w0
  end.

(** [this.cursorManager?.f(...)] and [this.selectionManager?.f(...)]: the
    managers are defined exactly when the channel is. *)
Definition ifManager (f : World → World) (w : World) : World :=
  if channel w then f w else w.

(** The body of the [forEach] of [updateContent]. *)
Definition applyChange (uid_ : string) (w : World) (change : IModelContentChange) : World :=
  let _range := toRange (range change) in
  let w1 := executeEdits uid_ _range (text change) w in
  match model w1 with
  | None => w1
  | Some m =>
      let position :=
        getPositionAt (getValue m) (rangeOffset change + jsLength (text change)) in
      ifManager (setCursorPosition uid_ position) w1
  end.

Definition updateContent (uid_ : string) (event : IModelContentChangedEvent)
    (w : World) : World :=
  match model w with
  | None => w
  | Some m =>
      if versionId event <=? getVersionId m then w
      else fold_left (applyChange uid_) (changes event) w
  end.

Definition updateCursorPosition (uid_ : string) (event : ICursorPositionChangedEvent)
    (w : World) : World :=
  match model w with
  | None => w
  | Some m =>
      let offset := getOffsetAt (getValue m) (position event) in
      ifManager (setCursorOffset uid_ offset) w
  end.

Definition updateSelection (uid_ : string) (event : ICursorSelectionChangedEvent)
    (w : World) : World :=
  match model w with
  | None => w
  | Some m =>
      let selection_ :=
        Selection_new (selectionStartLineNumber (selection event))
          (selectionStartColumn (selection event))
          (positionLineNumber (selection event))
          (positionColumn (selection event)) in
      let startOffset := getOffsetAt (getValue m) (getStartPosition selection_) in
      let endOffset := getOffsetAt (getValue m) (getEndPosition selection_) in
      ifManager (setSelectionOffsets uid_ startOffset endOffset) w
  end.

Definition receiver (msg : IMessage) (w : World) : World :=
  match message_uid msg with
  | None => w
  | Some uid_ =>
      let user := {| uid := uid_; label := "User-" +:+ uid_; color := "blue" |} in
      let w1 := ifManager (λ w, (addCursor user w).2) w in
      let w2 := ifManager (λ w, (addSelection user w).2) w1 in
      match message msg with
      | CodeSnippet data => updateContent uid_ data w2
      | CursorPosition data => updateCursorPosition uid_ data w2
      | CursorSelection data => updateSelection uid_ data w2
      | OtherMessage _ => w2
      end
  end.

Definition onMemberJoined (memberId : string) (w : World) : World :=
  let user := {| uid := memberId; label := "User-" +:+ memberId; color := "blue" |} in
  let w1 := ifManager (λ w, (addCursor user w).2) w in
  ifManager (λ w, (addSelection user w).2) w1.

Definition onMemberLeft (fuel : nat) (memberId : string) (w : World) : option World :=
  w1 ← (if channel w then removeCursor fuel memberId w else Some w);
  if channel w1 then removeSelection fuel memberId w1 else Some w1.

Definition EditorContentManager_dispose (w : World) : World :=
  set_contentListener false w.

(** ** Event traces

    Everything that can happen to the store: deliveries of the channel,
    events of the editor, edits of the document made through
    [executeEdits] ([LocalEdit]), the cursor of the editor being moved
    ([MoveCursor]), timers that fire, and calls of the public methods of
    the managers and of the widgets they hand out. *)

Inductive Op :=
  | Receive (msg : IMessage)
  | MemberJoined (memberId : string)
  | MemberLeft (memberId : string)
  | CursorMoved (event : ICursorPositionChangedEvent)
  | SelectionChanged (event : ICursorSelectionChangedEvent)
  | ContentChanged (event : IModelContentChangedEvent)
  | LocalEdit (range_ : IRange) (text_ : string)
  | MoveCursor (s : ISelection)
  | TimerFires (t : nat)
  | DisposeManager
  | AddCursor (user : IEditorUser)
  | RemoveCursor (id : string)
  | SetCursorPosition (id : string) (p : IPosition)
  | SetCursorOffset (id : string) (offset : Z)
  | ShowCursor (id : string)
  | HideCursor (id : string)
  | AddSelection (user : IEditorUser)
  | RemoveSelection (id : string)
  | SetSelectionOffsets (id : string) (start end_ : Z)
  | SetSelectionPositions (id : string) (start end_ : IPosition)
  | ShowSelection (id : string)
  | HideSelection (id : string)
  | CursorSetPosition (c : nat) (p : IPosition)
  | CursorSetOffset (c : nat) (offset : Z)
  | CursorSetPositionWithChange (c : nat) (change : IModelContentChange)
  | CursorShow (c : nat)
  | CursorHide (c : nat)
  | CursorDispose (c : nat)
  | SelectionSetPositions (s : nat) (start end_ : IPosition)
  | SelectionSetOffsets (s : nat) (start end_ : Z)
  | SelectionShow (s : nat)
  | SelectionHide (s : nat)
  | SelectionDispose (s : nat).

Definition step (fuel : nat) (op : Op) (w : World) : option World :=
  match op with
  | Receive msg => Some (if channel w then receiver msg w else w)
  | MemberJoined id => Some (if channel w then onMemberJoined id w else w)
  | MemberLeft id => if channel w then onMemberLeft fuel id w else Some w
  | CursorMoved e => Some (if channel w then editorCursorPositionChangeListener e w else w)
  | SelectionChanged e =>
      Some (if channel w then editorCursorSelectionChangedListener e w else w)
  | ContentChanged e => Some (if contentListener w then sendCodeSnippet e w else w)
  | LocalEdit r t => Some (executeEdits "keyboard" r t w)
  | MoveCursor s => Some (if decide (s = localCursor w) then w else cursorStateChanged s w)
  | TimerFires t => Some (fireTimer t w)
  | DisposeManager => Some (EditorContentManager_dispose w)
  | AddCursor u => Some (addCursor u w).2
  | RemoveCursor id => removeCursor fuel id w
  | SetCursorPosition id p => Some (setCursorPosition id p w)
  | SetCursorOffset id o => Some (setCursorOffset id o w)
  | ShowCursor id => Some (showCursor id w)
  | HideCursor id => Some (hideCursor id w)
  | AddSelection u => Some (addSelection u w).2
  | RemoveSelection id => removeSelection fuel id w
  | SetSelectionOffsets id a b => Some (setSelectionOffsets id a b w)
  | SetSelectionPositions id a b => Some (setSelectionPositions id a b w)
  | ShowSelection id => Some (showSelection id w)
  | HideSelection id => Some (hideSelection id w)
  | CursorSetPosition c p => Some (RemoteCursorWidget_setPosition c p w)
  | CursorSetOffset c o => Some (RemoteCursorWidget_setOffset c o w)
  | CursorSetPositionWithChange c ch => Some (setPositionWithModelContentChange c ch w)
  | CursorShow c => Some (RemoteCursorWidget_show c w)
  | CursorHide c => Some (RemoteCursorWidget_hide c w)
  | CursorDispose c => cursorDispose fuel c w
  | SelectionSetPositions s a b => Some (RemoteSelection_setPositions s a b w)
  | SelectionSetOffsets s a b => Some (RemoteSelection_setOffsets s a b w)
  | SelectionShow s => Some (RemoteSelection_show s w)
  | SelectionHide s => Some (RemoteSelection_hide s w)
  | SelectionDispose s => selectionDispose fuel s w
  end.

Fixpoint run (fuel : nat) (ops : list Op) (w : World) : option World :=
  match ops with
  | [] => Some w
  | op :: rest => w1 ← step fuel op w; run fuel rest w1
  end.

End Program.

(** ** A concrete text buffer

    Lines are separated by line feeds; positions are one-based.  Used to
    run the program on examples, on ASCII text and with ranges whose start
    is not after their end. *)

Fixpoint positionFrom (s : string) (n : nat) (line col : Z) : IPosition :=
  match n, s with
  | S k, String c rest =>
      if Ascii.eqb c "010"%char then positionFrom rest k (line + 1) 1
      else positionFrom rest k line (col + 1)
  | _, _ => mkPosition line col
  end.

Fixpoint offsetFrom (s : string) (p : IPosition) (line col offset : Z) : Z :=
  match s with
  | EmptyString => offset
  | String c rest =>
      if (lineNumber p <? line)
         || ((lineNumber p =? line) && ((column p <=? col) || Ascii.eqb c "010"%char))
      then offset
      else if Ascii.eqb c "010"%char then offsetFrom rest p (line + 1) 1 (offset + 1)
      else offsetFrom rest p line (col + 1) (offset + 1)
  end.

Definition plainPositionAt (s : string) (offset : Z) : IPosition :=
  positionFrom s (Z.to_nat offset) 1 1.

Definition plainOffsetAt (s : string) (p : IPosition) : Z := offsetFrom s p 1 1 0.

Definition plainApplyEdit (s : string) (r : IRange) (t : string) : string :=
  let a := Z.to_nat (plainOffsetAt s (getStartPosition r)) in
  let b := Z.to_nat (plainOffsetAt s (getEndPosition r)) in
  substring 0 a s +:+ t +:+ substring b (String.length s - b) s.

(** Replacing nothing by nothing changes nothing. *)
Definition plainEditChanges (s : string) (r : IRange) (t : string) : bool :=
  negb ((plainOffsetAt s (getStartPosition r) =? plainOffsetAt s (getEndPosition r))
        && String.eqb t "").

(** The reported range is the given one brought into the buffer. *)
Definition plainChangeOf (s : string) (r : IRange) (t : string) : IModelContentChange :=
  let a := plainOffsetAt s (getStartPosition r) in
  let b := plainOffsetAt s (getEndPosition r) in
  let start := plainPositionAt s a in
  let end_ := plainPositionAt s b in
  mkChange (mkRange (lineNumber start) (column start) (lineNumber end_) (column end_))
    a (b - a) t.

(** Where an offset of the buffer lies after the operation that replaces
    the offsets from [a] to [b] by [n] characters with [forceMoveMarkers]:
    an offset before [a] stays, one from [a] to [b] moves behind the new
    text, a later one moves with the text that follows. *)
Definition movedOffset (a b n p : Z) : Z :=
  if p <? a then p else if p <=? b then a + n else p + n - (b - a).

(** The cursor keeps to its place in the text: both ends of the selection
    are moved as offsets. *)
Definition plainCursorAfterEdit (cur : ISelection) (s : string) (r : IRange) (t : string) :
    option ISelection :=
  let a := plainOffsetAt s (getStartPosition r) in
  let b := plainOffsetAt s (getEndPosition r) in
  let n := Z.of_nat (String.length t) in
  let s' := plainApplyEdit s r t in
  let anchor := mkPosition (selectionStartLineNumber cur) (selectionStartColumn cur) in
  let active := mkPosition (positionLineNumber cur) (positionColumn cur) in
  let anchor' := plainPositionAt s' (movedOffset a b n (plainOffsetAt s anchor)) in
  let active' := plainPositionAt s' (movedOffset a b n (plainOffsetAt s active)) in
  let cur' := mkSelection (lineNumber anchor') (column anchor')
                (lineNumber active') (column active') in
  if decide (cur' = cur) then None else Some cur'.

#[global] Instance PlainText : TextModelOps :=
  {| getPositionAt := plainPositionAt;
     getOffsetAt := plainOffsetAt;
     editChanges := plainEditChanges;
     applyEdit := plainApplyEdit;
     changeOf := plainChangeOf;
     cursorAfterEdit := plainCursorAfterEdit |}.

(** ** Specification vocabulary *)

(** [a] is before or equal to [b]: by line first, then by column. *)
Definition position_le (a b : IPosition) : Prop :=
  lineNumber a < lineNumber b
  ∨ (lineNumber a = lineNumber b ∧ column a ≤ column b).

#[global] Instance position_le_dec (a b : IPosition) : Decision (position_le a b).
Proof. unfold position_le. apply _. Defined.

(** What the cursor listeners send when the cursor of the editor has
    moved to [s]: its position, then its selection. *)
Definition cursorMessages (moved : option ISelection) : list IMessageData :=
  match moved with
  | Some s =>
      [ CursorPosition (mkCursorMoved (mkPosition (positionLineNumber s) (positionColumn s)));
        CursorSelection (mkSelectionChanged s) ]
  | None => []
  end.

(** The messages sent while the changes [cs] are applied, one by one, to
    a buffer [t] at version [v] in an editor whose cursor is at [cur]: for
    each change that changes the buffer, the change re-sent as the editor
    reports it, with the version the document reached (while the content
    listener is subscribed, [listening]), and the cursor of the editor if
    the change has moved it. *)
Fixpoint echoes `{TextModelOps} (listening : bool) (t : string) (v : Z) (cur : ISelection)
    (cs : list IModelContentChange) : list IMessageData :=
  match cs with
  | [] => []
  | c :: rest =>
      let r := toRange (range c) in
      if editChanges t r (text c) then
        (if listening then [CodeSnippet (mkChanged [changeOf t r (text c)] (v + 1))] else [])
        ++ cursorMessages (cursorAfterEdit cur t r (text c))
        ++ echoes listening (applyEdit t r (text c)) (v + 1)
             (default cur (cursorAfterEdit cur t r (text c))) rest
      else echoes listening t v cur rest
  end.

(** Edits, each with its sender and a single change, as the messages
    with versions [v + 1], [v + 2], ... *)
Definition editMessage (v : Z) (e : string * IModelContentChange) : IMessage :=
  mkMessage (Some e.1) (CodeSnippet (mkChanged [e.2] v)).

Fixpoint editMessages (v : Z) (es : list (string * IModelContentChange)) : list IMessage :=
  match es with
  | [] => []
  | e :: rest => editMessage (v + 1) e :: editMessages (v + 1) rest
  end.

Definition receiveAll `{TextModelOps} (msgs : list IMessage) (w : World) : World :=
  fold_left (λ w msg, receiver msg w) msgs w.

(** The buffer after the edits, applied in order. *)
Definition editedText `{TextModelOps} (t : string) (es : list (string * IModelContentChange)) :
    string :=
  fold_left (λ t e, applyEdit t (toRange (range e.2)) (text e.2)) es t.

(** Each of the edits changes the buffer it is applied to. *)
Fixpoint effective `{TextModelOps} (t : string) (es : list (string * IModelContentChange)) :
    bool :=
  match es with
  | [] => true
  | e :: rest =>
      editChanges t (toRange (range e.2)) (text e.2)
      && effective (applyEdit t (toRange (range e.2)) (text e.2)) rest
  end.

(** The entry an edit leaves in the log of [executeEdits] calls. *)
Definition loggedEdit (e : string * IModelContentChange) : string * IRange * string :=
  (e.1, toRange (range e.2), text e.2).

(** ** Well-formed stores

    What holds of every store the program builds: the registries point to
    widgets of the store whose callback removes that very id, references
    are below the allocation counter, and [onDisposed] has been called
    once for a disposed widget and never for a live one. *)

Record Inv (w : World) : Prop := mkInv {
  inv_cursorWidgets : ∀ id c, cursorWidgets w !! id = Some c →
    ∃ x, cursors w !! c = Some x ∧ cw_onDisposed x = CbRemoveCursor id;
  inv_remoteSelections : ∀ id s, remoteSelections w !! id = Some s →
    ∃ x, selections w !! s = Some x ∧ rs_onDisposed x = CbRemoveSelection id;
  inv_cursors : ∀ c x, cursors w !! c = Some x →
    (c < nextRef w)%nat
    ∧ cw_onDisposedCalls x = (if cw_disposed x then 1 else 0)%nat
    ∧ ∃ id, cw_onDisposed x = CbRemoveCursor id;
  inv_selections : ∀ s x, selections w !! s = Some x →
    (s < nextRef w)%nat
    ∧ rs_onDisposedCalls x = (if rs_disposed x then 1 else 0)%nat
    ∧ ∃ id, rs_onDisposed x = CbRemoveSelection id
}.

(** How many times the callback of the widget at a reference was called. *)
Definition cursorCalls (c : nat) (w : World) : option nat :=
  cw_onDisposedCalls <$> cursors w !! c.

Definition selectionCalls (s : nat) (w : World) : option nat :=
  rs_onDisposedCalls <$> selections w !! s.

(** ** Vocabulary of the proofs *)

(** Updates that leave the objects and the registries alone. *)
Definition sameObjects (w w' : World) : Prop :=
  cursors w' = cursors w ∧ selections w' = selections w ∧ nextRef w' = nextRef w
  ∧ cursorWidgets w' = cursorWidgets w ∧ remoteSelections w' = remoteSelections w.

(** Writes that keep the callback, the disposed flag and the call count. *)
Definition benignCursor (f : RemoteCursorWidget → RemoteCursorWidget) : Prop :=
  ∀ x, cw_onDisposed (f x) = cw_onDisposed x
       ∧ cw_disposed (f x) = cw_disposed x
       ∧ cw_onDisposedCalls (f x) = cw_onDisposedCalls x.

Definition benignSelection (f : RemoteSelection → RemoteSelection) : Prop :=
  ∀ x, rs_onDisposed (f x) = rs_onDisposed x
       ∧ rs_disposed (f x) = rs_disposed x
       ∧ rs_onDisposedCalls (f x) = rs_onDisposedCalls x.

(** Predicates on stores that such updates and writes preserve. *)
Record Stable (P : World → Prop) : Prop := mkStable {
  stable_sameObjects : ∀ w w', sameObjects w w' → P w → P w';
  stable_updCursor : ∀ c f w, benignCursor f → P w → P (updCursor c f w);
  stable_updSelection : ∀ s f w, benignSelection f → P w → P (updSelection s f w)
}.

(** The store in which [dispose] calls the callback of a live cursor
    widget [x] stored at [c]. *)
Definition cursorReleased (c : nat) (x : RemoteCursorWidget) (w : World) : World :=
  let w1 := removeContentWidget c w in
  let w2 := match cw_scrollListener x with
            | Some _ => updCursor c (cw_set_scrollListener (Some false)) w1
            | None => w1
            end in
  updCursor c cw_count_onDisposed (updCursor c (cw_set_disposed true) w2).

(** The same for a live selection. *)
Definition selectionReleased (s : nat) (x : RemoteSelection) (w : World) : World :=
  let w1 := if rs_styleAttached x
            then updSelection s (rs_set_styleAttached false) w
            else w in
  let w2 := RemoteSelection_hide s w1 in
  updSelection s rs_count_onDisposed (updSelection s (rs_set_disposed true) w2).

(** Nothing revives a widget between two stores. *)
Definition staysDisposed (w w' : World) : Prop :=
  (∀ c, RemoteCursorWidget_isDisposed c w = true →
        RemoteCursorWidget_isDisposed c w' = true)
  ∧ (∀ s, RemoteSelection_isDisposed s w = true →
          RemoteSelection_isDisposed s w' = true).

(** The callbacks have been called as often in [w'] as in [w]. *)
Definition sameCalls (w w' : World) : Prop :=
  (∀ c, cursorCalls c w' = cursorCalls c w)
  ∧ (∀ s, selectionCalls s w' = selectionCalls s w).

(** ** Example stores

    Stores and messages on the concrete text buffer, for the examples that
    close the development. *)

Definition alice : IEditorUser := mkUser "a" "red" "Alice".

(** The store of a controller with a channel on an empty document at
    version 0. *)
Definition emptyDoc : World := EditorContentManager_new (Some (mkModel "" 0)) true.

Definition fromA (event : IModelContentChangedEvent) : IMessage :=
  mkMessage (Some "a") (CodeSnippet event).

(** "hi" typed at offset 0, sent at version 1. *)
Definition typeHi : IModelContentChangedEvent :=
  mkChanged [mkChange (mkRange 1 1 1 1) 0 0 "hi"] 1.

(** One edit with two changes, sent at version 1, and the next edit of
    the same sender, sent at version 2. *)
Definition twoChanges : IModelContentChangedEvent :=
  mkChanged [mkChange (mkRange 1 1 1 1) 0 0 "b"; mkChange (mkRange 1 1 1 1) 0 0 "a"] 1.

Definition thenC : IModelContentChangedEvent :=
  mkChanged [mkChange (mkRange 1 3 1 3) 2 0 "c"] 2.

(** Managers on their own, with tooltips of one second. *)
Definition managersOnly : World := newWorld (Some (mkModel "" 0)) true 1 false.

Definition withSelection : World := (addSelection alice managersOnly).2.

Definition selectionRemoved : World :=
  default withSelection (removeSelection 2 "a" withSelection).

(** A cursor whose tooltip is showing: added, positioned, and the
    [showTooltip] timer has fired, which leaves the auto-hide timer
    pending. *)
Definition tooltipShowing : World :=
  fireTimer 0 (RemoteCursorWidget_setPosition 0 (mkPosition 1 1) (addCursor alice managersOnly).2).

Definition tooltipDisposed : World :=
  default tooltipShowing (cursorDispose 2 0 tooltipShowing).

(** A trace through both kinds of overlay, with repeated disposals and
    operations on disposed overlays. *)
Definition lifetimeTrace : list Op :=
  [ AddCursor alice; AddSelection alice;
    CursorSetPosition 0 (mkPosition 1 1); TimerFires 0;
    SelectionSetPositions 1 (mkPosition 1 2) (mkPosition 1 1);
    CursorDispose 0; CursorDispose 0; TimerFires 1;
    SelectionDispose 1; RemoveSelection "a"; SelectionDispose 1;
    CursorSetPosition 0 (mkPosition 1 1); CursorShow 0; CursorHide 0;
    SelectionShow 1; SelectionHide 1; AddCursor alice; RemoveCursor "a" ].

Definition lifetimeEnd : World :=
  default managersOnly (run 2 lifetimeTrace managersOnly).

(** The document of [emptyDoc] once "hi" has arrived: "hi" at version 1. *)
Definition hiDoc : World := receiver (fromA typeHi) emptyDoc.

(** Two edits of one change each, by two senders. *)
Definition twoEdits : list (string * IModelContentChange) :=
  [ ("a", mkChange (mkRange 1 1 1 1) 0 0 "hi");
    ("b", mkChange (mkRange 1 3 1 3) 2 0 "!") ].


(** ** Readers of the widgets *)

(** [RemoteSelection.getId()] *)
Definition RemoteSelection_getId (this : nat) (w : World) : option string :=
  rs_id <$> selections w !! this.

(** [RemoteSelection.getStartPosition()]: [null] before the first
    [setPositions], a copy of the start position afterwards. *)
Definition RemoteSelection_getStartPosition (this : nat) (w : World) : option IPosition :=
  x ← selections w !! this; rs_startPosition x.

(** [RemoteSelection.getEndPosition()] *)
Definition RemoteSelection_getEndPosition (this : nat) (w : World) : option IPosition :=
  x ← selections w !! this; rs_endPosition x.

(** [RemoteCursorWidget.getId()] *)
Definition RemoteCursorWidget_getId (this : nat) (w : World) : option string :=
  cw_id <$> cursors w !! this.

(** The range a selection with end points [a] and [b] is drawn over. *)
Definition drawnRange (a b : IPosition) : IRange :=
  mkRange (lineNumber (swapIfNeeded a b).1) (column (swapIfNeeded a b).1)
    (lineNumber (swapIfNeeded a b).2) (column (swapIfNeeded a b).2).

(** A position of the document: the editor maps it to an offset of the
    buffer and that offset back to the position.  It brings any other
    position into the document first. *)
Definition inDocument `{TextModelOps} (t : string) (p : IPosition) : Prop :=
  getPositionAt t (getOffsetAt t p) = p.

(** ** Kinds of events *)

(** What the channel and the editor deliver to the controller, and its
    own [dispose]. *)
Definition notification (op : Op) : bool :=
  match op with
  | Receive _ | MemberJoined _ | MemberLeft _
  | CursorMoved _ | SelectionChanged _ | ContentChanged _
  | DisposeManager => true
  | _ => false
  end.

(** The text after the changes of one edit, applied in order, and how
    many of them changed the text they were applied to. *)
Fixpoint changedText `{TextModelOps} (t : string) (cs : list IModelContentChange) : string :=
  match cs with
  | [] => t
  | ch :: rest =>
      if editChanges t (toRange (range ch)) (text ch)
      then changedText (applyEdit t (toRange (range ch)) (text ch)) rest
      else changedText t rest
  end.

Fixpoint changesApplied `{TextModelOps} (t : string) (cs : list IModelContentChange) : nat :=
  match cs with
  | [] => 0
  | ch :: rest =>
      if editChanges t (toRange (range ch)) (text ch)
      then S (changesApplied (applyEdit t (toRange (range ch)) (text ch)) rest)
      else changesApplied t rest
  end.

(** A message that carries an edit. *)
Definition isCodeSnippet (d : IMessageData) : bool :=
  match d with
  | CodeSnippet _ => true
  | _ => false
  end.

(** ** More invariants of the stores *)

(** Every registered cursor widget is live. *)
Definition registeredLive (w : World) : Prop :=
  ∀ id c, cursorWidgets w !! id = Some c → RemoteCursorWidget_isDisposed c w = false.

(** The same but for the entry of [id]. *)
Definition registeredLiveBut (id : string) (w : World) : Prop :=
  ∀ id' c, id' ≠ id → cursorWidgets w !! id' = Some c →
           RemoteCursorWidget_isDisposed c w = false.

(** The pending timers are well formed: their ids are distinct and below
    the timer counter, and a pending auto-hide timer is the one that the
    widget it hides remembers in [hideTimer]. *)
Record TimersOk (w : World) : Prop := mkTimersOk {
  timers_fresh : ∀ y, y ∈ timers w → (y.1 < nextTimer w)%nat;
  timers_nodup : NoDup (timers w).*1;
  timers_hide : ∀ t d c, (t, (d, THideTooltip c)) ∈ timers w →
    ∃ x, cursors w !! c = Some x ∧ cw_hideTimer x = Some t
}.

(** The pending auto-hide timers of the widget at [c]. *)
Definition hideTimersOf (c : nat) (w : World) : list (nat * (Z * TimerTask)) :=
  filter (λ y, y.2.2 = THideTooltip c) (timers w).

(** Writes to a cursor widget that keep [hideTimer]. *)
Definition keepsHideTimer (f : RemoteCursorWidget → RemoteCursorWidget) : Prop :=
  ∀ x, cw_hideTimer (f x) = cw_hideTimer x.

(** Predicates on stores that depend on the cursor widgets and the timers
    only, and that the operations on timers preserve. *)
Record Timed `{TextModelOps} (P : World → Prop) : Prop := mkTimed {
  timed_same : ∀ w w', cursors w' = cursors w → timers w' = timers w →
    nextTimer w' = nextTimer w → P w → P w';
  timed_updCursor : ∀ c f w, keepsHideTimer f → P w → P (updCursor c f w);
  timed_setTimeout : ∀ c d w, P w → P (setTimeout (TShowTooltip c) d w).2;
  timed_showTooltip : ∀ c w, P w → P (showTooltip c w);
  timed_fireTimer : ∀ t w, P w → P (fireTimer t w);
  timed_addCursor : ∀ u w, Inv w → P w → P (addCursor u w).2
}.

(** ** More example stores *)

(** A controller without a channel, and one whose editor has no model. *)
Definition noChannel : World := EditorContentManager_new (Some (mkModel "" 0)) false.

Definition noModel : World := EditorContentManager_new None true.

(** What the channel and the editor may deliver, and a [dispose]. *)
Definition deliveries : list Op :=
  [ MemberJoined "a"; Receive (fromA typeHi);
    CursorMoved (mkCursorMoved (mkPosition 1 1));
    SelectionChanged (mkSelectionChanged (mkSelection 1 1 1 2));
    ContentChanged typeHi; DisposeManager; MemberLeft "a" ].

(** The selection of [withSelection] drawn from (1,1) to (1,2), the end
    points given in the reverse order. *)
Definition selectionDrawn : World :=
  setSelectionPositions "a" (mkPosition 1 2) (mkPosition 1 1) withSelection.

(** A cursor whose [showTooltip] timer is pending, and the trace that
    leads there and on to [tooltipShowing]. *)
Definition tooltipPending : World :=
  RemoteCursorWidget_setPosition 0 (mkPosition 1 1) (addCursor alice managersOnly).2.

Definition tooltipTrace : list Op :=
  [ AddCursor alice; CursorSetPosition 0 (mkPosition 1 1); TimerFires 0 ].

(** A session of a controller with a channel: "a" types, its cursor
    widget is disposed directly, "a" joins again and moves its cursor and
    its selection. *)
Definition sessionTrace : list Op :=
  [ Receive (fromA typeHi); CursorDispose 0; MemberJoined "a";
    Receive (mkMessage (Some "a") (CursorPosition (mkCursorMoved (mkPosition 1 2))));
    Receive (mkMessage (Some "a")
               (CursorSelection (mkSelectionChanged (mkSelection 1 3 1 1))));
    TimerFires 0 ].

Definition sessionEnd : World := default emptyDoc (run 2 sessionTrace emptyDoc).

(** The cursor of [alice] just added to the managers of [managersOnly]. *)
Definition cursorAdded : World := (addCursor alice managersOnly).2.

(** * Properties *)

Section Properties.

Context `{TextModelOps}.

(** ** Ordering of positions *)

Lemma swapIfNeeded_le (a b : IPosition) :
  position_le a b → swapIfNeeded a b = (a, b).
Proof.
  intros Hle. unfold swapIfNeeded.
  destruct Hle as [Hlt | [Heq Hcol]].
  - apply Z.ltb_lt in Hlt. by rewrite Hlt.
  - apply Z.eqb_eq in Heq. apply Z.leb_le in Hcol.
    rewrite Heq, Hcol. by rewrite orb_true_r.
Qed.

Lemma swapIfNeeded_gt (a b : IPosition) :
  ¬ position_le a b → swapIfNeeded a b = (b, a).
Proof.
  intros Hn. unfold swapIfNeeded.
  destruct (lineNumber a <? lineNumber b) eqn:Hlt.
  { exfalso. apply Hn. left. by apply Z.ltb_lt. }
  destruct (lineNumber a =? lineNumber b) eqn:Heq; [|done].
  destruct (column a <=? column b) eqn:Hcol; [|done].
  exfalso. apply Hn. right. split; [by apply Z.eqb_eq | by apply Z.leb_le].
Qed.

(** C8. The ordering function compares by line first and then by column:
    when [a] is before or equal to [b] it returns [(a, b)], otherwise
    [(b, a)]; its result is always in order; [(5,3)] and [(5,1)] come back
    as [((5,1),(5,3))]; and two equal positions come back unchanged. *)
Theorem swapIfNeeded_orders (a b : IPosition) :
  swapIfNeeded a b = (if decide (position_le a b) then (a, b) else (b, a))
  ∧ position_le (swapIfNeeded a b).1 (swapIfNeeded a b).2
  ∧ swapIfNeeded (mkPosition 5 3) (mkPosition 5 1) = (mkPosition 5 1, mkPosition 5 3)
  ∧ swapIfNeeded a a = (a, a).
Proof.
  split; [|split; [|split]].
  - case_decide; [by apply swapIfNeeded_le | by apply swapIfNeeded_gt].
  - destruct (decide (position_le a b)) as [Hle | Hn].
    + by rewrite swapIfNeeded_le.
    + rewrite swapIfNeeded_gt by done. simpl.
      unfold position_le in *. lia.
  - reflexivity.
  - apply swapIfNeeded_le. unfold position_le. lia.
Qed.

(** ** Adding an overlay twice *)

Lemma addCursor_registered (u : IEditorUser) (w : World) (c : nat) :
  cursorWidgets w !! uid u = Some c → addCursor u w = (c, w).
Proof. intros Hc. unfold addCursor. by rewrite Hc. Qed.

Lemma addCursor_lookup (u : IEditorUser) (w : World) :
  cursorWidgets (addCursor u w).2 !! uid u = Some (addCursor u w).1.
Proof.
  unfold addCursor. destruct (cursorWidgets w !! uid u) eqn:Hc; simpl; [done|].
  apply lookup_insert_eq.
Qed.

Lemma addSelection_registered (u : IEditorUser) (w : World) (s : nat) :
  remoteSelections w !! uid u = Some s → addSelection u w = (s, w).
Proof. intros Hs. unfold addSelection. by rewrite Hs. Qed.

Lemma addSelection_lookup (u : IEditorUser) (w : World) :
  remoteSelections (addSelection u w).2 !! uid u = Some (addSelection u w).1.
Proof.
  unfold addSelection. destruct (remoteSelections w !! uid u) eqn:Hs; simpl; [done|].
  apply lookup_insert_eq.
Qed.

(** C6. For both managers, on a well-formed store: adding a user whose
    id was just added returns the same overlay and leaves the store as it
    was, whatever colour and label the second call carries.  The overlay
    returned is the one registered for the id and it is an object of the
    store.  Over the two calls one widget is constructed, none if the id
    was registered before: the store has that many objects more, and when
    one is constructed it is at a reference that was free, it is live, and
    it has the colour and the label of the first call. *)
Theorem add_twice_same_instance (w : World) (id c1 l1 c2 l2 : string) :
  Inv w →
  let u1 := mkUser id c1 l1 in
  let u2 := mkUser id c2 l2 in
  addCursor u2 (addCursor u1 w).2 = addCursor u1 w
  ∧ nextRef (addCursor u2 (addCursor u1 w).2).2
    = (nextRef w + match cursorWidgets w !! id with Some _ => 0 | None => 1 end)%nat
  ∧ contentWidgets (addCursor u2 (addCursor u1 w).2).2
    = contentWidgets w
      ++ match cursorWidgets w !! id with Some _ => [] | None => [(addCursor u1 w).1] end
  ∧ addSelection u2 (addSelection u1 w).2 = addSelection u1 w
  ∧ nextRef (addSelection u2 (addSelection u1 w).2).2
    = (nextRef w + match remoteSelections w !! id with Some _ => 0 | None => 1 end)%nat
  ∧ (let second := addCursor u2 (addCursor u1 w).2 in
     cursorWidgets second.2 !! id = Some second.1
     ∧ size (cursors second.2)
       = (size (cursors w)
          + match cursorWidgets w !! id with Some _ => 0 | None => 1 end)%nat
     ∧ (∀ c, cursorWidgets w !! id = Some c → second = (c, w))
     ∧ ∃ x, cursors second.2 !! second.1 = Some x
            ∧ cw_onDisposed x = CbRemoveCursor id
            ∧ (cursorWidgets w !! id = None →
               cursors w !! second.1 = None
               ∧ cw_disposed x = false
               ∧ cw_background x = c1
               ∧ cw_tooltipNode x
                 = (if tooltips w then Some (mkTooltip l1 "") else None)))
  ∧ (let second := addSelection u2 (addSelection u1 w).2 in
     remoteSelections second.2 !! id = Some second.1
     ∧ size (selections second.2)
       = (size (selections w)
          + match remoteSelections w !! id with Some _ => 0 | None => 1 end)%nat
     ∧ (∀ s, remoteSelections w !! id = Some s → second = (s, w))
     ∧ ∃ x, selections second.2 !! second.1 = Some x
            ∧ rs_onDisposed x = CbRemoveSelection id
            ∧ (remoteSelections w !! id = None →
               selections w !! second.1 = None
               ∧ rs_disposed x = false
               ∧ rs_label x = c1
               ∧ rs_css x
                 = "." +:+ ("monaco-remote-selection-" +:+ id)
                   +:+ " { background-color: " +:+ c1 +:+ " }")).
Proof.
  intros HI u1 u2.
  assert (Hc : addCursor u2 (addCursor u1 w).2 = addCursor u1 w).
  { rewrite (addCursor_registered u2 _ (addCursor u1 w).1).
    - by destruct (addCursor u1 w).
    - apply (addCursor_lookup u1). }
  assert (Hs : addSelection u2 (addSelection u1 w).2 = addSelection u1 w).
  { rewrite (addSelection_registered u2 _ (addSelection u1 w).1).
    - by destruct (addSelection u1 w).
    - apply (addSelection_lookup u1). }
  assert (HfreeC : cursors w !! nextRef w = None).
  { destruct (cursors w !! nextRef w) as [x|] eqn:E; [|done].
    destruct (inv_cursors w HI _ _ E) as (Hlt & _). lia. }
  assert (HfreeS : selections w !! nextRef w = None).
  { destruct (selections w !! nextRef w) as [x|] eqn:E; [|done].
    destruct (inv_selections w HI _ _ E) as (Hlt & _). lia. }
  cbn zeta. rewrite Hc, Hs. split_and!.
  - done.
  - unfold addCursor. simpl. destruct (cursorWidgets w !! id); simpl; lia.
  - unfold addCursor. simpl. destruct (cursorWidgets w !! id); simpl; [|done].
    by rewrite app_nil_r.
  - done.
  - unfold addSelection. simpl. destruct (remoteSelections w !! id); simpl; lia.
  - apply (addCursor_lookup u1).
  - unfold addCursor. simpl. destruct (cursorWidgets w !! id); simpl; [lia|].
    rewrite map_size_insert_None by done. lia.
  - intros c Hreg. by apply (addCursor_registered u1).
  - unfold addCursor. simpl. destruct (cursorWidgets w !! id) as [c|] eqn:Hreg; simpl.
    + destruct (inv_cursorWidgets w HI _ _ Hreg) as (x & Hx & Hcb).
      exists x. by split_and!.
    + eexists. rewrite lookup_insert_eq. split; [reflexivity|]. simpl.
      split; [done|]. intros _. by split_and!.
  - apply (addSelection_lookup u1).
  - unfold addSelection. simpl. destruct (remoteSelections w !! id); simpl; [lia|].
    rewrite map_size_insert_None by done. lia.
  - intros s Hreg. by apply (addSelection_registered u1).
  - unfold addSelection. simpl.
    destruct (remoteSelections w !! id) as [s|] eqn:Hreg; simpl.
    + destruct (inv_remoteSelections w HI _ _ Hreg) as (x & Hx & Hcb).
      exists x. by split_and!.
    + eexists. rewrite lookup_insert_eq. split; [reflexivity|]. simpl.
      split; [done|]. intros _. by split_and!.
Qed.

(** ** The label of a selection *)

Lemma deltaDecorations_single (old : list nat) (d : IModelDecoration) (w : World) (m : ITextModel) :
  model w = Some m →
  deltaDecorations old [d] w
  = ([nextDecoration w],
     set_decorations (<[nextDecoration w:=d]> (foldr delete (decorations w) old))
       (nextDecoration w + 1)%nat w).
Proof. intros Hm. unfold deltaDecorations. by rewrite Hm. Qed.

(** C10. The selection that [addSelection] constructs for a user has the
    user's colour as its label, and the decoration rendered for it (here by
    [setSelectionPositions]) has that colour as its hover message. *)
Theorem selection_label_is_color (w : World) (u : IEditorUser) (m : ITextModel)
    (a b : IPosition) :
  remoteSelections w !! uid u = None →
  model w = Some m →
  let s := (addSelection u w).1 in
  let w1 := (addSelection u w).2 in
  let w2 := setSelectionPositions (uid u) a b w1 in
  (∃ x, selections w1 !! s = Some x ∧ rs_label x = color u)
  ∧ (∃ x d dec, selections w2 !! s = Some x ∧ rs_decorations x = [d]
       ∧ decorations w2 !! d = Some dec ∧ hoverMessage dec = Some (color u)).
Proof.
  intros Hnone Hm. unfold addSelection. rewrite Hnone. simpl. split.
  - eexists. split; [apply lookup_insert_eq | done].
  - unfold setSelectionPositions. simpl. rewrite lookup_insert_eq.
    unfold RemoteSelection_setPositions, render, updSelection. simpl.
    rewrite lookup_alter_eq, lookup_insert_eq. simpl.
    erewrite deltaDecorations_single by (simpl; exact Hm). simpl.
    eexists _, _, _. split; [|split; [|split]].
    + rewrite lookup_alter_eq, lookup_alter_eq, lookup_insert_eq. reflexivity.
    + reflexivity.
    + apply lookup_insert_eq.
    + reflexivity.
Qed.

(** ** Well-formed stores are preserved *)

Lemma sameObjects_refl (w : World) : sameObjects w w.
Proof. by repeat split. Qed.

Lemma sameObjects_trans (w1 w2 w3 : World) :
  sameObjects w1 w2 → sameObjects w2 w3 → sameObjects w1 w3.
Proof.
  intros (?&?&?&?&?) (?&?&?&?&?). repeat split; congruence.
Qed.

Lemma sameObjects_deltaDecorations (old : list nat) (new : list IModelDecoration) (w : World) :
  sameObjects w (deltaDecorations old new w).2.
Proof.
  unfold deltaDecorations. destruct (model w); [|apply sameObjects_refl].
  destruct (freshDecorations _ _ _). by repeat split.
Qed.

Lemma sameObjects_sendMessage (m : IMessageData) (w : World) :
  sameObjects w (sendMessage m w).
Proof. unfold sendMessage. destruct (channel w); by repeat split. Qed.

Lemma sameObjects_sendCodeSnippet (e : IModelContentChangedEvent) (w : World) :
  sameObjects w (sendCodeSnippet e w).
Proof.
  unfold sendCodeSnippet. destruct (model w); [|apply sameObjects_refl].
  destruct (_ <? _); [apply sameObjects_refl | apply sameObjects_sendMessage].
Qed.

Lemma sameObjects_cursorStateChanged (s : ISelection) (w : World) :
  sameObjects w (cursorStateChanged s w).
Proof.
  unfold cursorStateChanged, editorCursorSelectionChangedListener,
    editorCursorPositionChangeListener.
  eapply sameObjects_trans; [|apply sameObjects_sendMessage].
  eapply sameObjects_trans; [|apply sameObjects_sendMessage].
  by repeat split.
Qed.

Lemma sameObjects_executeEdits (src : string) (r : IRange) (t : string) (w : World) :
  sameObjects w (executeEdits src r t w).
Proof.
  unfold executeEdits. destruct (model w); [|apply sameObjects_refl].
  destruct (editChanges _ _ _); [|by repeat split].
  set (w1 := set_model _ _).
  assert (H1 : sameObjects w w1) by (by repeat split).
  assert (H2 : sameObjects w (if contentListener w1 then sendCodeSnippet
                 (mkChanged [changeOf (getValue i) r t]
                    (getVersionId (mkModel (applyEdit (getValue i) r t)
                                     (getVersionId i + 1)))) w1 else w1)).
  { destruct (contentListener w1); [|done].
    eapply sameObjects_trans; [exact H1 | apply sameObjects_sendCodeSnippet]. }
  destruct (cursorAfterEdit _ _ _ _); [|exact H2].
  eapply sameObjects_trans; [exact H2 | apply sameObjects_cursorStateChanged].
Qed.

Ltac benign :=
  let x := fresh "x" in
  intros x; try destruct (cw_tooltipNode x); by repeat split.

(** Chains the three closure properties of a stable predicate along the
    definition of an operation. *)
Ltac stable_step HP :=
  match goal with
  | |- _ => assumption
  | H : sameObjects ?w0 ?w1 |- _ ?w1 => apply (stable_sameObjects _ HP w0 w1 H)
  | |- _ (updCursor _ _ _) => apply (stable_updCursor _ HP); [benign|]
  | |- _ (updSelection _ _ _) => apply (stable_updSelection _ HP); [benign|]
  | |- _ (set_model _ ?w) => apply (stable_sameObjects _ HP w); [by repeat split|]
  | |- _ (set_contentWidgets _ ?w) => apply (stable_sameObjects _ HP w); [by repeat split|]
  | |- _ (set_decorations _ _ ?w) => apply (stable_sameObjects _ HP w); [by repeat split|]
  | |- _ (set_editLog _ ?w) => apply (stable_sameObjects _ HP w); [by repeat split|]
  | |- _ (set_contentListener _ ?w) => apply (stable_sameObjects _ HP w); [by repeat split|]
  | |- _ (set_timers _ _ ?w) => apply (stable_sameObjects _ HP w); [by repeat split|]
  | |- _ (set_outbox _ ?w) => apply (stable_sameObjects _ HP w); [by repeat split|]
  | |- _ (set_layouts _ ?w) => apply (stable_sameObjects _ HP w); [by repeat split|]
  | |- _ (set_localCursor _ ?w) => apply (stable_sameObjects _ HP w); [by repeat split|]
  | |- _ (cursorStateChanged ?s ?w) =>
      apply (stable_sameObjects _ HP w); [apply sameObjects_cursorStateChanged|]
  | |- _ (sendMessage ?m ?w) =>
      apply (stable_sameObjects _ HP w); [apply sameObjects_sendMessage|]
  | |- _ (sendCodeSnippet ?e ?w) =>
      apply (stable_sameObjects _ HP w); [apply sameObjects_sendCodeSnippet|]
  | |- _ (executeEdits ?s ?r ?t ?w) =>
      apply (stable_sameObjects _ HP w); [apply sameObjects_executeEdits|]
  | |- context [deltaDecorations ?o ?n ?w] =>
      let H := fresh "Hdd" in
      pose proof (sameObjects_deltaDecorations o n w) as H;
      destruct (deltaDecorations o n w); simpl in H
  | |- context [match ?x with _ => _ end] => destruct x eqn:?
  end.

Ltac stable_solve HP := simpl; repeat (stable_step HP; simpl).

Section StableOperations.

Variable P : World → Prop.
Hypothesis HP : Stable P.

Lemma stable_updatePosition (c : nat) (p : IPosition) (w : World) :
  P w → P (updatePosition c p w).
Proof. intros. unfold updatePosition. stable_solve HP. Qed.

Lemma stable_setTooltipVisible (c : nat) (b : bool) (w : World) :
  P w → P (setTooltipVisible c b w).
Proof. intros. unfold setTooltipVisible. stable_solve HP. Qed.

Lemma stable_clearTimeout (t : nat) (w : World) : P w → P (clearTimeout t w).
Proof. intros. unfold clearTimeout. stable_solve HP. Qed.

Lemma stable_showTooltip (c : nat) (w : World) : P w → P (showTooltip c w).
Proof.
  intros. unfold showTooltip, updateTooltipPosition, setTimeout.
  destruct (cursors w !! c) as [x|]; [|done].
  destruct (cw_hideTimer x); simpl; stable_solve HP.
  - by apply stable_clearTimeout.
  - by apply stable_setTooltipVisible.
Qed.

Lemma stable_hideTooltipTask (c : nat) (w : World) : P w → P (hideTooltipTask c w).
Proof.
  intros. unfold hideTooltipTask. stable_solve HP. by apply stable_setTooltipVisible.
Qed.

Lemma stable_cursor_setPosition (c : nat) (p : IPosition) (w : World) :
  P w → P (RemoteCursorWidget_setPosition c p w).
Proof.
  intros. unfold RemoteCursorWidget_setPosition, setTimeout.
  destruct (cursors _ !! c) as [x|]; [|by apply stable_updatePosition].
  destruct (cw_tooltipNode x); stable_solve HP; by apply stable_updatePosition.
Qed.

Lemma stable_cursor_setOffset (c : nat) (o : Z) (w : World) :
  P w → P (RemoteCursorWidget_setOffset c o w).
Proof.
  intros. unfold RemoteCursorWidget_setOffset.
  destruct (model w); [by apply stable_cursor_setPosition | done].
Qed.

Lemma stable_setPositionWithModelContentChange (c : nat) (ch : IModelContentChange)
    (w : World) :
  P w → P (setPositionWithModelContentChange c ch w).
Proof.
  intros. unfold setPositionWithModelContentChange.
  destruct (model w); [by apply stable_updatePosition | done].
Qed.

Lemma stable_cursor_show (c : nat) (w : World) : P w → P (RemoteCursorWidget_show c w).
Proof. intros. unfold RemoteCursorWidget_show. stable_solve HP. Qed.

Lemma stable_cursor_hide (c : nat) (w : World) : P w → P (RemoteCursorWidget_hide c w).
Proof. intros. unfold RemoteCursorWidget_hide. stable_solve HP. Qed.

Lemma stable_render (s : nat) (w : World) : P w → P (render s w).
Proof. intros. unfold render. stable_solve HP. Qed.

Lemma stable_selection_setPositions (s : nat) (a b : IPosition) (w : World) :
  P w → P (RemoteSelection_setPositions s a b w).
Proof.
  intros. unfold RemoteSelection_setPositions. apply stable_render. stable_solve HP.
Qed.

Lemma stable_selection_setOffsets (s : nat) (a b : Z) (w : World) :
  P w → P (RemoteSelection_setOffsets s a b w).
Proof.
  intros. unfold RemoteSelection_setOffsets.
  destruct (model w); [by apply stable_selection_setPositions | done].
Qed.

Lemma stable_selection_hide (s : nat) (w : World) : P w → P (RemoteSelection_hide s w).
Proof. intros. unfold RemoteSelection_hide. stable_solve HP. Qed.

Lemma stable_setCursorPosition (id : string) (p : IPosition) (w : World) :
  P w → P (setCursorPosition id p w).
Proof.
  intros. unfold setCursorPosition.
  destruct (cursorWidgets w !! id); [by apply stable_cursor_setPosition | done].
Qed.

Lemma stable_setCursorOffset (id : string) (o : Z) (w : World) :
  P w → P (setCursorOffset id o w).
Proof.
  intros. unfold setCursorOffset.
  destruct (cursorWidgets w !! id); [by apply stable_cursor_setOffset | done].
Qed.

Lemma stable_setSelectionOffsets (id : string) (a b : Z) (w : World) :
  P w → P (setSelectionOffsets id a b w).
Proof.
  intros. unfold setSelectionOffsets.
  destruct (remoteSelections w !! id); [by apply stable_selection_setOffsets | done].
Qed.

Lemma stable_fireTimer (t : nat) (w : World) : P w → P (fireTimer t w).
Proof.
  intros HI. unfold fireTimer.
  destruct (list_find _ _) as [[? [? [? task]]]|]; [|done].
  destruct task; simpl.
  - apply stable_showTooltip. by apply stable_clearTimeout.
  - apply stable_hideTooltipTask. by apply stable_clearTimeout.
Qed.

End StableOperations.

Lemma Stable_Inv : Stable Inv.
Proof.
  split.
  - intros w w' (Hc & Hs & Hn & Hcw & Hrs) [I1 I2 I3 I4].
    split; rewrite ?Hc, ?Hs, ?Hn, ?Hcw, ?Hrs; assumption.
  - intros c f w Hf [I1 I2 I3 I4]. split; simpl; try assumption.
    + intros id c' Hreg. destruct (I1 _ _ Hreg) as (x & Hx & Hcb).
      destruct (decide (c = c')) as [->|Hne].
      * exists (f x). rewrite lookup_alter_eq, Hx. split; [done|].
        by rewrite (proj1 (Hf x)).
      * exists x. by rewrite lookup_alter_ne.
    + intros c' x'. destruct (decide (c = c')) as [->|Hne].
      * rewrite lookup_alter_eq. destruct (cursors w !! c') as [x|] eqn:Hx; [|done].
        intros [= <-]. destruct (Hf x) as (-> & -> & ->). by apply I3.
      * rewrite lookup_alter_ne by done. apply I3.
  - intros s f w Hf [I1 I2 I3 I4]. split; simpl; try assumption.
    + intros id s' Hreg. destruct (I2 _ _ Hreg) as (x & Hx & Hcb).
      destruct (decide (s = s')) as [->|Hne].
      * exists (f x). rewrite lookup_alter_eq, Hx. split; [done|].
        by rewrite (proj1 (Hf x)).
      * exists x. by rewrite lookup_alter_ne.
    + intros s' x'. destruct (decide (s = s')) as [->|Hne].
      * rewrite lookup_alter_eq. destruct (selections w !! s') as [x|] eqn:Hx; [|done].
        intros [= <-]. destruct (Hf x) as (-> & -> & ->). by apply I4.
      * rewrite lookup_alter_ne by done. apply I4.
Qed.

Ltac inv_solve := stable_solve Stable_Inv.

Lemma Inv_addCursor (u : IEditorUser) (w : World) : Inv w → Inv (addCursor u w).2.
Proof.
  intros HI. unfold addCursor.
  destruct (cursorWidgets w !! uid u) eqn:Hreg; [done|].
  destruct HI as [I1 I2 I3 I4]. simpl. split; simpl.
  - intros id c. destruct (decide (uid u = id)) as [<-|Hne].
    + rewrite lookup_insert_eq. intros [= <-].
      eexists. by rewrite lookup_insert_eq.
    + rewrite lookup_insert_ne by done. intros Hc.
      destruct (I1 _ _ Hc) as (x & Hx & Hcb). exists x. split; [|done].
      rewrite lookup_insert_ne; [done|].
      destruct (I3 _ _ Hx) as [Hlt _]. lia.
  - assumption.
  - intros c x. destruct (decide (nextRef w = c)) as [<-|Hne].
    + rewrite lookup_insert_eq. intros [= <-]. simpl. eauto.
    + rewrite lookup_insert_ne by done. intros Hx.
      destruct (I3 _ _ Hx) as (? & ? & ?). auto with lia.
  - intros s x Hx. destruct (I4 _ _ Hx) as (? & ? & ?). auto with lia.
Qed.

Lemma Inv_addSelection (u : IEditorUser) (w : World) : Inv w → Inv (addSelection u w).2.
Proof.
  intros HI. unfold addSelection.
  destruct (remoteSelections w !! uid u) eqn:Hreg; [done|].
  destruct HI as [I1 I2 I3 I4]. simpl. split; simpl.
  - assumption.
  - intros id s. destruct (decide (uid u = id)) as [<-|Hne].
    + rewrite lookup_insert_eq. intros [= <-].
      eexists. by rewrite lookup_insert_eq.
    + rewrite lookup_insert_ne by done. intros Hs.
      destruct (I2 _ _ Hs) as (x & Hx & Hcb). exists x. split; [|done].
      rewrite lookup_insert_ne; [done|].
      destruct (I4 _ _ Hx) as [Hlt _]. lia.
  - intros c x Hx. destruct (I3 _ _ Hx) as (? & ? & ?). auto with lia.
  - intros s x. destruct (decide (nextRef w = s)) as [<-|Hne].
    + rewrite lookup_insert_eq. intros [= <-]. simpl. eauto.
    + rewrite lookup_insert_ne by done. intros Hx.
      destruct (I4 _ _ Hx) as (? & ? & ?). auto with lia.
Qed.

Lemma Inv_delete_cursorWidgets (id : string) (w : World) :
  Inv w → Inv (set_cursorWidgets (delete id (cursorWidgets w)) w).
Proof.
  intros [I1 I2 I3 I4]. split; simpl; try assumption.
  intros id' c Hc. apply lookup_delete_Some in Hc as [_ Hc]. by apply I1.
Qed.

(** *** Disposal *)

(** The two writes of [dispose] that flag the widget and count the call
    of its callback. *)
Lemma Inv_cursor_flagged (c : nat) (x : RemoteCursorWidget) (w : World) :
  cursors w !! c = Some x → cw_disposed x = false → Inv w →
  Inv (updCursor c cw_count_onDisposed (updCursor c (cw_set_disposed true) w)).
Proof.
  intros Hx Hd [I1 I2 I3 I4]. split; simpl; try assumption.
  - intros id c' Hreg. destruct (I1 _ _ Hreg) as (x' & Hx' & Hcb).
    destruct (decide (c = c')) as [->|Hne].
    + rewrite !lookup_alter_eq, Hx'. simpl. eauto.
    + rewrite !lookup_alter_ne by done. eauto.
  - intros c' x'. destruct (decide (c = c')) as [->|Hne].
    + rewrite !lookup_alter_eq, Hx. simpl. intros [= <-]. simpl.
      destruct (I3 _ _ Hx) as (? & Hcalls & ?). rewrite Hd in Hcalls.
      rewrite Hcalls. auto.
    + rewrite !lookup_alter_ne by done. apply I3.
Qed.

Lemma Inv_selection_flagged (s : nat) (x : RemoteSelection) (w : World) :
  selections w !! s = Some x → rs_disposed x = false → Inv w →
  Inv (updSelection s rs_count_onDisposed (updSelection s (rs_set_disposed true) w)).
Proof.
  intros Hx Hd [I1 I2 I3 I4]. split; simpl; try assumption.
  - intros id s' Hreg. destruct (I2 _ _ Hreg) as (x' & Hx' & Hcb).
    destruct (decide (s = s')) as [->|Hne].
    + rewrite !lookup_alter_eq, Hx'. simpl. eauto.
    + rewrite !lookup_alter_ne by done. eauto.
  - intros s' x'. destruct (decide (s = s')) as [->|Hne].
    + rewrite !lookup_alter_eq, Hx. simpl. intros [= <-]. simpl.
      destruct (I4 _ _ Hx) as (? & Hcalls & ?). rewrite Hd in Hcalls.
      rewrite Hcalls. auto.
    + rewrite !lookup_alter_ne by done. apply I4.
Qed.

Lemma cursor_dispose_live (f : Callback → World → option World) (c : nat)
    (x : RemoteCursorWidget) (w : World) :
  cursors w !! c = Some x → cw_disposed x = false →
  RemoteCursorWidget_dispose f c w = f (cw_onDisposed x) (cursorReleased c x w).
Proof. intros Hx Hd. unfold RemoteCursorWidget_dispose. by rewrite Hx, Hd. Qed.

Lemma cursor_dispose_disposed (f : Callback → World → option World) (c : nat) (w : World) :
  RemoteCursorWidget_isDisposed c w = true → RemoteCursorWidget_dispose f c w = Some w.
Proof.
  unfold RemoteCursorWidget_isDisposed, RemoteCursorWidget_dispose.
  destruct (cursors w !! c); [|done]. by intros ->.
Qed.

Lemma selection_dispose_live (f : Callback → World → option World) (s : nat)
    (x : RemoteSelection) (w : World) :
  selections w !! s = Some x → rs_disposed x = false →
  RemoteSelection_dispose f s w = f (rs_onDisposed x) (selectionReleased s x w).
Proof. intros Hx Hd. unfold RemoteSelection_dispose. by rewrite Hx, Hd. Qed.

Lemma selection_dispose_disposed (f : Callback → World → option World) (s : nat) (w : World) :
  RemoteSelection_isDisposed s w = true → RemoteSelection_dispose f s w = Some w.
Proof.
  unfold RemoteSelection_isDisposed, RemoteSelection_dispose.
  destruct (selections w !! s); [|done]. by intros ->.
Qed.

Lemma cursorReleased_lookup (c : nat) (x : RemoteCursorWidget) (w : World) :
  cursors w !! c = Some x →
  ∃ x', cursors (cursorReleased c x w) !! c = Some x'
        ∧ cw_disposed x' = true
        ∧ cw_onDisposed x' = cw_onDisposed x
        ∧ cw_onDisposedCalls x' = S (cw_onDisposedCalls x).
Proof.
  intros Hx. unfold cursorReleased.
  destruct (cw_scrollListener x); simpl;
    rewrite ?lookup_alter_eq, Hx; simpl; eauto.
Qed.

Lemma cursorReleased_registries (c : nat) (x : RemoteCursorWidget) (w : World) :
  cursorWidgets (cursorReleased c x w) = cursorWidgets w
  ∧ remoteSelections (cursorReleased c x w) = remoteSelections w
  ∧ selections (cursorReleased c x w) = selections w
  ∧ timers (cursorReleased c x w) = timers w.
Proof. unfold cursorReleased. by destruct (cw_scrollListener x). Qed.

Lemma Inv_cursorReleased (c : nat) (x : RemoteCursorWidget) (w : World) :
  cursors w !! c = Some x → cw_disposed x = false → Inv w → Inv (cursorReleased c x w).
Proof.
  intros Hx Hd HI. unfold cursorReleased.
  destruct (cw_scrollListener x).
  - eapply Inv_cursor_flagged.
    + simpl. rewrite lookup_alter_eq, Hx. reflexivity.
    + done.
    + unfold removeContentWidget. inv_solve.
  - eapply Inv_cursor_flagged; [exact Hx | done |].
    unfold removeContentWidget. inv_solve.
Qed.

Lemma selection_hide_lookup (s s' : nat) (w : World) :
  selections (RemoteSelection_hide s w) !! s'
  = (if decide (s = s')
     then rs_set_decorations (deltaDecorations
            (default [] (rs_decorations <$> selections w !! s)) [] w).1
     else id) <$> selections w !! s'.
Proof.
  unfold RemoteSelection_hide.
  destruct (selections w !! s) as [x|] eqn:Hx; simpl.
  - pose proof (sameObjects_deltaDecorations (rs_decorations x) [] w) as (_ & Hs & _).
    destruct (deltaDecorations (rs_decorations x) [] w) as [ids w1]. simpl in *.
    case_decide as Heq.
    + subst s'. by rewrite lookup_alter_eq, Hs.
    + rewrite lookup_alter_ne, Hs by done. by destruct (selections w !! s').
  - case_decide as Heq.
    + subst s'. by rewrite Hx.
    + by destruct (selections w !! s').
Qed.

Lemma selectionReleased_lookup (s : nat) (x : RemoteSelection) (w : World) :
  selections w !! s = Some x →
  ∃ x', selections (selectionReleased s x w) !! s = Some x'
        ∧ rs_disposed x' = true
        ∧ rs_onDisposed x' = rs_onDisposed x
        ∧ rs_onDisposedCalls x' = S (rs_onDisposedCalls x).
Proof.
  intros Hx. unfold selectionReleased. simpl.
  rewrite !lookup_alter_eq, selection_hide_lookup.
  rewrite decide_True by done.
  destruct (rs_styleAttached x); simpl;
    rewrite ?lookup_alter_eq, Hx; simpl; eauto.
Qed.

Lemma Inv_selectionReleased (s : nat) (x : RemoteSelection) (w : World) :
  selections w !! s = Some x → rs_disposed x = false → Inv w → Inv (selectionReleased s x w).
Proof.
  intros Hx Hd HI. unfold selectionReleased.
  set (w1 := if rs_styleAttached x then _ else _).
  assert (HI1 : Inv w1) by (subst w1; destruct (rs_styleAttached x); inv_solve).
  assert (∃ x1, selections (RemoteSelection_hide s w1) !! s = Some x1
                ∧ rs_disposed x1 = false) as (x1 & Hx1 & Hd1).
  { rewrite selection_hide_lookup, decide_True by done.
    subst w1. destruct (rs_styleAttached x); simpl;
      rewrite ?lookup_alter_eq, Hx; simpl; eauto. }
  eapply Inv_selection_flagged; [exact Hx1 | exact Hd1 |].
  by apply (stable_selection_hide _ Stable_Inv).
Qed.

Lemma Inv_cursor_dispose (f : Callback → World → option World) (c : nat) (w w' : World) :
  (∀ cb w0 w1, f cb w0 = Some w1 → Inv w0 → Inv w1) →
  RemoteCursorWidget_dispose f c w = Some w' → Inv w → Inv w'.
Proof.
  intros Hf Hrun HI.
  destruct (RemoteCursorWidget_isDisposed c w) eqn:Hd.
  - rewrite cursor_dispose_disposed in Hrun by done. by injection Hrun as <-.
  - unfold RemoteCursorWidget_isDisposed in Hd.
    destruct (cursors w !! c) as [x|] eqn:Hx; [|done].
    rewrite (cursor_dispose_live f c x) in Hrun by done.
    eapply Hf; [exact Hrun|]. by apply Inv_cursorReleased.
Qed.

Lemma Inv_selection_dispose (f : Callback → World → option World) (s : nat) (w w' : World) :
  (∀ cb w0 w1, f cb w0 = Some w1 → Inv w0 → Inv w1) →
  RemoteSelection_dispose f s w = Some w' → Inv w → Inv w'.
Proof.
  intros Hf Hrun HI.
  destruct (RemoteSelection_isDisposed s w) eqn:Hd.
  - rewrite selection_dispose_disposed in Hrun by done. by injection Hrun as <-.
  - unfold RemoteSelection_isDisposed in Hd.
    destruct (selections w !! s) as [x|] eqn:Hx; [|done].
    rewrite (selection_dispose_live f s x) in Hrun by done.
    eapply Hf; [exact Hrun|]. by apply Inv_selectionReleased.
Qed.

Lemma Inv_removeCursor_body (f : Callback → World → option World) (id : string) (w w' : World) :
  (∀ cb w0 w1, f cb w0 = Some w1 → Inv w0 → Inv w1) →
  removeCursor_body f id w = Some w' → Inv w → Inv w'.
Proof.
  intros Hf Hrun HI. unfold removeCursor_body in Hrun.
  destruct (cursorWidgets w !! id) as [c|]; simpl in Hrun.
  - destruct (negb (RemoteCursorWidget_isDisposed c w)).
    + destruct (RemoteCursorWidget_dispose f c w) as [w1|] eqn:Hd; [|done].
      simpl in Hrun. injection Hrun as <-.
      apply Inv_delete_cursorWidgets. by eapply Inv_cursor_dispose.
    + simpl in Hrun. injection Hrun as <-. by apply Inv_delete_cursorWidgets.
  - injection Hrun as <-. by apply Inv_delete_cursorWidgets.
Qed.

Lemma Inv_removeSelection_body (f : Callback → World → option World) (id : string) (w w' : World) :
  (∀ cb w0 w1, f cb w0 = Some w1 → Inv w0 → Inv w1) →
  removeSelection_body f id w = Some w' → Inv w → Inv w'.
Proof.
  intros Hf Hrun HI. unfold removeSelection_body in Hrun.
  destruct (remoteSelections w !! id) as [s|].
  - destruct (negb (RemoteSelection_isDisposed s w)).
    + by eapply Inv_selection_dispose.
    + by injection Hrun as <-.
  - by injection Hrun as <-.
Qed.

Lemma Inv_runCallback (fuel : nat) (cb : Callback) (w w' : World) :
  runCallback fuel cb w = Some w' → Inv w → Inv w'.
Proof.
  revert cb w w'. induction fuel as [|n IH]; intros cb w w' Hrun HI; [done|].
  destruct cb as [id|id]; simpl in Hrun.
  - by eapply Inv_removeCursor_body.
  - by eapply Inv_removeSelection_body.
Qed.

(** *** The nesting of callbacks is bounded *)

Lemma removeCursor_body_settled (f : Callback → World → option World) (id : string)
    (c : nat) (w : World) :
  cursorWidgets w !! id = Some c → RemoteCursorWidget_isDisposed c w = true →
  removeCursor_body f id w = Some (set_cursorWidgets (delete id (cursorWidgets w)) w).
Proof. intros Hc Hd. unfold removeCursor_body. by rewrite Hc, Hd. Qed.

Lemma removeCursor_total (n : nat) (id : string) (w : World) :
  Inv w → is_Some (removeCursor (S n) id w).
Proof.
  intros HI. unfold removeCursor, removeCursor_body.
  destruct (cursorWidgets w !! id) as [c|] eqn:Hc; [|by eexists].
  destruct (inv_cursorWidgets w HI _ _ Hc) as (x & Hx & Hcb).
  destruct (RemoteCursorWidget_isDisposed c w) eqn:Hd; simpl; [by eexists|].
  unfold RemoteCursorWidget_isDisposed in Hd. rewrite Hx in Hd.
  rewrite (cursor_dispose_live _ c x) by done. rewrite Hcb. simpl.
  destruct (cursorReleased_lookup c x w Hx) as (x' & Hx' & Hd' & _).
  destruct (cursorReleased_registries c x w) as (Hreg & _).
  erewrite removeCursor_body_settled.
  - by eexists.
  - rewrite Hreg. exact Hc.
  - unfold RemoteCursorWidget_isDisposed. by rewrite Hx'.
Qed.

Lemma removeSelection_body_settled (f : Callback → World → option World) (id : string)
    (s : nat) (w : World) :
  remoteSelections w !! id = Some s → RemoteSelection_isDisposed s w = true →
  removeSelection_body f id w = Some w.
Proof. intros Hs Hd. unfold removeSelection_body. by rewrite Hs, Hd. Qed.

Lemma selectionReleased_registries (s : nat) (x : RemoteSelection) (w : World) :
  cursorWidgets (selectionReleased s x w) = cursorWidgets w
  ∧ remoteSelections (selectionReleased s x w) = remoteSelections w
  ∧ cursors (selectionReleased s x w) = cursors w.
Proof.
  unfold selectionReleased. simpl.
  set (w1 := if rs_styleAttached x then _ else _).
  assert (Hh : ∀ w0, cursorWidgets (RemoteSelection_hide s w0) = cursorWidgets w0
                ∧ remoteSelections (RemoteSelection_hide s w0) = remoteSelections w0
                ∧ cursors (RemoteSelection_hide s w0) = cursors w0).
  { intros w0. unfold RemoteSelection_hide. destruct (selections w0 !! s) as [y|]; [|done].
    pose proof (sameObjects_deltaDecorations (rs_decorations y) [] w0) as (?&?&?&?&?).
    by destruct (deltaDecorations _ _ _). }
  destruct (Hh w1) as (-> & -> & ->). subst w1. by destruct (rs_styleAttached x).
Qed.

Lemma removeSelection_total (n : nat) (id : string) (w : World) :
  Inv w → is_Some (removeSelection (S n) id w).
Proof.
  intros HI. unfold removeSelection, removeSelection_body.
  destruct (remoteSelections w !! id) as [s|] eqn:Hs; [|by eexists].
  destruct (inv_remoteSelections w HI _ _ Hs) as (x & Hx & Hcb).
  destruct (RemoteSelection_isDisposed s w) eqn:Hd; simpl; [by eexists|].
  unfold RemoteSelection_isDisposed in Hd. rewrite Hx in Hd.
  rewrite (selection_dispose_live _ s x) by done. rewrite Hcb. simpl.
  destruct (selectionReleased_lookup s x w Hx) as (x' & Hx' & Hd' & _).
  destruct (selectionReleased_registries s x w) as (_ & Hreg & _).
  erewrite removeSelection_body_settled.
  - by eexists.
  - rewrite Hreg. exact Hs.
  - unfold RemoteSelection_isDisposed. by rewrite Hx'.
Qed.

Lemma runCallback_total (n : nat) (cb : Callback) (w : World) :
  Inv w → is_Some (runCallback (S (S n)) cb w).
Proof.
  intros HI. destruct cb as [id|id].
  - by apply (removeCursor_total n).
  - by apply (removeSelection_total n).
Qed.

Lemma cursorDispose_total (n : nat) (c : nat) (w : World) :
  Inv w → is_Some (cursorDispose (S (S n)) c w).
Proof.
  intros HI. unfold cursorDispose.
  destruct (RemoteCursorWidget_isDisposed c w) eqn:Hd.
  - rewrite cursor_dispose_disposed by done. by eexists.
  - unfold RemoteCursorWidget_isDisposed in Hd.
    destruct (cursors w !! c) as [x|] eqn:Hx; [|done].
    rewrite (cursor_dispose_live _ c x) by done.
    apply runCallback_total. by apply Inv_cursorReleased.
Qed.

Lemma selectionDispose_total (n : nat) (s : nat) (w : World) :
  Inv w → is_Some (selectionDispose (S (S n)) s w).
Proof.
  intros HI. unfold selectionDispose.
  destruct (RemoteSelection_isDisposed s w) eqn:Hd.
  - rewrite selection_dispose_disposed by done. by eexists.
  - unfold RemoteSelection_isDisposed in Hd.
    destruct (selections w !! s) as [x|] eqn:Hx; [|done].
    rewrite (selection_dispose_live _ s x) by done.
    apply runCallback_total. by apply Inv_selectionReleased.
Qed.

(** *** The controller and the traces *)

Lemma Inv_ifManager (f : World → World) (w : World) :
  (∀ w0, Inv w0 → Inv (f w0)) → Inv w → Inv (ifManager f w).
Proof. intros Hf HI. unfold ifManager. destruct (channel w); auto. Qed.

Lemma Inv_applyChange (id : string) (w : World) (ch : IModelContentChange) :
  Inv w → Inv (applyChange id w ch).
Proof.
  intros HI. unfold applyChange.
  assert (Inv (executeEdits id (toRange (range ch)) (text ch) w)) by inv_solve.
  destruct (model _); [|done].
  apply Inv_ifManager; [|done]. intros. by apply (stable_setCursorPosition _ Stable_Inv).
Qed.

Lemma Inv_updateContent (id : string) (e : IModelContentChangedEvent) (w : World) :
  Inv w → Inv (updateContent id e w).
Proof.
  intros HI. unfold updateContent. destruct (model w); [|done].
  destruct (_ <=? _); [done|].
  revert w HI. induction (changes e) as [|ch l IH]; intros w HI; simpl; [done|].
  apply IH. by apply Inv_applyChange.
Qed.

Lemma Inv_onMemberJoined (id : string) (w : World) : Inv w → Inv (onMemberJoined id w).
Proof.
  intros HI. unfold onMemberJoined.
  apply Inv_ifManager; [intros; by apply Inv_addSelection|].
  apply Inv_ifManager; [intros; by apply Inv_addCursor|done].
Qed.

Lemma Inv_receiver (msg : IMessage) (w : World) : Inv w → Inv (receiver msg w).
Proof.
  intros HI. unfold receiver. destruct (message_uid msg) as [id|]; [|done].
  pose proof (Inv_onMemberJoined id w HI) as HJ. unfold onMemberJoined in HJ.
  destruct (message msg); [| | |done].
  - unfold updateCursorPosition. destruct (model _); [|done].
    apply Inv_ifManager; [|done]. intros. by apply (stable_setCursorOffset _ Stable_Inv).
  - unfold updateSelection. destruct (model _); [|done].
    apply Inv_ifManager; [|done]. intros. by apply (stable_setSelectionOffsets _ Stable_Inv).
  - by apply Inv_updateContent.
Qed.

Lemma Inv_onMemberLeft (fuel : nat) (id : string) (w w' : World) :
  onMemberLeft fuel id w = Some w' → Inv w → Inv w'.
Proof.
  unfold onMemberLeft. intros Hrun HI.
  destruct (if channel w then removeCursor fuel id w else Some w) as [w1|] eqn:H1;
    [|done].
  simpl in Hrun.
  assert (Inv w1).
  { destruct (channel w); [|by injection H1 as <-].
    eapply Inv_removeCursor_body; [|exact H1|done].
    intros ???. apply Inv_runCallback. }
  destruct (channel w1); [|by injection Hrun as <-].
  eapply Inv_removeSelection_body; [|exact Hrun|done].
  intros ???. apply Inv_runCallback.
Qed.

Lemma Inv_step (fuel : nat) (op : Op) (w w' : World) :
  step fuel op w = Some w' → Inv w → Inv w'.
Proof.
  intros Hstep HI.
  destruct op; simpl in Hstep;
    try (injection Hstep as <-);
    try (destruct (channel w) eqn:Hch; [|try injection Hstep as <-; done]).
  - by apply Inv_receiver.
  - by apply Inv_onMemberJoined.
  - by eapply Inv_onMemberLeft.
  - unfold editorCursorPositionChangeListener. inv_solve.
  - unfold editorCursorSelectionChangedListener. inv_solve.
  - destruct (contentListener w); inv_solve.
  - inv_solve.
  - destruct (decide _); inv_solve.
  - by apply (stable_fireTimer _ Stable_Inv).
  - unfold EditorContentManager_dispose. inv_solve.
  - by apply Inv_addCursor.
  - eapply Inv_removeCursor_body; [|exact Hstep|done]. intros ???. apply Inv_runCallback.
  - by apply (stable_setCursorPosition _ Stable_Inv).
  - by apply (stable_setCursorOffset _ Stable_Inv).
  - unfold showCursor, RemoteCursorWidget_show. inv_solve.
  - unfold hideCursor, RemoteCursorWidget_hide. inv_solve.
  - by apply Inv_addSelection.
  - eapply Inv_removeSelection_body; [|exact Hstep|done]. intros ???. apply Inv_runCallback.
  - by apply (stable_setSelectionOffsets _ Stable_Inv).
  - unfold setSelectionPositions. destruct (remoteSelections w !! id); [|done].
    by apply (stable_selection_setPositions _ Stable_Inv).
  - unfold showSelection, RemoteSelection_show. destruct (remoteSelections w !! id); [|done].
    by apply (stable_render _ Stable_Inv).
  - unfold hideSelection. destruct (remoteSelections w !! id); [|done].
    by apply (stable_selection_hide _ Stable_Inv).
  - by apply (stable_cursor_setPosition _ Stable_Inv).
  - by apply (stable_cursor_setOffset _ Stable_Inv).
  - by apply (stable_setPositionWithModelContentChange _ Stable_Inv).
  - unfold RemoteCursorWidget_show. inv_solve.
  - unfold RemoteCursorWidget_hide. inv_solve.
  - eapply Inv_cursor_dispose; [|exact Hstep|done]. intros ???. apply Inv_runCallback.
  - by apply (stable_selection_setPositions _ Stable_Inv).
  - by apply (stable_selection_setOffsets _ Stable_Inv).
  - by apply (stable_render _ Stable_Inv).
  - by apply (stable_selection_hide _ Stable_Inv).
  - eapply Inv_selection_dispose; [|exact Hstep|done]. intros ???. apply Inv_runCallback.
Qed.

Lemma Inv_run (fuel : nat) (ops : list Op) (w w' : World) :
  run fuel ops w = Some w' → Inv w → Inv w'.
Proof.
  revert w. induction ops as [|op ops IH]; intros w Hrun HI; simpl in Hrun.
  - by injection Hrun as <-.
  - destruct (step fuel op w) as [w1|] eqn:Hstep; [|done].
    simpl in Hrun. eapply IH; [exact Hrun|]. by eapply Inv_step.
Qed.

Lemma Inv_newWorld (m : option ITextModel) (tt : bool) (d : Z) (ch : bool) :
  Inv (newWorld m tt d ch).
Proof. split; simpl; intros ??; by rewrite lookup_empty. Qed.

Lemma step_total (n : nat) (op : Op) (w : World) :
  Inv w → is_Some (step (S (S n)) op w).
Proof.
  intros HI. destruct op; simpl; try by eexists.
  - destruct (channel w) eqn:Hch; [|by eexists].
    unfold onMemberLeft. rewrite Hch.
    destruct (removeCursor_total (S n) memberId w HI) as [w1 H1].
    rewrite H1. simpl.
    destruct (channel w1); [|by eexists].
    apply removeSelection_total.
    eapply Inv_removeCursor_body; [|exact H1|done]. intros ???. apply Inv_runCallback.
  - by apply removeCursor_total.
  - by apply removeSelection_total.
  - by apply cursorDispose_total.
  - by apply selectionDispose_total.
Qed.

Lemma run_total (n : nat) (ops : list Op) (w : World) :
  Inv w → is_Some (run (S (S n)) ops w).
Proof.
  revert w. induction ops as [|op ops IH]; intros w HI; simpl; [by eexists|].
  destruct (step_total n op w HI) as [w1 H1]. rewrite H1. simpl.
  apply IH. by eapply Inv_step.
Qed.

(** ** Disposal happens once *)

Lemma staysDisposed_refl (w : World) : staysDisposed w w.
Proof. by split. Qed.

Lemma staysDisposed_trans (w1 w2 w3 : World) :
  staysDisposed w1 w2 → staysDisposed w2 w3 → staysDisposed w1 w3.
Proof. intros [A1 B1] [A2 B2]. split; auto. Qed.

Lemma staysDisposed_cursorReleased (c : nat) (x : RemoteCursorWidget) (w : World) :
  cursors w !! c = Some x → staysDisposed w (cursorReleased c x w).
Proof.
  intros Hx. split.
  - intros c0. unfold RemoteCursorWidget_isDisposed.
    destruct (decide (c = c0)) as [<-|Hne].
    + destruct (cursorReleased_lookup c x w Hx) as (x' & -> & -> & _). done.
    + unfold cursorReleased. destruct (cw_scrollListener x); simpl;
        by rewrite !lookup_alter_ne.
  - intros s. unfold RemoteSelection_isDisposed.
    by destruct (cursorReleased_registries c x w) as (_ & _ & -> & _).
Qed.

Lemma staysDisposed_selectionReleased (s : nat) (x : RemoteSelection) (w : World) :
  selections w !! s = Some x → staysDisposed w (selectionReleased s x w).
Proof.
  intros Hx. split.
  - intros c. unfold RemoteCursorWidget_isDisposed.
    by destruct (selectionReleased_registries s x w) as (_ & _ & ->).
  - intros s0. unfold RemoteSelection_isDisposed.
    destruct (decide (s = s0)) as [<-|Hne].
    + destruct (selectionReleased_lookup s x w Hx) as (x' & -> & -> & _). done.
    + unfold selectionReleased. simpl.
      rewrite !lookup_alter_ne, selection_hide_lookup, decide_False by done.
      destruct (rs_styleAttached x); simpl; rewrite ?lookup_alter_ne by done;
        by destruct (selections w !! s0).
Qed.

Lemma staysDisposed_cursor_dispose (f : Callback → World → option World) (c : nat)
    (w w' : World) :
  (∀ cb w0 w1, f cb w0 = Some w1 → staysDisposed w0 w1) →
  RemoteCursorWidget_dispose f c w = Some w' →
  staysDisposed w w' ∧ RemoteCursorWidget_isDisposed c w' = true.
Proof.
  intros Hf Hrun.
  destruct (RemoteCursorWidget_isDisposed c w) eqn:Hd.
  - rewrite cursor_dispose_disposed in Hrun by done. injection Hrun as <-.
    split; [apply staysDisposed_refl | done].
  - unfold RemoteCursorWidget_isDisposed in Hd.
    destruct (cursors w !! c) as [x|] eqn:Hx; [|done].
    rewrite (cursor_dispose_live f c x) in Hrun by done.
    pose proof (Hf _ _ _ Hrun) as Hmono.
    pose proof (staysDisposed_cursorReleased c x w Hx) as Hrel.
    split; [by eapply staysDisposed_trans|].
    apply Hmono. unfold RemoteCursorWidget_isDisposed.
    by destruct (cursorReleased_lookup c x w Hx) as (x' & -> & -> & _).
Qed.

Lemma staysDisposed_selection_dispose (f : Callback → World → option World) (s : nat)
    (w w' : World) :
  (∀ cb w0 w1, f cb w0 = Some w1 → staysDisposed w0 w1) →
  RemoteSelection_dispose f s w = Some w' →
  staysDisposed w w' ∧ RemoteSelection_isDisposed s w' = true.
Proof.
  intros Hf Hrun.
  destruct (RemoteSelection_isDisposed s w) eqn:Hd.
  - rewrite selection_dispose_disposed in Hrun by done. injection Hrun as <-.
    split; [apply staysDisposed_refl | done].
  - unfold RemoteSelection_isDisposed in Hd.
    destruct (selections w !! s) as [x|] eqn:Hx; [|done].
    rewrite (selection_dispose_live f s x) in Hrun by done.
    pose proof (Hf _ _ _ Hrun) as Hmono.
    pose proof (staysDisposed_selectionReleased s x w Hx) as Hrel.
    split; [by eapply staysDisposed_trans|].
    apply Hmono. unfold RemoteSelection_isDisposed.
    by destruct (selectionReleased_lookup s x w Hx) as (x' & -> & -> & _).
Qed.

Lemma staysDisposed_runCallback (fuel : nat) (cb : Callback) (w w' : World) :
  runCallback fuel cb w = Some w' → staysDisposed w w'.
Proof.
  revert cb w w'. induction fuel as [|n IH]; intros cb w w' Hrun; [done|].
  destruct cb as [id|id]; simpl in Hrun.
  - unfold removeCursor_body in Hrun.
    destruct (cursorWidgets w !! id) as [c|]; simpl in Hrun.
    + destruct (negb (RemoteCursorWidget_isDisposed c w)).
      * destruct (RemoteCursorWidget_dispose (runCallback n) c w) as [w1|] eqn:Hd; [|done].
        simpl in Hrun. injection Hrun as <-.
        by destruct (staysDisposed_cursor_dispose _ _ _ _ IH Hd).
      * simpl in Hrun. by injection Hrun as <-.
    + by injection Hrun as <-.
  - unfold removeSelection_body in Hrun.
    destruct (remoteSelections w !! id) as [s|].
    + destruct (negb (RemoteSelection_isDisposed s w)).
      * by destruct (staysDisposed_selection_dispose _ _ _ _ IH Hrun).
      * injection Hrun as <-. apply staysDisposed_refl.
    + injection Hrun as <-. apply staysDisposed_refl.
Qed.

Lemma cursorDispose_twice (f1 f2 : nat) (c : nat) (w w1 : World) :
  cursorDispose f1 c w = Some w1 → cursorDispose f2 c w1 = Some w1.
Proof.
  intros Hd. unfold cursorDispose in *. apply cursor_dispose_disposed.
  eapply staysDisposed_cursor_dispose; [|exact Hd].
  intros ???. apply staysDisposed_runCallback.
Qed.

Lemma selectionDispose_twice (f1 f2 : nat) (s : nat) (w w1 : World) :
  selectionDispose f1 s w = Some w1 → selectionDispose f2 s w1 = Some w1.
Proof.
  intros Hd. unfold selectionDispose in *. apply selection_dispose_disposed.
  eapply staysDisposed_selection_dispose; [|exact Hd].
  intros ???. apply staysDisposed_runCallback.
Qed.

Lemma sameCalls_refl (w : World) : sameCalls w w.
Proof. by split. Qed.

Lemma Stable_sameCalls (w0 : World) : Stable (sameCalls w0).
Proof.
  split.
  - intros w w' (Hc & Hs & _) [A B]. unfold sameCalls, cursorCalls, selectionCalls in *.
    rewrite Hc, Hs. by split.
  - intros c f w Hf [A B]. split; [|exact B].
    intros c0. rewrite <- A. unfold cursorCalls, updCursor. simpl.
    destruct (decide (c = c0)) as [->|Hne].
    + rewrite lookup_alter_eq. destruct (cursors w !! c0) as [x|]; [|done].
      simpl. by destruct (Hf x) as (_ & _ & ->).
    + by rewrite lookup_alter_ne.
  - intros s f w Hf [A B]. split; [exact A|].
    intros s0. rewrite <- B. unfold selectionCalls, updSelection. simpl.
    destruct (decide (s = s0)) as [->|Hne].
    + rewrite lookup_alter_eq. destruct (selections w !! s0) as [x|]; [|done].
      simpl. by destruct (Hf x) as (_ & _ & ->).
    + by rewrite lookup_alter_ne.
Qed.

(** C7. In every store the program can reach, for the cursor widgets and
    for the selections alike: the disposal callback of an overlay has been
    called at most once; a second [dispose] returns and leaves the store as
    the first one left it; and the position, show and hide operations return
    a store in which no callback has been called once more. *)
Theorem overlay_disposed_once (fuel : nat) (ops : list Op) (m : option ITextModel)
    (tt : bool) (d : Z) (ch : bool) (w : World) :
  run fuel ops (newWorld m tt d ch) = Some w →
  (∀ c x, cursors w !! c = Some x → (cw_onDisposedCalls x ≤ 1)%nat)
  ∧ (∀ s x, selections w !! s = Some x → (rs_onDisposedCalls x ≤ 1)%nat)
  ∧ (∀ c f1 f2 w1, cursorDispose f1 c w = Some w1 → cursorDispose f2 c w1 = Some w1)
  ∧ (∀ s f1 f2 w1, selectionDispose f1 s w = Some w1 → selectionDispose f2 s w1 = Some w1)
  ∧ (∀ c p o chg,
       sameCalls w (RemoteCursorWidget_setPosition c p w)
       ∧ sameCalls w (RemoteCursorWidget_setOffset c o w)
       ∧ sameCalls w (setPositionWithModelContentChange c chg w)
       ∧ sameCalls w (RemoteCursorWidget_show c w)
       ∧ sameCalls w (RemoteCursorWidget_hide c w))
  ∧ (∀ s a b o1 o2,
       sameCalls w (RemoteSelection_setPositions s a b w)
       ∧ sameCalls w (RemoteSelection_setOffsets s o1 o2 w)
       ∧ sameCalls w (RemoteSelection_show s w)
       ∧ sameCalls w (RemoteSelection_hide s w)).
Proof.
  intros Hrun.
  assert (HI : Inv w) by (eapply Inv_run; [exact Hrun | apply Inv_newWorld]).
  pose proof (Stable_sameCalls w) as HS.
  pose proof (sameCalls_refl w) as Hr.
  split; [|split; [|split; [|split; [|split]]]].
  - intros c x Hx. destruct (inv_cursors w HI c x Hx) as (_ & -> & _).
    destruct (cw_disposed x); lia.
  - intros s x Hx. destruct (inv_selections w HI s x Hx) as (_ & -> & _).
    destruct (rs_disposed x); lia.
  - intros c f1 f2 w1. apply cursorDispose_twice.
  - intros s f1 f2 w1. apply selectionDispose_twice.
  - intros c p o chg. split_and!.
    + by apply stable_cursor_setPosition.
    + by apply stable_cursor_setOffset.
    + by apply stable_setPositionWithModelContentChange.
    + by apply stable_cursor_show.
    + by apply stable_cursor_hide.
  - intros s a b o1 o2. split_and!.
    + by apply stable_selection_setPositions.
    + by apply stable_selection_setOffsets.
    + by apply stable_render.
    + by apply stable_selection_hide.
Qed.

(** ** The receive path *)

(** What registering the overlays of a sender leaves alone. *)
Lemma onMemberJoined_frame (id : string) (w : World) :
  let w' := onMemberJoined id w in
  model w' = model w ∧ editLog w' = editLog w ∧ layouts w' = layouts w
  ∧ decorations w' = decorations w ∧ timers w' = timers w ∧ outbox w' = outbox w
  ∧ channel w' = channel w ∧ contentListener w' = contentListener w
  ∧ (∀ c x, cursors w !! c = Some x → (c < nextRef w)%nat → cursors w' !! c = Some x)
  ∧ (∀ s x, selections w !! s = Some x → (s < nextRef w)%nat →
            selections w' !! s = Some x).
Proof.
  unfold onMemberJoined, ifManager, addCursor, addSelection. simpl.
  destruct (channel w) eqn:Hch; [|by rewrite Hch].
  destruct (cursorWidgets w !! id); simpl; rewrite Hch;
    destruct (remoteSelections w !! id); simpl; split_and!; try done.
  - intros s x Hx Hlt. rewrite lookup_insert_ne by lia. done.
  - intros c x Hx Hlt. rewrite lookup_insert_ne by lia. done.
  - intros c x Hx Hlt. rewrite lookup_insert_ne by lia. done.
  - intros s x Hx Hlt. rewrite lookup_insert_ne by lia. done.
Qed.

Lemma receiver_joins (msg : IMessage) (id : string) (w : World) :
  message_uid msg = Some id →
  receiver msg w
  = match message msg with
    | CodeSnippet data => updateContent id data (onMemberJoined id w)
    | CursorPosition data => updateCursorPosition id data (onMemberJoined id w)
    | CursorSelection data => updateSelection id data (onMemberJoined id w)
    | OtherMessage _ => onMemberJoined id w
    end.
Proof. intros Hid. unfold receiver. by rewrite Hid. Qed.

(** C2. An inbound [CodeSnippet] message whose version is at most the
    version of the document does what the arrival of any message of that
    sender does, which is to register the sender's overlays if there are
    none, and nothing else: the document and its version, the edits
    executed, the widget layouts and the decorations asked of the editor,
    the timers and the existing overlays are as before. *)
Theorem stale_edit_discarded (w : World) (m : ITextModel) (sender : option string)
    (event : IModelContentChangedEvent) :
  model w = Some m →
  versionId event ≤ getVersionId m →
  let w' := receiver (mkMessage sender (CodeSnippet event)) w in
  w' = match sender with Some id => onMemberJoined id w | None => w end
  ∧ model w' = model w ∧ editLog w' = editLog w
  ∧ layouts w' = layouts w ∧ decorations w' = decorations w
  ∧ timers w' = timers w ∧ outbox w' = outbox w
  ∧ (∀ c x, cursors w !! c = Some x → (c < nextRef w)%nat → cursors w' !! c = Some x)
  ∧ (∀ s x, selections w !! s = Some x → (s < nextRef w)%nat →
            selections w' !! s = Some x).
Proof.
  intros Hm Hle w'. subst w'. destruct sender as [id|].
  - rewrite (receiver_joins _ id) by done. simpl.
    destruct (onMemberJoined_frame id w) as (Hm' & Hrest).
    unfold updateContent. rewrite Hm', Hm.
    apply Z.leb_le in Hle. rewrite Hle.
    split; [done|]. rewrite <- Hm, <- Hm'. split; [done|].
    destruct Hrest as (?&?&?&?&?&_&_&?&?). by split_and!.
  - unfold receiver. simpl. by split_and!.
Qed.

(** ** Applying a remote edit *)

Lemma cursorStateChanged_effect (s : ISelection) (w : World) :
  let w' := cursorStateChanged s w in
  model w' = model w ∧ editLog w' = editLog w
  ∧ outbox w' = outbox w ++ (if channel w then cursorMessages (Some s) else [])
  ∧ layouts w' = layouts w ∧ channel w' = channel w
  ∧ contentListener w' = contentListener w ∧ localCursor w' = s.
Proof.
  unfold cursorStateChanged, editorCursorSelectionChangedListener,
    editorCursorPositionChangeListener, sendMessage. simpl.
  destruct (channel w) eqn:Hch; simpl; rewrite ?Hch; simpl.
  - rewrite <- app_assoc. by split_and!.
  - rewrite app_nil_r. by split_and!.
Qed.

Lemma executeEdits_effect (src : string) (r : IRange) (t : string) (w : World)
    (m : ITextModel) :
  model w = Some m →
  let w' := executeEdits src r t w in
  let moved := cursorAfterEdit (localCursor w) (getValue m) r t in
  editLog w' = editLog w ++ [(src, r, t)]
  ∧ layouts w' = layouts w
  ∧ channel w' = channel w ∧ contentListener w' = contentListener w
  ∧ (if editChanges (getValue m) r t
     then model w' = Some (mkModel (applyEdit (getValue m) r t) (getVersionId m + 1))
          ∧ outbox w'
            = outbox w
              ++ (if channel w
                  then (if contentListener w
                        then [CodeSnippet (mkChanged [changeOf (getValue m) r t]
                                             (getVersionId m + 1))]
                        else [])
                       ++ cursorMessages moved
                  else [])
          ∧ localCursor w' = default (localCursor w) moved
     else model w' = Some m ∧ outbox w' = outbox w ∧ localCursor w' = localCursor w).
Proof.
  intros Hm. unfold executeEdits. rewrite Hm.
  destruct (editChanges (getValue m) r t); [|by split_and!].
  cbn zeta.
  set (w1 := set_model _ _).
  set (ev := mkChanged _ _).
  set (w2 := if contentListener w1 then sendCodeSnippet ev w1 else w1).
  assert (H2 : model w2 = model w1 ∧ editLog w2 = editLog w1
               ∧ outbox w2 = outbox w
                             ++ (if channel w && contentListener w
                                 then [CodeSnippet ev] else [])
               ∧ layouts w2 = layouts w ∧ channel w2 = channel w
               ∧ contentListener w2 = contentListener w
               ∧ localCursor w2 = localCursor w).
  { subst w2 w1 ev. simpl. destruct (contentListener w) eqn:Hl; simpl.
    - unfold sendCodeSnippet. simpl. rewrite Z.ltb_irrefl.
      unfold sendMessage. simpl. destruct (channel w) eqn:Hch; simpl.
      + by split_and!.
      + rewrite app_nil_r. by split_and!.
    - rewrite andb_false_r, app_nil_r. by split_and!. }
  destruct H2 as (Hm2 & Hlog2 & Hout2 & Hlay2 & Hch2 & Hl2 & Hcur2).
  destruct (cursorAfterEdit (localCursor w) (getValue m) r t) as [s|]; simpl.
  - destruct (cursorStateChanged_effect s w2) as (Em & Elog & Eout & Elay & Ech & El & Ecur).
    rewrite Em, Elog, Eout, Elay, Ech, El, Ecur, Hm2, Hlog2, Hout2, Hlay2, Hch2, Hl2.
    split_and!; try done.
    destruct (channel w), (contentListener w); simpl;
      rewrite ?app_nil_r, <- ?app_assoc; done.
  - rewrite Hm2, Hlog2, Hout2, Hlay2, Hch2, Hl2, Hcur2.
    split_and!; try done.
    destruct (channel w), (contentListener w); simpl; rewrite ?app_nil_r; done.
Qed.

Lemma setCursorPosition_effect (id : string) (p : IPosition) (w : World)
    (c : nat) (x : RemoteCursorWidget) :
  cursorWidgets w !! id = Some c → cursors w !! c = Some x →
  let w' := setCursorPosition id p w in
  cursors w' !! c = Some (cw_set_position (Some p) x)
  ∧ layouts w' = layouts w ++ [(c, p)]
  ∧ model w' = model w ∧ editLog w' = editLog w ∧ outbox w' = outbox w
  ∧ channel w' = channel w ∧ contentListener w' = contentListener w
  ∧ cursorWidgets w' = cursorWidgets w.
Proof.
  intros Hc Hx. unfold setCursorPosition. rewrite Hc.
  unfold RemoteCursorWidget_setPosition, updatePosition, setTimeout. simpl.
  rewrite lookup_alter_eq, Hx. simpl.
  destruct (cw_tooltipNode x); simpl; rewrite lookup_alter_eq, Hx; by split_and!.
Qed.

Lemma setCursorPosition_frame (id : string) (p : IPosition) (w : World) :
  let w' := setCursorPosition id p w in
  model w' = model w ∧ editLog w' = editLog w ∧ outbox w' = outbox w
  ∧ channel w' = channel w ∧ contentListener w' = contentListener w.
Proof.
  unfold setCursorPosition. destruct (cursorWidgets w !! id); [|done].
  unfold RemoteCursorWidget_setPosition, updatePosition, setTimeout. simpl.
  destruct (alter _ _ _ !! _) as [x|]; [|done].
  by destruct (cw_tooltipNode x).
Qed.

Lemma setCursorPosition_localCursor (id : string) (p : IPosition) (w : World) :
  localCursor (setCursorPosition id p w) = localCursor w.
Proof.
  unfold setCursorPosition. destruct (cursorWidgets w !! id); [|done].
  unfold RemoteCursorWidget_setPosition, updatePosition, setTimeout. simpl.
  destruct (alter _ _ _ !! _) as [x|]; [|done].
  by destruct (cw_tooltipNode x).
Qed.

Lemma onMemberJoined_localCursor (id : string) (w : World) :
  localCursor (onMemberJoined id w) = localCursor w.
Proof.
  unfold onMemberJoined, ifManager, addCursor, addSelection. simpl.
  destruct (channel w) eqn:Hch; [|by rewrite Hch].
  destruct (cursorWidgets w !! id); simpl; rewrite Hch;
    by destruct (remoteSelections w !! id).
Qed.

Lemma applyChange_effect (id : string) (w : World) (ch : IModelContentChange)
    (m : ITextModel) :
  model w = Some m →
  let w' := applyChange id w ch in
  let r := toRange (range ch) in
  let moved := cursorAfterEdit (localCursor w) (getValue m) r (text ch) in
  editLog w' = editLog w ++ [loggedEdit (id, ch)]
  ∧ channel w' = channel w ∧ contentListener w' = contentListener w
  ∧ (if editChanges (getValue m) r (text ch)
     then model w' = Some (mkModel (applyEdit (getValue m) r (text ch)) (getVersionId m + 1))
          ∧ outbox w'
            = outbox w
              ++ (if channel w
                  then (if contentListener w
                        then [CodeSnippet (mkChanged [changeOf (getValue m) r (text ch)]
                                             (getVersionId m + 1))]
                        else [])
                       ++ cursorMessages moved
                  else [])
          ∧ localCursor w' = default (localCursor w) moved
     else model w' = Some m ∧ outbox w' = outbox w ∧ localCursor w' = localCursor w).
Proof.
  intros Hm. cbn zeta. unfold applyChange.
  destruct (executeEdits_effect id (toRange (range ch)) (text ch) w m Hm)
    as (Hlog & _ & Hch & Hl & Hrest).
  set (w1 := executeEdits id (toRange (range ch)) (text ch) w) in *.
  assert (Hm1 : ∃ m1, model w1 = Some m1).
  { destruct (editChanges _ _ _); destruct Hrest as (-> & _); eauto. }
  destruct Hm1 as [m1 Hm1]. rewrite Hm1.
  set (p := getPositionAt _ _).
  assert (Hframe : model (ifManager (setCursorPosition id p) w1) = model w1
                   ∧ editLog (ifManager (setCursorPosition id p) w1) = editLog w1
                   ∧ outbox (ifManager (setCursorPosition id p) w1) = outbox w1
                   ∧ channel (ifManager (setCursorPosition id p) w1) = channel w1
                   ∧ contentListener (ifManager (setCursorPosition id p) w1)
                     = contentListener w1
                   ∧ localCursor (ifManager (setCursorPosition id p) w1) = localCursor w1).
  { unfold ifManager. destruct (channel w1) eqn:E; [|by split_and!].
    destruct (setCursorPosition_frame id p w1) as (A1 & A2 & A3 & A4 & A5).
    pose proof (setCursorPosition_localCursor id p w1). split_and!; congruence. }
  destruct Hframe as (-> & -> & -> & -> & -> & ->).
  unfold loggedEdit. simpl. split_and!; try done.
Qed.

Lemma applyChanges_outbox (id : string) (cs : list IModelContentChange) (w : World)
    (m : ITextModel) :
  model w = Some m → channel w = true →
  outbox (fold_left (applyChange id) cs w)
  = outbox w
    ++ echoes (contentListener w) (getValue m) (getVersionId m) (localCursor w) cs.
Proof.
  revert w m. induction cs as [|ch cs IH]; intros w m Hm Hch; simpl.
  - by rewrite app_nil_r.
  - destruct (applyChange_effect id w ch m Hm) as (_ & Hch1 & Hl1 & Hrest).
    destruct (editChanges (getValue m) (toRange (range ch)) (text ch)).
    + destruct Hrest as (Hm1 & Hout & Hcur).
      rewrite (IH _ _ Hm1) by congruence. simpl.
      rewrite Hout, Hl1, Hcur, Hch. by rewrite <- !app_assoc.
    + destruct Hrest as (Hm1 & Hout & Hcur).
      rewrite (IH _ _ Hm1) by congruence.
      by rewrite Hout, Hl1, Hcur.
Qed.

Lemma applyChanges_editLog (id : string) (cs : list IModelContentChange) (w : World)
    (m : ITextModel) :
  model w = Some m →
  editLog (fold_left (applyChange id) cs w)
  = editLog w ++ map (λ ch, loggedEdit (id, ch)) cs.
Proof.
  revert w m. induction cs as [|ch cs IH]; intros w m Hm; simpl.
  - by rewrite app_nil_r.
  - destruct (applyChange_effect id w ch m Hm) as (Hlog & _ & _ & Hrest).
    assert (∃ m1, model (applyChange id w ch) = Some m1) as [m1 Hm1].
    { destruct (editChanges _ _ _); destruct Hrest as (-> & _); eauto. }
    rewrite (IH _ _ Hm1), Hlog. by rewrite <- app_assoc.
Qed.

(** C1, as the code has it. A [CodeSnippet] message that the receive path
    applies (its version is above the document's) is sent out again by the
    content-change path, change by change, while the content listener is
    subscribed: the messages handed to the channel are the earlier ones
    followed, for each change that changes the document, by one
    [CodeSnippet] carrying the change as the editor reports it and the
    version the document reached with it, and by the position and the
    selection of the editor's own cursor when the change has moved it; a
    change that leaves the document as it is sends nothing.  Once the
    content listener is unsubscribed the [CodeSnippet] messages are no
    longer sent; the cursor messages still are. *)
Theorem remote_edit_is_resent (w : World) (m : ITextModel) (id : string)
    (event : IModelContentChangedEvent) :
  model w = Some m →
  channel w = true →
  getVersionId m < versionId event →
  outbox (receiver (mkMessage (Some id) (CodeSnippet event)) w)
  = outbox w
    ++ echoes (contentListener w) (getValue m) (getVersionId m) (localCursor w)
         (changes event).
Proof.
  intros Hm Hch Hlt. rewrite (receiver_joins _ id) by done. simpl.
  destruct (onMemberJoined_frame id w) as (Hm' & _ & _ & _ & _ & Hout & Hch' & Hl' & _).
  unfold updateContent. rewrite Hm', Hm.
  apply Z.leb_gt in Hlt. rewrite Hlt.
  rewrite (applyChanges_outbox id _ _ m) by congruence.
  by rewrite Hout, Hl', onMemberJoined_localCursor.
Qed.

(** C4. With a model attached and a channel given, a content-change event
    is dropped by the send path when its version is below the version of
    the document, and sent as a [CodeSnippet] message otherwise, also when
    the two versions are equal; the receive path drops an edit whose
    version is at most the version of the document, the equal one
    included, and executes the changes of any later one. *)
Theorem version_checks (w : World) (m : ITextModel) (id : string)
    (event : IModelContentChangedEvent) :
  model w = Some m →
  channel w = true →
  sendCodeSnippet event w
  = (if decide (versionId event < getVersionId m) then w
     else set_outbox (outbox w ++ [CodeSnippet event]) w)
  ∧ updateContent id event w
    = (if decide (versionId event ≤ getVersionId m) then w
       else fold_left (applyChange id) (changes event) w)
  ∧ editLog (updateContent id event w)
    = editLog w
      ++ (if decide (versionId event ≤ getVersionId m) then []
          else map (λ ch, loggedEdit (id, ch)) (changes event)).
Proof.
  intros Hm Hch. split_and!.
  - unfold sendCodeSnippet, sendMessage. rewrite Hm, Hch.
    case_decide as Hlt.
    + apply Z.ltb_lt in Hlt. by rewrite Hlt.
    + assert (Hge : (versionId event <? getVersionId m) = false)
        by (apply Z.ltb_ge; lia).
      by rewrite Hge.
  - unfold updateContent. rewrite Hm. case_decide as Hle.
    + apply Z.leb_le in Hle. by rewrite Hle.
    + assert (Hgt : (versionId event <=? getVersionId m) = false)
        by (apply Z.leb_gt; lia).
      by rewrite Hgt.
  - unfold updateContent. rewrite Hm. case_decide as Hle.
    + apply Z.leb_le in Hle. rewrite Hle. by rewrite app_nil_r.
    + assert (Hgt : (versionId event <=? getVersionId m) = false)
        by (apply Z.leb_gt; lia).
      rewrite Hgt. by apply (applyChanges_editLog id _ w m).
Qed.

(** ** Sequences of remote edits *)

Lemma onMemberJoined_cursor (id : string) (w : World) :
  Inv w → channel w = true →
  ∃ c x, cursorWidgets (onMemberJoined id w) !! id = Some c
         ∧ cursors (onMemberJoined id w) !! c = Some x.
Proof.
  intros HI Hch.
  pose proof (Inv_onMemberJoined id w HI) as HJ.
  assert (∃ c, cursorWidgets (onMemberJoined id w) !! id = Some c) as [c Hc].
  { unfold onMemberJoined, ifManager, addCursor, addSelection. rewrite Hch. simpl.
    destruct (cursorWidgets w !! id) eqn:Hreg; simpl; rewrite ?Hch;
      destruct (remoteSelections w !! id); simpl;
      rewrite ?lookup_insert_eq; eauto. }
  destruct (inv_cursorWidgets _ HJ _ _ Hc) as (x & Hx & _). eauto.
Qed.

Lemma receive_single_edit (e : string * IModelContentChange) (w : World) (m : ITextModel) :
  Inv w → model w = Some m → channel w = true →
  editChanges (getValue m) (toRange (range e.2)) (text e.2) = true →
  let w' := receiver (editMessage (getVersionId m + 1) e) w in
  let t' := applyEdit (getValue m) (toRange (range e.2)) (text e.2) in
  let p := getPositionAt t' (rangeOffset e.2 + jsLength (text e.2)) in
  Inv w' ∧ channel w' = true
  ∧ model w' = Some (mkModel t' (getVersionId m + 1))
  ∧ editLog w' = editLog w ++ [loggedEdit e]
  ∧ ∃ c x, cursorWidgets w' !! e.1 = Some c ∧ cursors w' !! c = Some x
           ∧ cw_position x = Some p ∧ last (layouts w') = Some (c, p).
Proof.
  intros HI Hm Hch Heff w' t' p. destruct e as [id ch]. simpl in t', p, Heff.
  destruct (onMemberJoined_frame id w) as (Hm' & Hlog' & _ & _ & _ & _ & Hch' & _).
  destruct (onMemberJoined_cursor id w HI Hch) as (c & x & Hc & Hx).
  pose proof (Inv_onMemberJoined id w HI) as HIj.
  assert (Hw' : w' = applyChange id (onMemberJoined id w) ch).
  { subst w'. unfold editMessage. rewrite (receiver_joins _ id) by done. simpl.
    unfold updateContent. rewrite Hm', Hm.
    assert (Hgt : (getVersionId m + 1 <=? getVersionId m) = false)
      by (apply Z.leb_gt; lia).
    simpl. by rewrite Hgt. }
  clearbody w'. subst w'.
  set (wj := onMemberJoined id w) in *.
  destruct (applyChange_effect id wj ch m) as (Hlog & Hch1 & _ & Hrest);
    [congruence|].
  rewrite Heff in Hrest. destruct Hrest as (Hm1 & _).
  split; [by apply Inv_applyChange|]. split; [congruence|]. split; [exact Hm1|].
  split; [by rewrite Hlog, Hlog'|].
  unfold applyChange.
  destruct (executeEdits_effect id (toRange (range ch)) (text ch) wj m)
    as (_ & _ & Hche & _ & Hreste); [congruence|].
  rewrite Heff in Hreste. destruct Hreste as (Hme & _).
  pose proof (sameObjects_executeEdits id (toRange (range ch)) (text ch) wj)
    as (Hcs & _ & _ & Hcw & _).
  rewrite Hme. cbn [getValue]. unfold ifManager. rewrite Hche, Hch', Hch.
  fold t'. fold p.
  destruct (setCursorPosition_effect id p
              (executeEdits id (toRange (range ch)) (text ch) wj) c x)
    as (Hx' & Hlay & _ & _ & _ & _ & _ & Hcw');
    [by rewrite Hcw | by rewrite Hcs |].
  exists c, (cw_set_position (Some p) x). simpl. split_and!.
  - by rewrite Hcw', Hcw.
  - exact Hx'.
  - done.
  - rewrite Hlay. apply last_snoc.
Qed.

(** C3, for edits of one change each. Let edits arrive at a well-formed
    store whose document is at version [V], each with its sender and a
    single change that changes the document it is applied to, as the
    messages with versions [V + 1], [V + 2], ...  Then each change is
    executed once and in arrival order (the log of executed edits grows by
    exactly these edits, and the text is the old one with the changes
    applied in order), the document version is [V] plus the number of
    edits, and after the last edit of the sequence (so, taking prefixes,
    after each one) the cursor of its sender has been laid out last, at the
    position of the offset that follows the inserted text, the length of
    the text counted as JavaScript counts it. *)
Theorem single_change_edits_applied_in_order (w : World) (m : ITextModel)
    (es : list (string * IModelContentChange)) :
  Inv w →
  model w = Some m →
  channel w = true →
  effective (getValue m) es = true →
  let w' := receiveAll (editMessages (getVersionId m) es) w in
  model w'
  = Some (mkModel (editedText (getValue m) es) (getVersionId m + Z.of_nat (length es)))
  ∧ editLog w' = editLog w ++ map loggedEdit es
  ∧ ∀ pre id ch, es = pre ++ [(id, ch)] →
      let p := getPositionAt (editedText (getValue m) es)
                 (rangeOffset ch + jsLength (text ch)) in
      ∃ c x, cursorWidgets w' !! id = Some c ∧ cursors w' !! c = Some x
             ∧ cw_position x = Some p ∧ last (layouts w') = Some (c, p).
Proof.
  revert w m. induction es as [|e es IH]; intros w m HI Hm Hch Heff; simpl.
  - split_and!.
    + rewrite Hm. destruct m. simpl. f_equal. f_equal. lia.
    + by rewrite app_nil_r.
    + intros pre id ch Hnil. by destruct pre.
  - simpl in Heff. apply andb_true_iff in Heff as [Heff1 Heff].
    destruct (receive_single_edit e w m HI Hm Hch Heff1)
      as (HI1 & Hch1 & Hm1 & Hlog1 & Hcur1).
    set (w1 := receiver (editMessage (getVersionId m + 1) e) w) in *.
    set (m1 := mkModel (applyEdit (getValue m) (toRange (range e.2)) (text e.2))
                 (getVersionId m + 1)) in *.
    specialize (IH w1 m1 HI1 Hm1 Hch1 Heff). simpl in IH.
    destruct IH as (IHm & IHlog & IHcur).
    unfold receiveAll in *. simpl. split_and!.
    + rewrite IHm. unfold editedText. simpl. f_equal. f_equal. lia.
    + rewrite IHlog, Hlog1. by rewrite <- app_assoc.
    + intros pre id ch Hes. destruct pre as [|e' pre]; simpl in Hes.
      * injection Hes as -> ->. simpl. exact Hcur1.
      * injection Hes as -> ->. apply (IHcur pre id ch eq_refl).
Qed.

(** ** Removing overlays *)

Lemma RemoteSelection_hide_frame (s : nat) (w : World) :
  timers (RemoteSelection_hide s w) = timers w
  ∧ remoteSelections (RemoteSelection_hide s w) = remoteSelections w.
Proof.
  unfold RemoteSelection_hide. destruct (selections w !! s) as [x|]; [|done].
  unfold deltaDecorations. destruct (model w); [|done].
  by destruct (freshDecorations _ _ _).
Qed.

Lemma selectionReleased_timers (s : nat) (x : RemoteSelection) (w : World) :
  timers (selectionReleased s x w) = timers w.
Proof.
  unfold selectionReleased. simpl.
  destruct (RemoteSelection_hide_frame s
              (if rs_styleAttached x
               then updSelection s (rs_set_styleAttached false) w else w)) as [-> _].
  by destruct (rs_styleAttached x).
Qed.

(** No disposal callback touches the registry of selections or the
    pending timers. *)
Lemma runCallback_frame (fuel : nat) (cb : Callback) (w w' : World) :
  runCallback fuel cb w = Some w' →
  remoteSelections w' = remoteSelections w ∧ timers w' = timers w.
Proof.
  revert cb w w'. induction fuel as [|n IH]; intros cb w w' Hrun; [done|].
  destruct cb as [id|id]; simpl in Hrun.
  - unfold removeCursor_body in Hrun.
    destruct (cursorWidgets w !! id) as [c|]; simpl in Hrun;
      [|by injection Hrun as <-].
    destruct (RemoteCursorWidget_isDisposed c w) eqn:Hd; simpl in Hrun;
      [by injection Hrun as <-|].
    unfold RemoteCursorWidget_isDisposed in Hd.
    destruct (cursors w !! c) as [x|] eqn:Hx; [|done].
    rewrite (cursor_dispose_live _ c x) in Hrun by done.
    destruct (runCallback n _ _) as [w1|] eqn:Hcb; [|done].
    simpl in Hrun. injection Hrun as <-. simpl.
    destruct (IH _ _ _ Hcb) as [-> ->].
    by destruct (cursorReleased_registries c x w) as (_ & -> & _ & ->).
  - unfold removeSelection_body in Hrun.
    destruct (remoteSelections w !! id) as [s|]; [|by injection Hrun as <-].
    destruct (RemoteSelection_isDisposed s w) eqn:Hd; simpl in Hrun;
      [by injection Hrun as <-|].
    unfold RemoteSelection_isDisposed in Hd.
    destruct (selections w !! s) as [x|] eqn:Hx; [|done].
    rewrite (selection_dispose_live _ s x) in Hrun by done.
    destruct (IH _ _ _ Hrun) as [-> ->].
    rewrite selectionReleased_timers.
    by destruct (selectionReleased_registries s x w) as (_ & -> & _).
Qed.

(** [removeCursor] does what its name says: it returns, the entry is gone
    from the registry, and the widget that was registered is disposed. *)
Lemma removeCursor_removes (n : nat) (id : string) (w : World) :
  Inv w →
  ∃ w', removeCursor (S n) id w = Some w'
        ∧ cursorWidgets w' !! id = None
        ∧ ∀ c, cursorWidgets w !! id = Some c → RemoteCursorWidget_isDisposed c w' = true.
Proof.
  intros HI. destruct (removeCursor_total n id w HI) as [w' Hrun].
  exists w'. split; [done|].
  unfold removeCursor, removeCursor_body in Hrun.
  destruct (cursorWidgets w !! id) as [c|] eqn:Hc; simpl in Hrun.
  - destruct (RemoteCursorWidget_isDisposed c w) eqn:Hd; simpl in Hrun.
    + injection Hrun as <-. simpl. split; [apply lookup_delete_eq|].
      by intros ? [= <-].
    + destruct (RemoteCursorWidget_dispose _ c w) as [w1|] eqn:Hdis; [|done].
      simpl in Hrun. injection Hrun as <-. simpl. split; [apply lookup_delete_eq|].
      intros ? [= <-].
      change (RemoteCursorWidget_isDisposed c w1 = true).
      eapply staysDisposed_cursor_dispose; [|exact Hdis].
      intros cb w0 w2 Hcb. by apply (staysDisposed_runCallback (S n) cb).
  - injection Hrun as <-. simpl. split; [apply lookup_delete_eq | done].
Qed.

(** C5, the selection manager. [removeSelection] leaves the registry of
    selections exactly as it was, so an id that was registered is still
    registered afterwards (to its selection, now disposed): the [delete]
    that [removeCursor] ends with is missing. *)
Theorem removeSelection_keeps_entry (fuel : nat) (id : string) (w w' : World) :
  removeSelection fuel id w = Some w' →
  remoteSelections w' = remoteSelections w.
Proof.
  intros Hrun. unfold removeSelection, removeSelection_body in Hrun.
  destruct (remoteSelections w !! id) as [s|]; [|by injection Hrun as <-].
  destruct (RemoteSelection_isDisposed s w) eqn:Hd; simpl in Hrun;
    [by injection Hrun as <-|].
  unfold RemoteSelection_isDisposed in Hd.
  destruct (selections w !! s) as [x|] eqn:Hx; [|done].
  rewrite (selection_dispose_live _ s x) in Hrun by done.
  destruct (runCallback_frame _ _ _ _ Hrun) as [-> _].
  by destruct (selectionReleased_registries s x w) as (_ & -> & _).
Qed.

(** ** Tooltip timers *)

(** A position update while the tooltip is visible: the pending auto-hide
    timer is cleared and one new timer takes its place. *)
Lemma showTooltip_resets_timer (c : nat) (x : RemoteCursorWidget) (t : nat) (w : World) :
  cursors w !! c = Some x → cw_hideTimer x = Some t →
  timers (showTooltip c w)
  = filter (λ y, y.1 ≠ t) (timers w)
    ++ [(nextTimer w, (cw_tooltipDuration x, THideTooltip c))]
  ∧ cursors (showTooltip c w) !! c = Some (cw_set_hideTimer (Some (nextTimer w)) x).
Proof.
  intros Hx Ht. unfold showTooltip, updateTooltipPosition. rewrite Hx, Ht. simpl.
  by rewrite lookup_alter_eq, Hx.
Qed.

(** C9, disposal. [dispose] leaves the pending timers exactly as they
    were: an auto-hide timer that was pending for the widget is still
    pending once the widget is disposed. *)
Theorem dispose_keeps_timers (fuel : nat) (c : nat) (w w' : World) :
  cursorDispose fuel c w = Some w' →
  timers w' = timers w.
Proof.
  intros Hrun. unfold cursorDispose in Hrun.
  destruct (RemoteCursorWidget_isDisposed c w) eqn:Hd.
  - rewrite cursor_dispose_disposed in Hrun by done. by injection Hrun as <-.
  - unfold RemoteCursorWidget_isDisposed in Hd.
    destruct (cursors w !! c) as [x|] eqn:Hx; [|done].
    rewrite (cursor_dispose_live _ c x) in Hrun by done.
    destruct (runCallback_frame _ _ _ _ Hrun) as [_ ->].
    by destruct (cursorReleased_registries c x w) as (_ & _ & _ & ->).
Qed.

(** * Further properties *)

(** ** Selections: order of the end points *)

Lemma position_le_antisym (a b : IPosition) :
  position_le a b → position_le b a → a = b.
Proof.
  unfold position_le. destruct a as [la ca], b as [lb cb]. simpl.
  intros Hab Hba. f_equal; lia.
Qed.

Lemma swapIfNeeded_sym (a b : IPosition) : swapIfNeeded a b = swapIfNeeded b a.
Proof.
  destruct (decide (position_le a b)) as [Hab|Hab];
    destruct (decide (position_le b a)) as [Hba|Hba].
  - by rewrite (position_le_antisym a b).
  - by rewrite swapIfNeeded_le, swapIfNeeded_gt.
  - by rewrite swapIfNeeded_gt, swapIfNeeded_le.
  - exfalso. unfold position_le in *. lia.
Qed.

(** X1. The order in which the two end points are given to a selection
    does not matter: [setPositions(a, b)] and [setPositions(b, a)] leave
    the same store, and so do the same calls through the manager. *)
Theorem setPositions_symmetric (s : nat) (id : string) (a b : IPosition) (w : World) :
  RemoteSelection_setPositions s a b w = RemoteSelection_setPositions s b a w
  ∧ setSelectionPositions id a b w = setSelectionPositions id b a w.
Proof.
  assert (Hs : ∀ s, RemoteSelection_setPositions s a b w
                    = RemoteSelection_setPositions s b a w).
  { intros s0. unfold RemoteSelection_setPositions. by rewrite (swapIfNeeded_sym a b). }
  split; [apply Hs|].
  unfold setSelectionPositions. destruct (remoteSelections w !! id); [apply Hs | done].
Qed.

(** ** Selections: what is drawn *)

Lemma Range_new_ordered (a b : IPosition) :
  position_le a b →
  Range_new (lineNumber a) (column a) (lineNumber b) (column b)
  = mkRange (lineNumber a) (column a) (lineNumber b) (column b).
Proof.
  unfold position_le, Range_new. intros Hle.
  destruct (lineNumber b <? lineNumber a) eqn:Hlt.
  { apply Z.ltb_lt in Hlt. lia. }
  destruct (lineNumber a =? lineNumber b) eqn:Heq; [|done].
  destruct (column b <? column a) eqn:Hc; [|done].
  apply Z.ltb_lt in Hc. apply Z.eqb_eq in Heq. lia.
Qed.

Lemma swapIfNeeded_ordered (a b : IPosition) :
  position_le (swapIfNeeded a b).1 (swapIfNeeded a b).2.
Proof.
  destruct (decide (position_le a b)) as [Hle|Hn].
  - by rewrite swapIfNeeded_le.
  - rewrite swapIfNeeded_gt by done. simpl. unfold position_le in *. lia.
Qed.

Lemma lookup_foldr_delete (m : gmap nat IModelDecoration) (old : list nat) (d : nat) :
  d ∈ old → foldr delete m old !! d = None.
Proof.
  induction old as [|o old IH]; intros Hin; [by apply elem_of_nil in Hin|].
  simpl. destruct (decide (o = d)) as [->|Hne].
  - apply lookup_delete_eq.
  - rewrite lookup_delete_ne by done. apply IH.
    apply elem_of_cons in Hin as [->|Hin]; done.
Qed.

Lemma render_positioned (s : nat) (x : RemoteSelection) (a b : IPosition)
    (w : World) (m : ITextModel) :
  selections w !! s = Some x → rs_startPosition x = Some a → rs_endPosition x = Some b →
  model w = Some m →
  selections (render s w) !! s = Some (rs_set_decorations [nextDecoration w] x)
  ∧ decorations (render s w) !! nextDecoration w
    = Some (mkDecoration
              (Range_new (lineNumber a) (column a) (lineNumber b) (column b))
              (rs_className x) (Some (rs_label x)))
  ∧ (∀ d, d ∈ rs_decorations x → d ≠ nextDecoration w →
          decorations (render s w) !! d = None)
  ∧ model (render s w) = model w.
Proof.
  intros Hx Ha Hb Hm. unfold render. rewrite Hx, Ha, Hb.
  erewrite deltaDecorations_single by exact Hm. simpl.
  rewrite lookup_alter_eq, Hx. simpl. split_and!; try done.
  - apply lookup_insert_eq.
  - intros d Hin Hne. rewrite lookup_insert_ne by done.
    by apply lookup_foldr_delete.
Qed.

Lemma setPositions_effect (s : nat) (x : RemoteSelection) (a b : IPosition)
    (w : World) (m : ITextModel) :
  selections w !! s = Some x →
  model w = Some m →
  let w' := RemoteSelection_setPositions s a b w in
  RemoteSelection_getStartPosition s w' = Some (swapIfNeeded a b).1
  ∧ RemoteSelection_getEndPosition s w' = Some (swapIfNeeded a b).2
  ∧ position_le (swapIfNeeded a b).1 (swapIfNeeded a b).2
  ∧ (rs_decorations <$> selections w' !! s) = Some [nextDecoration w]
  ∧ decorations w' !! nextDecoration w
    = Some (mkDecoration (drawnRange a b) (rs_className x) (Some (rs_label x)))
  ∧ (∀ d, d ∈ rs_decorations x → d ≠ nextDecoration w → decorations w' !! d = None).
Proof.
  intros Hx Hm w'. subst w'. unfold RemoteSelection_setPositions.
  set (o := swapIfNeeded a b).
  set (w1 := updSelection s (rs_set_positions (Some o.1) (Some o.2)) w).
  assert (Hx1 : selections w1 !! s = Some (rs_set_positions (Some o.1) (Some o.2) x)).
  { subst w1. simpl. by rewrite lookup_alter_eq, Hx. }
  destruct (render_positioned s _ o.1 o.2 w1 m Hx1 eq_refl eq_refl Hm)
    as (Hs & Hd & Hold & _).
  change (nextDecoration w1) with (nextDecoration w) in Hs, Hd, Hold.
  simpl in Hd, Hold.
  unfold RemoteSelection_getStartPosition, RemoteSelection_getEndPosition.
  rewrite Hs. simpl. split_and!; try done.
  - apply swapIfNeeded_ordered.
  - rewrite Hd. unfold drawnRange. fold o.
    by rewrite Range_new_ordered by apply swapIfNeeded_ordered.
Qed.

(** X2. [setPositions] on a selection of an editor with a model, with two
    positions of the document: it stores the two end points in document
    order, whatever order they came in, so that the start read back is
    before or equal to the end; and it hands the editor exactly one
    decoration for the selection, over the range from the earlier to the
    later end point, with the selection's class and label, the decorations
    it had drawn before being taken off the editor. *)
Theorem setPositions_draws_ordered (s : nat) (x : RemoteSelection) (a b : IPosition)
    (w : World) (m : ITextModel) :
  selections w !! s = Some x →
  model w = Some m →
  inDocument (getValue m) a →
  inDocument (getValue m) b →
  let w' := RemoteSelection_setPositions s a b w in
  RemoteSelection_getStartPosition s w' = Some (swapIfNeeded a b).1
  ∧ RemoteSelection_getEndPosition s w' = Some (swapIfNeeded a b).2
  ∧ position_le (swapIfNeeded a b).1 (swapIfNeeded a b).2
  ∧ inDocument (getValue m) (swapIfNeeded a b).1
  ∧ inDocument (getValue m) (swapIfNeeded a b).2
  ∧ (rs_decorations <$> selections w' !! s) = Some [nextDecoration w]
  ∧ decorations w' !! nextDecoration w
    = Some (mkDecoration (drawnRange a b) (rs_className x) (Some (rs_label x)))
  ∧ (∀ d, d ∈ rs_decorations x → d ≠ nextDecoration w → decorations w' !! d = None).
Proof.
  intros Hx Hm Ha Hb.
  destruct (setPositions_effect s x a b w m Hx Hm) as (H1 & H2 & H3 & H4 & H5 & H6).
  split_and!; try done; unfold swapIfNeeded; by destruct (_ || _).
Qed.

(** X3. Hiding a selection takes its decorations off the editor and keeps
    its end points; showing it again draws it over the same range, as one
    decoration. *)
Theorem hide_keeps_positions (s : nat) (x : RemoteSelection) (a b : IPosition)
    (w : World) (m : ITextModel) :
  selections w !! s = Some x →
  rs_startPosition x = Some a →
  rs_endPosition x = Some b →
  model w = Some m →
  let hidden := RemoteSelection_hide s w in
  let shown := RemoteSelection_show s hidden in
  (rs_decorations <$> selections hidden !! s) = Some []
  ∧ (∀ d, d ∈ rs_decorations x → decorations hidden !! d = None)
  ∧ RemoteSelection_getStartPosition s hidden = Some a
  ∧ RemoteSelection_getEndPosition s hidden = Some b
  ∧ (rs_decorations <$> selections shown !! s) = Some [nextDecoration hidden]
  ∧ decorations shown !! nextDecoration hidden
    = Some (mkDecoration
              (Range_new (lineNumber a) (column a) (lineNumber b) (column b))
              (rs_className x) (Some (rs_label x))).
Proof.
  intros Hx Ha Hb Hm hidden shown.
  assert (Hh : selections hidden !! s = Some (rs_set_decorations [] x)
               ∧ model hidden = Some m
               ∧ ∀ d, d ∈ rs_decorations x → decorations hidden !! d = None).
  { subst hidden. unfold RemoteSelection_hide, deltaDecorations. rewrite Hx, Hm. simpl.
    rewrite lookup_alter_eq, Hx. split_and!; try done.
    intros d Hin. by apply lookup_foldr_delete. }
  destruct Hh as (Hxh & Hmh & Hold).
  destruct (render_positioned s _ a b hidden m Hxh Ha Hb Hmh) as (Hs & Hd & _).
  unfold RemoteSelection_getStartPosition, RemoteSelection_getEndPosition.
  subst shown. unfold RemoteSelection_show. rewrite Hxh, Hs. simpl.
  by split_and!.
Qed.

(** ** What the overlay updates leave alone *)

Lemma cursor_setPosition_frame (c : nat) (p : IPosition) (w : World) :
  let w' := RemoteCursorWidget_setPosition c p w in
  model w' = model w ∧ editLog w' = editLog w ∧ outbox w' = outbox w
  ∧ channel w' = channel w ∧ contentListener w' = contentListener w
  ∧ cursorWidgets w' = cursorWidgets w ∧ remoteSelections w' = remoteSelections w
  ∧ decorations w' = decorations w ∧ selections w' = selections w.
Proof.
  unfold RemoteCursorWidget_setPosition, updatePosition, setTimeout. simpl.
  destruct (alter _ _ _ !! _) as [x|]; [|done].
  by destruct (cw_tooltipNode x).
Qed.

Lemma selection_setPositions_frame (s : nat) (a b : IPosition) (w : World) :
  let w' := RemoteSelection_setPositions s a b w in
  model w' = model w ∧ editLog w' = editLog w ∧ outbox w' = outbox w
  ∧ channel w' = channel w ∧ contentListener w' = contentListener w
  ∧ cursorWidgets w' = cursorWidgets w ∧ remoteSelections w' = remoteSelections w
  ∧ cursors w' = cursors w ∧ layouts w' = layouts w ∧ timers w' = timers w.
Proof.
  unfold RemoteSelection_setPositions, render, deltaDecorations. simpl.
  repeat case_match; simplify_eq; by simpl.
Qed.

Lemma setCursorOffset_frame (id : string) (o : Z) (w : World) :
  let w' := setCursorOffset id o w in
  model w' = model w ∧ editLog w' = editLog w ∧ outbox w' = outbox w
  ∧ channel w' = channel w ∧ contentListener w' = contentListener w
  ∧ cursorWidgets w' = cursorWidgets w ∧ remoteSelections w' = remoteSelections w
  ∧ decorations w' = decorations w ∧ selections w' = selections w.
Proof.
  unfold setCursorOffset, RemoteCursorWidget_setOffset.
  destruct (cursorWidgets w !! id); [|done].
  destruct (model w) eqn:Hm; [|by rewrite Hm].
  rewrite <- Hm. apply cursor_setPosition_frame.
Qed.

Lemma setSelectionOffsets_frame (id : string) (a b : Z) (w : World) :
  let w' := setSelectionOffsets id a b w in
  model w' = model w ∧ editLog w' = editLog w ∧ outbox w' = outbox w
  ∧ channel w' = channel w ∧ contentListener w' = contentListener w
  ∧ cursorWidgets w' = cursorWidgets w ∧ remoteSelections w' = remoteSelections w
  ∧ cursors w' = cursors w ∧ layouts w' = layouts w ∧ timers w' = timers w.
Proof.
  unfold setSelectionOffsets, RemoteSelection_setOffsets.
  destruct (remoteSelections w !! id); [|done].
  destruct (model w) eqn:Hm; [|by rewrite Hm].
  rewrite <- Hm. apply selection_setPositions_frame.
Qed.

Lemma updateCursorPosition_frame (id : string) (e : ICursorPositionChangedEvent) (w : World) :
  let w' := updateCursorPosition id e w in
  model w' = model w ∧ editLog w' = editLog w ∧ outbox w' = outbox w
  ∧ channel w' = channel w ∧ contentListener w' = contentListener w
  ∧ cursorWidgets w' = cursorWidgets w ∧ remoteSelections w' = remoteSelections w.
Proof.
  unfold updateCursorPosition, ifManager.
  destruct (model w) eqn:Hm; [|by rewrite Hm]. rewrite <- Hm.
  destruct (channel w) eqn:Hch; [|by rewrite Hch]. rewrite <- Hch.
  match goal with
  | |- context [setCursorOffset ?i ?o ?w0] =>
      destruct (setCursorOffset_frame i o w0) as (?&?&?&?&?&?&?&_)
  end.
  by split_and!.
Qed.

Lemma updateSelection_frame (id : string) (e : ICursorSelectionChangedEvent) (w : World) :
  let w' := updateSelection id e w in
  model w' = model w ∧ editLog w' = editLog w ∧ outbox w' = outbox w
  ∧ channel w' = channel w ∧ contentListener w' = contentListener w
  ∧ cursorWidgets w' = cursorWidgets w ∧ remoteSelections w' = remoteSelections w.
Proof.
  unfold updateSelection, ifManager.
  destruct (model w) eqn:Hm; [|by rewrite Hm]. rewrite <- Hm.
  destruct (channel w) eqn:Hch; [|by rewrite Hch]. rewrite <- Hch.
  match goal with
  | |- context [setSelectionOffsets ?i ?a ?b ?w0] =>
      destruct (setSelectionOffsets_frame i a b w0) as (?&?&?&?&?&?&?&_)
  end.
  by split_and!.
Qed.

Lemma setCursorPosition_registries (id : string) (p : IPosition) (w : World) :
  channel (setCursorPosition id p w) = channel w
  ∧ cursorWidgets (setCursorPosition id p w) = cursorWidgets w
  ∧ remoteSelections (setCursorPosition id p w) = remoteSelections w.
Proof.
  unfold setCursorPosition. destruct (cursorWidgets w !! id) as [c|]; [|done].
  by destruct (cursor_setPosition_frame c p w) as (_&_&_&?&_&?&?&_).
Qed.

Lemma applyChange_registries (id : string) (w : World) (ch : IModelContentChange) :
  channel (applyChange id w ch) = channel w
  ∧ cursorWidgets (applyChange id w ch) = cursorWidgets w
  ∧ remoteSelections (applyChange id w ch) = remoteSelections w.
Proof.
  unfold applyChange.
  pose proof (sameObjects_executeEdits id (toRange (range ch)) (text ch) w)
    as (_ & _ & _ & Hcw & Hrs).
  assert (Hch : channel (executeEdits id (toRange (range ch)) (text ch) w) = channel w).
  { destruct (model w) as [m|] eqn:Hm.
    - by destruct (executeEdits_effect id (toRange (range ch)) (text ch) w m Hm)
        as (_ & _ & ? & _).
    - unfold executeEdits. by rewrite Hm. }
  set (w1 := executeEdits id (toRange (range ch)) (text ch) w) in *.
  destruct (model w1); [|done]. unfold ifManager.
  destruct (channel w1) eqn:Hc1; [|split_and!; congruence].
  match goal with
  | |- context [setCursorPosition ?i ?p ?w0] =>
      destruct (setCursorPosition_registries i p w0) as (A & B & C)
  end.
  rewrite A, B, C. split_and!; congruence.
Qed.

Lemma updateContent_registries (id : string) (e : IModelContentChangedEvent) (w : World) :
  channel (updateContent id e w) = channel w
  ∧ cursorWidgets (updateContent id e w) = cursorWidgets w
  ∧ remoteSelections (updateContent id e w) = remoteSelections w.
Proof.
  unfold updateContent. destruct (model w); [|done].
  destruct (_ <=? _); [done|].
  revert w. induction (changes e) as [|ch l IH]; intros w; simpl; [done|].
  destruct (IH (applyChange id w ch)) as (-> & -> & ->).
  apply applyChange_registries.
Qed.

(** ** Without a model, without a registered id, without a channel *)

(** X4. While the editor has no model, everything that needs the document
    does nothing: the offset-based setters of the widgets and of the
    managers, [setPositionWithModelContentChange] and [sendCodeSnippet]
    leave the store as it is, and a received message of any kind only
    registers the overlays of its sender. *)
Theorem no_model_no_effect (w : World) :
  model w = None →
  (∀ c o, RemoteCursorWidget_setOffset c o w = w)
  ∧ (∀ c ch, setPositionWithModelContentChange c ch w = w)
  ∧ (∀ s a b, RemoteSelection_setOffsets s a b w = w)
  ∧ (∀ id o, setCursorOffset id o w = w)
  ∧ (∀ id a b, setSelectionOffsets id a b w = w)
  ∧ (∀ e, sendCodeSnippet e w = w)
  ∧ (∀ msg, receiver msg w
            = match message_uid msg with
              | Some id => onMemberJoined id w
              | None => w
              end).
Proof.
  intros Hm. split_and!.
  - intros. unfold RemoteCursorWidget_setOffset. by rewrite Hm.
  - intros. unfold setPositionWithModelContentChange. by rewrite Hm.
  - intros. unfold RemoteSelection_setOffsets. by rewrite Hm.
  - intros. unfold setCursorOffset, RemoteCursorWidget_setOffset. rewrite Hm.
    by destruct (cursorWidgets w !! id).
  - intros. unfold setSelectionOffsets, RemoteSelection_setOffsets. rewrite Hm.
    by destruct (remoteSelections w !! id).
  - intros. unfold sendCodeSnippet. by rewrite Hm.
  - intros msg. destruct (message_uid msg) as [id|] eqn:Hid.
    + rewrite (receiver_joins msg id) by done.
      destruct (onMemberJoined_frame id w) as (Hm' & _).
      rewrite Hm in Hm'.
      unfold updateContent, updateCursorPosition, updateSelection. rewrite Hm'.
      by destruct (message msg).
    + unfold receiver. by rewrite Hid.
Qed.

Lemma set_cursorWidgets_id (w : World) : set_cursorWidgets (cursorWidgets w) w = w.
Proof. by destruct w. Qed.

(** X5. For an id that is not registered, nothing in either manager has
    an effect and nothing fails: setting a position or an offset, showing
    and hiding leave the store as it is, and so does removing, which
    returns whatever fuel it is given. *)
Theorem unknown_id_no_effect (w : World) (id : string) :
  cursorWidgets w !! id = None →
  remoteSelections w !! id = None →
  (∀ p, setCursorPosition id p w = w)
  ∧ (∀ o, setCursorOffset id o w = w)
  ∧ showCursor id w = w
  ∧ hideCursor id w = w
  ∧ (∀ fuel, removeCursor fuel id w = Some w)
  ∧ (∀ a b, setSelectionOffsets id a b w = w)
  ∧ (∀ a b, setSelectionPositions id a b w = w)
  ∧ showSelection id w = w
  ∧ hideSelection id w = w
  ∧ (∀ fuel, removeSelection fuel id w = Some w).
Proof.
  intros Hc Hs.
  unfold setCursorPosition, setCursorOffset, showCursor, hideCursor, removeCursor,
    removeCursor_body, setSelectionOffsets, setSelectionPositions, showSelection,
    hideSelection, removeSelection, removeSelection_body.
  rewrite Hc, Hs. simpl. split_and!; try done.
  intros _. rewrite delete_id by done. by rewrite set_cursorWidgets_id.
Qed.

Lemma onMemberJoined_settled (id : string) (w : World) :
  onMemberJoined id (onMemberJoined id w) = onMemberJoined id w
  ∧ ∀ d, onMemberJoined id (receiver (mkMessage (Some id) d) w)
         = receiver (mkMessage (Some id) d) w.
Proof.
  assert (Hsettled : ∀ w0, channel w0 = channel w →
            cursorWidgets w0 = cursorWidgets (onMemberJoined id w) →
            remoteSelections w0 = remoteSelections (onMemberJoined id w) →
            onMemberJoined id w0 = w0).
  { intros w0 Hch Hcw Hrs. unfold onMemberJoined at 1. unfold ifManager.
    rewrite Hch. destruct (channel w) eqn:Hcw0; [|by rewrite ?Hch, ?Hcw0].
    assert (∃ c s, cursorWidgets (onMemberJoined id w) !! id = Some c
                   ∧ remoteSelections (onMemberJoined id w) !! id = Some s)
      as (c & s & Hc & Hs).
    { unfold onMemberJoined, ifManager, addCursor, addSelection. rewrite Hcw0. simpl.
      destruct (cursorWidgets w !! id) eqn:Hreg; simpl; rewrite ?Hcw0;
        destruct (remoteSelections w !! id) eqn:Hsel; simpl;
        rewrite ?lookup_insert_eq, ?Hreg, ?Hsel; eauto. }
    rewrite <- Hcw in Hc. rewrite <- Hrs in Hs.
    rewrite (addCursor_registered _ w0 c) by done. simpl.
    rewrite ?Hch, ?Hcw0.
    by rewrite (addSelection_registered _ w0 s). }
  destruct (onMemberJoined_frame id w) as (_ & _ & _ & _ & _ & _ & Hch & _).
  split.
  - by apply Hsettled.
  - intros d. rewrite (receiver_joins _ id) by done. simpl.
    destruct d as [e|e|e|t].
    + destruct (updateCursorPosition_frame id e (onMemberJoined id w))
        as (_&_&_&?&_&?&?).
      apply Hsettled; congruence.
    + destruct (updateSelection_frame id e (onMemberJoined id w))
        as (_&_&_&?&_&?&?).
      apply Hsettled; congruence.
    + destruct (updateContent_registries id e (onMemberJoined id w)) as (?&?&?).
      apply Hsettled; congruence.
    + by apply Hsettled.
Qed.

(** X6. Registering a participant is idempotent and does not depend on
    which path does it: a second join notification for the same id leaves
    the store as the first one left it, and so does a join notification
    that comes after a message of that sender. *)
Theorem onMemberJoined_idempotent (id : string) (w : World) :
  onMemberJoined id (onMemberJoined id w) = onMemberJoined id w
  ∧ ∀ d, onMemberJoined id (receiver (mkMessage (Some id) d) w)
         = receiver (mkMessage (Some id) d) w.
Proof. apply onMemberJoined_settled. Qed.

(** X7. A message that is not a [CodeSnippet] never touches the document:
    after a cursor-position message, a cursor-selection message or a
    message of any other type, from any sender or from none, the text and
    the version, the edits executed and the messages sent are as before. *)
Theorem other_messages_leave_document (w : World) (sender : option string)
    (p : ICursorPositionChangedEvent) (s : ICursorSelectionChangedEvent) (t : string) :
  (model (receiver (mkMessage sender (CursorPosition p)) w) = model w
   ∧ editLog (receiver (mkMessage sender (CursorPosition p)) w) = editLog w
   ∧ outbox (receiver (mkMessage sender (CursorPosition p)) w) = outbox w)
  ∧ (model (receiver (mkMessage sender (CursorSelection s)) w) = model w
     ∧ editLog (receiver (mkMessage sender (CursorSelection s)) w) = editLog w
     ∧ outbox (receiver (mkMessage sender (CursorSelection s)) w) = outbox w)
  ∧ (model (receiver (mkMessage sender (OtherMessage t)) w) = model w
     ∧ editLog (receiver (mkMessage sender (OtherMessage t)) w) = editLog w
     ∧ outbox (receiver (mkMessage sender (OtherMessage t)) w) = outbox w).
Proof.
  destruct sender as [id|]; [|by unfold receiver].
  rewrite !(receiver_joins _ id) by done. simpl.
  destruct (onMemberJoined_frame id w) as (Hm & Hlog & _ & _ & _ & Hout & _).
  destruct (updateCursorPosition_frame id p (onMemberJoined id w)) as (-> & -> & -> & _).
  destruct (updateSelection_frame id s (onMemberJoined id w)) as (-> & -> & -> & _).
  by split_and!.
Qed.

Lemma notification_inert (fuel : nat) (op : Op) (m : option ITextModel) :
  notification op = true →
  step fuel op (EditorContentManager_new m false) = Some (EditorContentManager_new m false).
Proof. by destruct op. Qed.

(** X8. A controller built without a channel does nothing at all:
    whatever the channel or the editor would deliver to it, and after its
    own [dispose], the store is the one the constructor left, with no
    overlay, no timer and nothing sent. *)
Theorem no_channel_inert (fuel : nat) (ops : list Op) (m : option ITextModel) (w : World) :
  forallb notification ops = true →
  run fuel ops (EditorContentManager_new m false) = Some w →
  w = EditorContentManager_new m false.
Proof.
  induction ops as [|op ops IH]; simpl; intros Hall Hrun.
  - by injection Hrun as <-.
  - apply andb_true_iff in Hall as [Hop Hall].
    rewrite (notification_inert fuel op m Hop) in Hrun. simpl in Hrun. by apply IH.
Qed.

Lemma echoes_unsubscribed (t : string) (v : Z) (cur : ISelection)
    (cs : list IModelContentChange) :
  forallb (λ d, negb (isCodeSnippet d)) (echoes false t v cur cs) = true.
Proof.
  revert t v cur. induction cs as [|ch cs IH]; intros t v cur; simpl; [done|].
  destruct (editChanges _ _ _); [|apply IH].
  rewrite forallb_app, IH, andb_true_r.
  by destruct (cursorAfterEdit _ _ _ _).
Qed.

(** X9. [dispose] of the controller stops one thing only, the sending of
    content changes.  Afterwards a local edit sends no [CodeSnippet]
    message, only the position and the selection of the cursor when the
    edit changes the document and moves the cursor; a content-change event
    sends nothing; cursor and selection events are still sent; and remote
    edits are still applied, the messages they cause being those of a
    controller that is not subscribed: no [CodeSnippet] among them. *)
Theorem dispose_stops_content_only (w : World) (m : ITextModel) (fuel : nat) :
  model w = Some m →
  channel w = true →
  let wd := EditorContentManager_dispose w in
  (∀ r t, outbox <$> step fuel (LocalEdit r t) wd
          = Some (outbox w
                  ++ (if editChanges (getValue m) r t
                      then cursorMessages
                             (cursorAfterEdit (localCursor w) (getValue m) r t)
                      else [])))
  ∧ (∀ e, step fuel (ContentChanged e) wd = Some wd)
  ∧ (∀ e, outbox <$> step fuel (CursorMoved e) wd = Some (outbox w ++ [CursorPosition e]))
  ∧ (∀ e, outbox <$> step fuel (SelectionChanged e) wd
          = Some (outbox w ++ [CursorSelection e]))
  ∧ (∀ id e, getVersionId m < versionId e →
       editLog <$> step fuel (Receive (mkMessage (Some id) (CodeSnippet e))) wd
       = Some (editLog w ++ map (λ ch, loggedEdit (id, ch)) (changes e))
       ∧ outbox <$> step fuel (Receive (mkMessage (Some id) (CodeSnippet e))) wd
         = Some (outbox w
                 ++ echoes false (getValue m) (getVersionId m) (localCursor w) (changes e))
       ∧ forallb (λ d, negb (isCodeSnippet d))
           (echoes false (getValue m) (getVersionId m) (localCursor w) (changes e))
         = true).
Proof.
  intros Hm Hch wd. subst wd. unfold EditorContentManager_dispose. split_and!.
  - intros r t. simpl.
    destruct (executeEdits_effect "keyboard" r t (set_contentListener false w) m Hm)
      as (_ & _ & _ & _ & Hrest). simpl in Hrest.
    destruct (editChanges (getValue m) r t).
    + destruct Hrest as (_ & -> & _). by rewrite Hch.
    + destruct Hrest as (_ & -> & _). by rewrite app_nil_r.
  - done.
  - intros e. simpl. rewrite Hch.
    unfold editorCursorPositionChangeListener, sendMessage. simpl. by rewrite Hch.
  - intros e. simpl. rewrite Hch.
    unfold editorCursorSelectionChangedListener, sendMessage. simpl. by rewrite Hch.
  - intros id e Hlt. simpl. rewrite Hch.
    rewrite (receiver_joins _ id) by done. simpl.
    set (w0 := set_contentListener false w).
    destruct (onMemberJoined_frame id w0) as (Hm' & Hlog & _ & _ & _ & Hout & Hch' & Hl' & _).
    unfold updateContent. rewrite Hm'. simpl. rewrite Hm.
    apply Z.leb_gt in Hlt. rewrite Hlt.
    rewrite (applyChanges_editLog id _ _ m) by (rewrite Hm'; exact Hm).
    rewrite (applyChanges_outbox id _ _ m) by (rewrite ?Hm', ?Hch'; done).
    rewrite Hl', Hlog, Hout, onMemberJoined_localCursor. simpl.
    split_and!; [done..|]. apply echoes_unsubscribed.
Qed.

(** ** Edits of several changes, and edits delivered twice *)

Lemma applyChanges_model (id : string) (cs : list IModelContentChange) (w : World)
    (m : ITextModel) :
  model w = Some m →
  model (fold_left (applyChange id) cs w)
  = Some (mkModel (changedText (getValue m) cs)
            (getVersionId m + Z.of_nat (changesApplied (getValue m) cs))).
Proof.
  revert w m. induction cs as [|ch cs IH]; intros w m Hm; simpl.
  - rewrite Hm. destruct m. simpl. f_equal. f_equal. lia.
  - destruct (applyChange_effect id w ch m Hm) as (_ & _ & _ & Hrest).
    destruct (editChanges (getValue m) (toRange (range ch)) (text ch)).
    + destruct Hrest as (Hm1 & _). rewrite (IH _ _ Hm1). simpl. f_equal. f_equal. lia.
    + destruct Hrest as (Hm1 & _). by rewrite (IH _ _ Hm1).
Qed.

Lemma changesApplied_le (t : string) (cs : list IModelContentChange) :
  (changesApplied t cs ≤ length cs)%nat.
Proof.
  revert t. induction cs as [|ch cs IH]; intros t; simpl; [done|].
  destruct (editChanges _ _ _).
  - specialize (IH (applyEdit t (toRange (range ch)) (text ch))). lia.
  - specialize (IH t). lia.
Qed.

Lemma receiver_applies (id : string) (e : IModelContentChangedEvent) (w : World)
    (m : ITextModel) :
  model w = Some m → getVersionId m < versionId e →
  receiver (mkMessage (Some id) (CodeSnippet e)) w
  = fold_left (applyChange id) (changes e) (onMemberJoined id w).
Proof.
  intros Hm Hlt. rewrite (receiver_joins _ id) by done. simpl.
  destruct (onMemberJoined_frame id w) as (Hm' & _).
  unfold updateContent. rewrite Hm', Hm. apply Z.leb_gt in Hlt. by rewrite Hlt.
Qed.

Lemma receiver_drops (id : string) (e : IModelContentChangedEvent) (w : World)
    (m : ITextModel) :
  model w = Some m → versionId e ≤ getVersionId m →
  receiver (mkMessage (Some id) (CodeSnippet e)) w = onMemberJoined id w.
Proof.
  intros Hm Hle. rewrite (receiver_joins _ id) by done. simpl.
  destruct (onMemberJoined_frame id w) as (Hm' & _).
  unfold updateContent. rewrite Hm', Hm. apply Z.leb_le in Hle. by rewrite Hle.
Qed.

(** X10. An edit that is applied moves the document on by one version
    for each of its changes that changes the document, not to the version
    it carries: after a [CodeSnippet] message above the document's version,
    the text is the old one with the changes applied in order, those that
    change nothing being dropped, and the version is the old one plus the
    number of changes that were not dropped, which is at most the number of
    changes. *)
Theorem applied_edit_advances_by_changes (w : World) (m : ITextModel) (id : string)
    (e : IModelContentChangedEvent) :
  model w = Some m →
  getVersionId m < versionId e →
  model (receiver (mkMessage (Some id) (CodeSnippet e)) w)
  = Some (mkModel (changedText (getValue m) (changes e))
            (getVersionId m + Z.of_nat (changesApplied (getValue m) (changes e))))
  ∧ (changesApplied (getValue m) (changes e) ≤ length (changes e))%nat.
Proof.
  intros Hm Hlt. split; [|apply changesApplied_le].
  rewrite (receiver_applies id e w m Hm Hlt).
  apply applyChanges_model.
  by destruct (onMemberJoined_frame id w) as (-> & _).
Qed.

(** X11. Delivering an edit twice is the same as delivering it once,
    provided the version it carries is not further above the document's
    than it has changes that change the document (as when sender and
    receiver were at the same version and each change takes effect): the
    second delivery leaves the whole store as the first one left it. *)
Theorem duplicate_edit_is_dropped (w : World) (m : ITextModel) (id : string)
    (e : IModelContentChangedEvent) :
  model w = Some m →
  getVersionId m < versionId e →
  versionId e ≤ getVersionId m + Z.of_nat (changesApplied (getValue m) (changes e)) →
  receiver (mkMessage (Some id) (CodeSnippet e))
    (receiver (mkMessage (Some id) (CodeSnippet e)) w)
  = receiver (mkMessage (Some id) (CodeSnippet e)) w.
Proof.
  intros Hm Hlt Hle.
  set (w1 := receiver (mkMessage (Some id) (CodeSnippet e)) w).
  assert (Hm1 : model w1
                = Some (mkModel (changedText (getValue m) (changes e))
                          (getVersionId m
                           + Z.of_nat (changesApplied (getValue m) (changes e))))).
  { subst w1. rewrite (receiver_applies id e w m Hm Hlt).
    apply applyChanges_model.
    by destruct (onMemberJoined_frame id w) as (-> & _). }
  rewrite (receiver_drops id e w1 _ Hm1) by done.
  apply onMemberJoined_settled.
Qed.

(** ** Two controllers *)

(** X12. An edit made at one controller reaches a peer that is at the
    same text and version.  The edit is one that changes the document, and
    the change the editor reports for it is one that, applied to the same
    text, changes it in the same way.  Then the controller sends one
    [CodeSnippet] message with the change and the new version, followed by
    the position and the selection of its cursor if the edit has moved it;
    the peer that receives the [CodeSnippet] message ends at the same text
    and version; the peer sends in turn one [CodeSnippet] message with the
    same version (while its own content listener is subscribed) and its
    cursor if that has moved; and the first controller, receiving a
    [CodeSnippet] message with that version from anyone, keeps its document
    and executes no edit. *)
Theorem local_edit_reaches_peer (wa wb : World) (m : ITextModel) (a : string)
    (r : IRange) (t : string) :
  model wa = Some m → channel wa = true → contentListener wa = true →
  model wb = Some m → channel wb = true →
  let ch := changeOf (getValue m) r t in
  editChanges (getValue m) r t = true →
  editChanges (getValue m) (toRange (range ch)) (text ch) = true →
  applyEdit (getValue m) (toRange (range ch)) (text ch) = applyEdit (getValue m) r t →
  let sent := CodeSnippet (mkChanged [ch] (getVersionId m + 1)) in
  let wa' := executeEdits "keyboard" r t wa in
  let wb' := receiver (mkMessage (Some a) sent) wb in
  outbox wa'
  = outbox wa ++ [sent] ++ cursorMessages (cursorAfterEdit (localCursor wa) (getValue m) r t)
  ∧ model wb' = model wa'
  ∧ outbox wb'
    = outbox wb
      ++ (if contentListener wb
          then [CodeSnippet (mkChanged [changeOf (getValue m) (toRange (range ch)) (text ch)]
                               (getVersionId m + 1))]
          else [])
      ++ cursorMessages
           (cursorAfterEdit (localCursor wb) (getValue m) (toRange (range ch)) (text ch))
  ∧ ∀ b e, versionId e = getVersionId m + 1 →
           model (receiver (mkMessage (Some b) (CodeSnippet e)) wa') = model wa'
           ∧ editLog (receiver (mkMessage (Some b) (CodeSnippet e)) wa') = editLog wa'.
Proof.
  intros Hma Hca Hla Hmb Hcb ch Heff Heff' Hsame sent wa' wb'.
  destruct (executeEdits_effect "keyboard" r t wa m Hma) as (_ & _ & _ & _ & Hrest).
  rewrite Heff in Hrest. destruct Hrest as (Hma' & Houta & _).
  fold wa' in Hma', Houta. rewrite Hla, Hca in Houta.
  assert (Hlt : getVersionId m < getVersionId m + 1) by lia.
  assert (Hwb : wb' = applyChange a (onMemberJoined a wb) ch).
  { subst wb' sent. by rewrite (receiver_applies a _ wb m Hmb) by (simpl; lia). }
  destruct (onMemberJoined_frame a wb)
    as (Hmj & _ & _ & _ & _ & Hout & Hch & Hl & _).
  destruct (applyChange_effect a (onMemberJoined a wb) ch m) as (_ & _ & _ & Hrest);
    [congruence|].
  rewrite Heff' in Hrest. destruct Hrest as (Hmb' & Houtb & _).
  rewrite <- Hwb in Hmb', Houtb.
  split_and!.
  - exact Houta.
  - by rewrite Hmb', Hma', Hsame.
  - by rewrite Houtb, Hout, Hl, Hch, Hcb, onMemberJoined_localCursor.
  - intros b e He.
    rewrite (receiver_drops b e wa' _ Hma') by (simpl; lia).
    by destruct (onMemberJoined_frame b wa') as (-> & -> & _).
Qed.

(** ** Cursor and selection messages *)

Lemma onMemberJoined_selection (id : string) (w : World) :
  Inv w → channel w = true →
  ∃ s x, remoteSelections (onMemberJoined id w) !! id = Some s
         ∧ selections (onMemberJoined id w) !! s = Some x.
Proof.
  intros HI Hch.
  pose proof (Inv_onMemberJoined id w HI) as HJ.
  assert (∃ s, remoteSelections (onMemberJoined id w) !! id = Some s) as [s Hs].
  { unfold onMemberJoined, ifManager, addCursor, addSelection. rewrite Hch. simpl.
    destruct (cursorWidgets w !! id) eqn:Hreg; simpl; rewrite ?Hch;
      destruct (remoteSelections w !! id) eqn:Hsel; simpl;
      rewrite ?lookup_insert_eq; eauto. }
  destruct (inv_remoteSelections _ HJ _ _ Hs) as (x & Hx & _). eauto.
Qed.

Lemma setCursorOffset_as_position (id : string) (o : Z) (w : World) (m : ITextModel) :
  model w = Some m →
  setCursorOffset id o w = setCursorPosition id (getPositionAt (getValue m) o) w.
Proof.
  intros Hm. unfold setCursorOffset, setCursorPosition, RemoteCursorWidget_setOffset.
  by rewrite Hm.
Qed.

(** X13. A cursor-position message moves the cursor overlay of its
    sender: the position it carries is turned into an offset of the local
    document and back into a position, and the sender's cursor widget,
    which exists from then on if it did not before, is given that position
    and laid out. *)
Theorem cursor_message_places_cursor (w : World) (m : ITextModel) (id : string)
    (e : ICursorPositionChangedEvent) :
  Inv w →
  model w = Some m →
  channel w = true →
  let p := getPositionAt (getValue m) (getOffsetAt (getValue m) (position e)) in
  let w' := receiver (mkMessage (Some id) (CursorPosition e)) w in
  ∃ c x, cursorWidgets w' !! id = Some c ∧ cursors w' !! c = Some x
         ∧ cw_position x = Some p ∧ last (layouts w') = Some (c, p).
Proof.
  intros HI Hm Hch p w'. subst w'. rewrite (receiver_joins _ id) by done. simpl.
  destruct (onMemberJoined_frame id w) as (Hm' & _ & _ & _ & _ & _ & Hch' & _).
  destruct (onMemberJoined_cursor id w HI Hch) as (c & x & Hc & Hx).
  set (wj := onMemberJoined id w) in *.
  unfold updateCursorPosition, ifManager. rewrite Hm', Hm, Hch', Hch.
  rewrite (setCursorOffset_as_position id _ wj m) by congruence. fold p.
  destruct (setCursorPosition_effect id p wj c x Hc Hx)
    as (Hx' & Hlay & _ & _ & _ & _ & _ & Hcw).
  exists c, (cw_set_position (Some p) x). split_and!.
  - by rewrite Hcw.
  - exact Hx'.
  - done.
  - rewrite Hlay. apply last_snoc.
Qed.

(** X14. A cursor-selection message draws the selection overlay of its
    sender: the two ends of the selection it carries, taken in document
    order, are turned into offsets of the local document and back into
    positions, and the sender's selection, which exists from then on if it
    did not before, has these as its start and end and is drawn as one
    decoration over the range between them. *)
Theorem selection_message_draws_selection (w : World) (m : ITextModel) (id : string)
    (e : ICursorSelectionChangedEvent) :
  Inv w →
  model w = Some m →
  channel w = true →
  let sel := Selection_new (selectionStartLineNumber (selection e))
               (selectionStartColumn (selection e))
               (positionLineNumber (selection e)) (positionColumn (selection e)) in
  let a := getPositionAt (getValue m) (getOffsetAt (getValue m) (getStartPosition sel)) in
  let b := getPositionAt (getValue m) (getOffsetAt (getValue m) (getEndPosition sel)) in
  let w' := receiver (mkMessage (Some id) (CursorSelection e)) w in
  ∃ s x d, remoteSelections w' !! id = Some s ∧ selections w' !! s = Some x
           ∧ rs_startPosition x = Some (swapIfNeeded a b).1
           ∧ rs_endPosition x = Some (swapIfNeeded a b).2
           ∧ rs_decorations x = [d]
           ∧ decorations w' !! d
             = Some (mkDecoration (drawnRange a b) (rs_className x) (Some (rs_label x))).
Proof.
  intros HI Hm Hch sel a b w'. subst w'. rewrite (receiver_joins _ id) by done. simpl.
  destruct (onMemberJoined_frame id w) as (Hm' & _ & _ & _ & _ & _ & Hch' & _).
  destruct (onMemberJoined_selection id w HI Hch) as (s & x & Hs & Hx).
  set (wj := onMemberJoined id w) in *.
  unfold updateSelection, ifManager. rewrite Hm', Hm, Hch', Hch.
  fold sel. fold a. fold b.
  unfold setSelectionOffsets, RemoteSelection_setOffsets. rewrite Hs, Hm', Hm.
  fold a. fold b.
  destruct (selection_setPositions_frame s a b wj) as (_&_&_&_&_&_&Hrs&_).
  assert (Hmj : model wj = Some m) by congruence.
  destruct (setPositions_effect s x a b wj m Hx Hmj) as (Ha & Hb & _ & Hd & Hdec & _).
  unfold RemoteSelection_getStartPosition, RemoteSelection_getEndPosition in Ha, Hb.
  destruct (selections (RemoteSelection_setPositions s a b wj) !! s) as [x'|] eqn:Hx';
    [|done].
  simpl in Ha, Hb, Hd. injection Hd as Hd.
  assert (Hcn : rs_className x' = rs_className x ∧ rs_label x' = rs_label x).
  { revert Hx'. unfold RemoteSelection_setPositions, render. simpl.
    rewrite lookup_alter_eq, Hx. simpl.
    destruct (deltaDecorations _ _ _) as [ids w1] eqn:Hdd.
    pose proof (sameObjects_deltaDecorations (rs_decorations x)
                  [mkDecoration
                     (Range_new (lineNumber (swapIfNeeded a b).1)
                        (column (swapIfNeeded a b).1)
                        (lineNumber (swapIfNeeded a b).2)
                        (column (swapIfNeeded a b).2))
                     (rs_className x) (Some (rs_label x))]
                  (updSelection s
                     (rs_set_positions (Some (swapIfNeeded a b).1)
                        (Some (swapIfNeeded a b).2)) wj)) as (_ & Hsel & _).
    rewrite Hdd in Hsel. simpl in Hsel. simpl.
    rewrite lookup_alter_eq, Hsel, lookup_alter_eq, Hx. simpl.
    by intros [= <-]. }
  destruct Hcn as [Hcn Hlb].
  exists s, x', (nextDecoration wj). split_and!; try done.
  - by rewrite Hrs.
  - by rewrite Hdec, Hcn, Hlb.
Qed.

(** ** Invariants along every trace *)

(** A predicate that the stable operations, the two [add]s and the four
    ways of disposing preserve on well-formed stores is preserved by every
    step. *)
Section PreservedOperations.

Variable P : World → Prop.
Hypothesis HP : Stable P.
Hypothesis HaddC : ∀ u w, Inv w → P w → P (addCursor u w).2.
Hypothesis HaddS : ∀ u w, Inv w → P w → P (addSelection u w).2.
Hypothesis HremC : ∀ fuel id w w', Inv w → P w → removeCursor fuel id w = Some w' → P w'.
Hypothesis HremS : ∀ fuel id w w', Inv w → P w → removeSelection fuel id w = Some w' → P w'.
Hypothesis HdisC : ∀ fuel c w w', Inv w → P w → cursorDispose fuel c w = Some w' → P w'.
Hypothesis HdisS : ∀ fuel s w w', Inv w → P w → selectionDispose fuel s w = Some w' → P w'.

Lemma preserved_onMemberJoined (id : string) (w : World) :
  Inv w → P w → P (onMemberJoined id w).
Proof.
  intros HI Hw. unfold onMemberJoined, ifManager.
  destruct (channel w) eqn:Hch; [|by rewrite Hch].
  assert (Inv (addCursor (mkUser id "blue" ("User-" +:+ id)) w).2)
    by (by apply Inv_addCursor).
  assert (P (addCursor (mkUser id "blue" ("User-" +:+ id)) w).2) by (by apply HaddC).
  destruct (channel (addCursor _ w).2); [|done]. by apply HaddS.
Qed.

Lemma preserved_applyChange (id : string) (w : World) (ch : IModelContentChange) :
  P w → P (applyChange id w ch).
Proof.
  intros Hw. unfold applyChange.
  assert (P (executeEdits id (toRange (range ch)) (text ch) w)).
  { apply (stable_sameObjects _ HP w); [apply sameObjects_executeEdits | done]. }
  destruct (model _); [|done]. unfold ifManager.
  destruct (channel _); [|done]. by apply stable_setCursorPosition.
Qed.

Lemma preserved_receiver (msg : IMessage) (w : World) :
  Inv w → P w → P (receiver msg w).
Proof.
  intros HI Hw. destruct (message_uid msg) as [id|] eqn:Hid;
    [|unfold receiver; by rewrite Hid].
  rewrite (receiver_joins msg id) by done.
  pose proof (preserved_onMemberJoined id w HI Hw) as HJ.
  destruct (message msg) as [e|e|e|t]; [| | |done].
  - unfold updateCursorPosition, ifManager.
    destruct (model _); [|done]. destruct (channel _); [|done].
    by apply stable_setCursorOffset.
  - unfold updateSelection, ifManager.
    destruct (model _); [|done]. destruct (channel _); [|done].
    by apply stable_setSelectionOffsets.
  - unfold updateContent. destruct (model _); [|done].
    destruct (_ <=? _); [done|].
    revert HJ. generalize (onMemberJoined id w).
    induction (changes e) as [|ch l IH]; intros w0 H0; simpl; [done|].
    apply IH. by apply preserved_applyChange.
Qed.

Lemma preserved_step (fuel : nat) (op : Op) (w w' : World) :
  Inv w → P w → step fuel op w = Some w' → P w'.
Proof.
  intros HI Hw Hstep.
  destruct op; simpl in Hstep;
    try (injection Hstep as <-);
    try (destruct (channel w) eqn:Hch; [|try injection Hstep as <-; done]).
  - by apply preserved_receiver.
  - by apply preserved_onMemberJoined.
  - unfold onMemberLeft in Hstep. rewrite Hch in Hstep.
    destruct (removeCursor fuel memberId w) as [w1|] eqn:H1; [|done].
    simpl in Hstep.
    assert (H0 : Inv w1).
    { eapply Inv_removeCursor_body; [|exact H1|done]. intros ???. apply Inv_runCallback. }
    assert (Hw1 : P w1) by exact (HremC fuel memberId w w1 HI Hw H1).
    destruct (channel w1); [|by injection Hstep as <-].
    exact (HremS fuel memberId w1 w' H0 Hw1 Hstep).
  - unfold editorCursorPositionChangeListener. stable_solve HP.
  - unfold editorCursorSelectionChangedListener. stable_solve HP.
  - destruct (contentListener w); stable_solve HP.
  - stable_solve HP.
  - destruct (decide _); stable_solve HP.
  - by apply stable_fireTimer.
  - unfold EditorContentManager_dispose. stable_solve HP.
  - by apply HaddC.
  - exact (HremC fuel id w w' HI Hw Hstep).
  - by apply stable_setCursorPosition.
  - by apply stable_setCursorOffset.
  - unfold showCursor. destruct (cursorWidgets w !! id); [|done].
    by apply stable_cursor_show.
  - unfold hideCursor. destruct (cursorWidgets w !! id); [|done].
    by apply stable_cursor_hide.
  - by apply HaddS.
  - exact (HremS fuel id w w' HI Hw Hstep).
  - by apply stable_setSelectionOffsets.
  - unfold setSelectionPositions. destruct (remoteSelections w !! id); [|done].
    by apply stable_selection_setPositions.
  - unfold showSelection, RemoteSelection_show. destruct (remoteSelections w !! id); [|done].
    by apply stable_render.
  - unfold hideSelection. destruct (remoteSelections w !! id); [|done].
    by apply stable_selection_hide.
  - by apply stable_cursor_setPosition.
  - by apply stable_cursor_setOffset.
  - by apply stable_setPositionWithModelContentChange.
  - by apply stable_cursor_show.
  - by apply stable_cursor_hide.
  - exact (HdisC fuel c w w' HI Hw Hstep).
  - by apply stable_selection_setPositions.
  - by apply stable_selection_setOffsets.
  - by apply stable_render.
  - by apply stable_selection_hide.
  - exact (HdisS fuel s w w' HI Hw Hstep).
Qed.

Lemma preserved_run (fuel : nat) (ops : list Op) (w w' : World) :
  Inv w → P w → run fuel ops w = Some w' → P w'.
Proof.
  revert w. induction ops as [|op ops IH]; intros w HI Hw Hrun; simpl in Hrun.
  - by injection Hrun as <-.
  - destruct (step fuel op w) as [w1|] eqn:Hstep; [|done]. simpl in Hrun.
    eapply (IH w1); [by eapply Inv_step | by eapply preserved_step | done].
Qed.

End PreservedOperations.

(** *** Registered cursor widgets are live *)

Lemma cursorReleased_other (c c' : nat) (x : RemoteCursorWidget) (w : World) :
  c' ≠ c → cursors (cursorReleased c x w) !! c' = cursors w !! c'.
Proof.
  intros Hne. unfold cursorReleased.
  destruct (cw_scrollListener x); simpl; by rewrite !lookup_alter_ne.
Qed.

Lemma registeredLive_delete (id : string) (w : World) :
  registeredLiveBut id w →
  registeredLive (set_cursorWidgets (delete id (cursorWidgets w)) w).
Proof.
  intros Hl id' c Hc. simpl in Hc. apply lookup_delete_Some in Hc as [Hne Hc].
  by apply (Hl id' c).
Qed.

Lemma registeredLive_but (id : string) (w : World) :
  registeredLive w → registeredLiveBut id w.
Proof. intros Hl id' c _. apply Hl. Qed.

Lemma registeredLiveBut_cursorReleased (id : string) (c : nat) (x : RemoteCursorWidget)
    (w : World) :
  Inv w → cursors w !! c = Some x → cw_onDisposed x = CbRemoveCursor id →
  registeredLiveBut id w → registeredLiveBut id (cursorReleased c x w).
Proof.
  intros HI Hx Hcb Hl id' c' Hne Hc'.
  destruct (cursorReleased_registries c x w) as (Hreg & _). rewrite Hreg in Hc'.
  assert (c' ≠ c).
  { intros ->. destruct (inv_cursorWidgets w HI _ _ Hc') as (x' & Hx' & Hcb').
    congruence. }
  unfold RemoteCursorWidget_isDisposed. rewrite cursorReleased_other by done.
  by apply (Hl id' c').
Qed.

Lemma registeredLive_runCallback (fuel : nat) (cb : Callback) (w w' : World) :
  Inv w →
  runCallback fuel cb w = Some w' →
  match cb with
  | CbRemoveCursor id => registeredLiveBut id w
  | CbRemoveSelection _ => registeredLive w
  end →
  registeredLive w'.
Proof.
  revert cb w w'. induction fuel as [|n IH]; intros cb w w' HI Hrun Hl; [done|].
  destruct cb as [id|id]; simpl in Hrun.
  - unfold removeCursor_body in Hrun.
    destruct (cursorWidgets w !! id) as [c|] eqn:Hc; simpl in Hrun;
      [|injection Hrun as <-; by apply registeredLive_delete].
    destruct (RemoteCursorWidget_isDisposed c w) eqn:Hd; simpl in Hrun;
      [injection Hrun as <-; by apply registeredLive_delete|].
    unfold RemoteCursorWidget_isDisposed in Hd.
    destruct (inv_cursorWidgets w HI _ _ Hc) as (x & Hx & Hcb).
    rewrite Hx in Hd. rewrite (cursor_dispose_live _ c x) in Hrun by done.
    destruct (runCallback n _ _) as [w1|] eqn:Hrun1; [|done].
    simpl in Hrun. injection Hrun as <-.
    apply registeredLive_delete, registeredLive_but.
    rewrite Hcb in Hrun1.
    apply (IH _ _ _ (Inv_cursorReleased c x w Hx Hd HI) Hrun1).
    by apply registeredLiveBut_cursorReleased.
  - unfold removeSelection_body in Hrun.
    destruct (remoteSelections w !! id) as [s|] eqn:Hs; [|by injection Hrun as <-].
    destruct (RemoteSelection_isDisposed s w) eqn:Hd; simpl in Hrun;
      [by injection Hrun as <-|].
    unfold RemoteSelection_isDisposed in Hd.
    destruct (inv_remoteSelections w HI _ _ Hs) as (x & Hx & Hcb).
    rewrite Hx in Hd. rewrite (selection_dispose_live _ s x) in Hrun by done.
    rewrite Hcb in Hrun.
    apply (IH _ _ _ (Inv_selectionReleased s x w Hx Hd HI) Hrun).
    intros id' c Hc. unfold RemoteCursorWidget_isDisposed.
    destruct (selectionReleased_registries s x w) as (Hreg & _ & Hcs).
    rewrite Hreg in Hc. rewrite Hcs. exact (Hl id' c Hc).
Qed.

Lemma Stable_registeredLive : Stable registeredLive.
Proof.
  split.
  - intros w w' (Hc & _ & _ & Hcw & _) Hl id c. unfold RemoteCursorWidget_isDisposed.
    rewrite Hcw, Hc. apply Hl.
  - intros c f w Hf Hl id c' Hc'. specialize (Hl id c' Hc').
    unfold RemoteCursorWidget_isDisposed in *. simpl.
    destruct (decide (c = c')) as [->|Hne].
    + rewrite lookup_alter_eq. destruct (cursors w !! c') as [x|]; [|done].
      simpl. by destruct (Hf x) as (_ & -> & _).
    + by rewrite lookup_alter_ne.
  - intros s f w Hf Hl id c Hc. exact (Hl id c Hc).
Qed.

Lemma registeredLive_addCursor (u : IEditorUser) (w : World) :
  Inv w → registeredLive w → registeredLive (addCursor u w).2.
Proof.
  intros HI Hl. unfold addCursor.
  destruct (cursorWidgets w !! uid u) eqn:Hreg; [done|].
  intros id c. simpl. unfold RemoteCursorWidget_isDisposed. simpl.
  destruct (decide (uid u = id)) as [<-|Hne].
  - rewrite lookup_insert_eq. intros [= <-]. by rewrite lookup_insert_eq.
  - rewrite lookup_insert_ne by done. intros Hc.
    destruct (inv_cursorWidgets w HI _ _ Hc) as (x & Hx & _).
    destruct (inv_cursors w HI _ _ Hx) as (Hlt & _).
    rewrite lookup_insert_ne by lia. by apply (Hl id c).
Qed.

Lemma registeredLive_cursorDispose (fuel : nat) (c : nat) (w w' : World) :
  Inv w → registeredLive w → cursorDispose fuel c w = Some w' → registeredLive w'.
Proof.
  intros HI Hl Hrun. unfold cursorDispose in Hrun.
  destruct (RemoteCursorWidget_isDisposed c w) eqn:Hd.
  - rewrite cursor_dispose_disposed in Hrun by done. by injection Hrun as <-.
  - unfold RemoteCursorWidget_isDisposed in Hd.
    destruct (cursors w !! c) as [x|] eqn:Hx; [|done].
    rewrite (cursor_dispose_live _ c x) in Hrun by done.
    destruct (inv_cursors w HI _ _ Hx) as (_ & _ & id & Hcb).
    rewrite Hcb in Hrun.
    apply (registeredLive_runCallback _ _ _ _ (Inv_cursorReleased c x w Hx Hd HI) Hrun).
    apply registeredLiveBut_cursorReleased; [done..|]. by apply registeredLive_but.
Qed.

Lemma registeredLive_selectionDispose (fuel : nat) (s : nat) (w w' : World) :
  Inv w → registeredLive w → selectionDispose fuel s w = Some w' → registeredLive w'.
Proof.
  intros HI Hl Hrun. unfold selectionDispose in Hrun.
  destruct (RemoteSelection_isDisposed s w) eqn:Hd.
  - rewrite selection_dispose_disposed in Hrun by done. by injection Hrun as <-.
  - unfold RemoteSelection_isDisposed in Hd.
    destruct (selections w !! s) as [x|] eqn:Hx; [|done].
    rewrite (selection_dispose_live _ s x) in Hrun by done.
    destruct (inv_selections w HI _ _ Hx) as (_ & _ & id & Hcb).
    rewrite Hcb in Hrun.
    apply (registeredLive_runCallback _ _ _ _ (Inv_selectionReleased s x w Hx Hd HI) Hrun).
    intros id' c Hc. unfold RemoteCursorWidget_isDisposed.
    destruct (selectionReleased_registries s x w) as (Hreg & _ & Hcs).
    rewrite Hreg in Hc. rewrite Hcs. exact (Hl id' c Hc).
Qed.

Lemma registeredLive_run (fuel : nat) (ops : list Op) (w w' : World) :
  Inv w → registeredLive w → run fuel ops w = Some w' → registeredLive w'.
Proof.
  apply preserved_run.
  - apply Stable_registeredLive.
  - apply registeredLive_addCursor.
  - intros u w0 HI Hl id c. unfold addSelection, RemoteCursorWidget_isDisposed.
    destruct (remoteSelections w0 !! uid u); simpl; exact (Hl id c).
  - intros f id w0 w1 HI Hl Hrun.
    apply (registeredLive_runCallback (S f) (CbRemoveCursor id) w0 w1 HI Hrun).
    by apply registeredLive_but.
  - intros f id w0 w1 HI Hl Hrun.
    by apply (registeredLive_runCallback (S f) (CbRemoveSelection id) w0 w1 HI Hrun).
  - apply registeredLive_cursorDispose.
  - apply registeredLive_selectionDispose.
Qed.

(** X15. The cursor manager never holds a disposed widget: in every store
    the program can reach, the widget registered for an id is in the store
    and is not disposed, however its disposal came about (through
    [removeCursor], through a leave notification, or through [dispose] on
    the widget itself). *)
Theorem registered_cursors_are_live (fuel : nat) (ops : list Op) (m : option ITextModel)
    (tt : bool) (d : Z) (ch : bool) (w : World) (id : string) (c : nat) :
  run fuel ops (newWorld m tt d ch) = Some w →
  cursorWidgets w !! id = Some c →
  ∃ x, cursors w !! c = Some x ∧ cw_disposed x = false.
Proof.
  intros Hrun Hc.
  assert (Hl : registeredLive w).
  { eapply registeredLive_run; [apply Inv_newWorld | | exact Hrun].
    intros ? ?. simpl. by rewrite lookup_empty. }
  specialize (Hl id c Hc). unfold RemoteCursorWidget_isDisposed in Hl.
  destruct (cursors w !! c) as [x|]; [eauto | done].
Qed.

(** X16. No overlay is shared: in every store the program can reach, two
    ids registered to the same cursor widget, or to the same selection, are
    the same id. *)
Theorem overlays_not_shared (fuel : nat) (ops : list Op) (m : option ITextModel)
    (tt : bool) (d : Z) (ch : bool) (w : World) :
  run fuel ops (newWorld m tt d ch) = Some w →
  (∀ id1 id2 c, cursorWidgets w !! id1 = Some c → cursorWidgets w !! id2 = Some c →
                id1 = id2)
  ∧ (∀ id1 id2 s, remoteSelections w !! id1 = Some s → remoteSelections w !! id2 = Some s →
                  id1 = id2).
Proof.
  intros Hrun.
  assert (HI : Inv w) by (eapply Inv_run; [exact Hrun | apply Inv_newWorld]).
  split.
  - intros id1 id2 c H1 H2.
    destruct (inv_cursorWidgets w HI _ _ H1) as (x1 & Hx1 & Hcb1).
    destruct (inv_cursorWidgets w HI _ _ H2) as (x2 & Hx2 & Hcb2).
    congruence.
  - intros id1 id2 s H1 H2.
    destruct (inv_remoteSelections w HI _ _ H1) as (x1 & Hx1 & Hcb1).
    destruct (inv_remoteSelections w HI _ _ H2) as (x2 & Hx2 & Hcb2).
    congruence.
Qed.

(** X17. Nothing recurses without end: from the store the constructors
    leave, every trace of operations returns, with the nesting of
    [removeCursor], [removeSelection], [dispose] and the disposal callbacks
    never deeper than two. *)
Theorem operations_return (n : nat) (ops : list Op) (m : option ITextModel)
    (tt : bool) (d : Z) (ch : bool) :
  is_Some (run (S (S n)) ops (newWorld m tt d ch)).
Proof. apply run_total, Inv_newWorld. Qed.

(** ** Removing a registered cursor, and a participant who leaves *)

Lemma cursorReleased_frame (c : nat) (x : RemoteCursorWidget) (w : World) :
  contentWidgets (cursorReleased c x w) = filter (λ y, y ≠ c) (contentWidgets w)
  ∧ channel (cursorReleased c x w) = channel w
  ∧ model (cursorReleased c x w) = model w
  ∧ outbox (cursorReleased c x w) = outbox w
  ∧ decorations (cursorReleased c x w) = decorations w.
Proof. unfold cursorReleased. by destruct (cw_scrollListener x). Qed.

Lemma cursorReleased_widget (c : nat) (x : RemoteCursorWidget) (w : World) :
  cursors w !! c = Some x →
  ∃ x', cursors (cursorReleased c x w) !! c = Some x'
        ∧ cw_disposed x' = true
        ∧ cw_scrollListener x' ≠ Some true
        ∧ cw_onDisposedCalls x' = S (cw_onDisposedCalls x)
        ∧ cw_position x' = cw_position x.
Proof.
  intros Hx. unfold cursorReleased.
  destruct (cw_scrollListener x) eqn:Hs; simpl;
    rewrite ?lookup_alter_eq, Hx; simpl; eexists; split_and!; try done.
  simpl. by rewrite Hs.
Qed.

Lemma removeCursor_registered (n : nat) (id : string) (c : nat) (x : RemoteCursorWidget)
    (w : World) :
  Inv w → cursorWidgets w !! id = Some c → cursors w !! c = Some x →
  cw_disposed x = false →
  removeCursor (S n) id w
  = Some (set_cursorWidgets (delete id (cursorWidgets w)) (cursorReleased c x w)).
Proof.
  intros HI Hc Hx Hd. unfold removeCursor, removeCursor_body.
  rewrite Hc. unfold RemoteCursorWidget_isDisposed at 1. rewrite Hx, Hd. simpl.
  rewrite (cursor_dispose_live _ c x) by done.
  destruct (inv_cursorWidgets w HI _ _ Hc) as (x0 & Hx0 & Hcb).
  assert (x0 = x) by congruence. subst x0. rewrite Hcb.
  destruct (cursorReleased_registries c x w) as (Hreg & _).
  destruct (cursorReleased_lookup c x w Hx) as (x' & Hx' & Hd' & _).
  remember (cursorReleased c x w) as R eqn:HR. clear HR.
  unfold removeCursor_body. rewrite Hreg, Hc.
  unfold RemoteCursorWidget_isDisposed. rewrite Hx', Hd'. simpl.
  rewrite Hreg. f_equal. unfold set_cursorWidgets. simpl. f_equal.
  apply delete_id, lookup_delete_eq.
Qed.

(** X18. Removing a registered cursor, in any store the program can
    reach: [removeCursor] returns; the id is no longer registered and the
    other ids are registered as before; the widget is disposed, off the
    editor's content widgets, its scroll listener (if it had one) disposed
    and its disposal callback called exactly once; it keeps its position;
    and the selections, the document and the pending timers are as
    before. *)
Theorem removeCursor_releases_widget (fuel n : nat) (ops : list Op)
    (m : option ITextModel) (tt : bool) (d : Z) (ch : bool) (w : World)
    (id : string) (c : nat) :
  run fuel ops (newWorld m tt d ch) = Some w →
  cursorWidgets w !! id = Some c →
  ∃ w' x x',
    removeCursor (S n) id w = Some w'
    ∧ cursorWidgets w' = delete id (cursorWidgets w)
    ∧ cursors w !! c = Some x ∧ cursors w' !! c = Some x'
    ∧ cw_disposed x' = true
    ∧ (c ∉ contentWidgets w')
    ∧ cw_scrollListener x' ≠ Some true
    ∧ cw_onDisposedCalls x' = 1%nat
    ∧ cw_position x' = cw_position x
    ∧ selections w' = selections w ∧ remoteSelections w' = remoteSelections w
    ∧ model w' = model w ∧ timers w' = timers w.
Proof.
  intros Hrun Hc.
  assert (HI : Inv w) by (eapply Inv_run; [exact Hrun | apply Inv_newWorld]).
  assert (Hl : registeredLive w).
  { eapply registeredLive_run; [apply Inv_newWorld | | exact Hrun].
    intros ? ?. simpl. by rewrite lookup_empty. }
  specialize (Hl id c Hc). unfold RemoteCursorWidget_isDisposed in Hl.
  destruct (cursors w !! c) as [x|] eqn:Hx; [|done].
  destruct (cursorReleased_widget c x w Hx) as (x' & Hx' & Hd' & Hsl & Hcalls & Hpos).
  destruct (cursorReleased_registries c x w) as (_ & Hrs & Hsel & Htm).
  destruct (cursorReleased_frame c x w) as (Hcw & _ & Hm & _).
  destruct (inv_cursors w HI _ _ Hx) as (_ & Hzero & _). rewrite Hl in Hzero.
  exists (set_cursorWidgets (delete id (cursorWidgets w)) (cursorReleased c x w)), x, x'.
  split_and!; try done.
  - by apply removeCursor_registered.
  - change (c ∉ contentWidgets (cursorReleased c x w)).
    rewrite Hcw. intros Hin. apply list_elem_of_filter in Hin as [Hne _]. done.
  - by rewrite Hcalls, Hzero.
Qed.

Lemma selectionReleased_channel (s : nat) (x : RemoteSelection) (w : World) :
  channel (selectionReleased s x w) = channel w.
Proof.
  unfold selectionReleased, RemoteSelection_hide, deltaDecorations. simpl.
  repeat case_match; simplify_eq; by simpl.
Qed.

(** No disposal callback changes whether there is a channel, and none
    registers a cursor. *)
Lemma runCallback_channel (fuel : nat) (cb : Callback) (w w' : World) :
  runCallback fuel cb w = Some w' →
  channel w' = channel w
  ∧ ∀ id, cursorWidgets w !! id = None → cursorWidgets w' !! id = None.
Proof.
  revert cb w w'. induction fuel as [|n IH]; intros cb w w' Hrun; [done|].
  destruct cb as [id|id]; simpl in Hrun.
  - unfold removeCursor_body in Hrun.
    assert (Hdel : ∀ w0 id', cursorWidgets w0 !! id' = None →
              cursorWidgets (set_cursorWidgets (delete id (cursorWidgets w0)) w0) !! id'
              = None).
    { intros w0 id' Hn. simpl. apply lookup_delete_None. by right. }
    destruct (cursorWidgets w !! id) as [c|]; simpl in Hrun;
      [|injection Hrun as <-; split; [done | apply Hdel]].
    destruct (RemoteCursorWidget_isDisposed c w) eqn:Hd; simpl in Hrun;
      [injection Hrun as <-; split; [done | apply Hdel]|].
    unfold RemoteCursorWidget_isDisposed in Hd.
    destruct (cursors w !! c) as [x|] eqn:Hx; [|done].
    rewrite (cursor_dispose_live _ c x) in Hrun by done.
    destruct (runCallback n _ _) as [w1|] eqn:Hcb; [|done].
    simpl in Hrun. injection Hrun as <-.
    destruct (IH _ _ _ Hcb) as [Hch Hsub].
    destruct (cursorReleased_frame c x w) as (_ & Hch0 & _).
    destruct (cursorReleased_registries c x w) as (Hreg & _).
    split; [simpl; congruence|].
    intros id' Hn. apply Hdel, Hsub. by rewrite Hreg.
  - unfold removeSelection_body in Hrun.
    destruct (remoteSelections w !! id) as [s|]; [|by injection Hrun as <-].
    destruct (RemoteSelection_isDisposed s w) eqn:Hd; simpl in Hrun;
      [by injection Hrun as <-|].
    unfold RemoteSelection_isDisposed in Hd.
    destruct (selections w !! s) as [x|] eqn:Hx; [|done].
    rewrite (selection_dispose_live _ s x) in Hrun by done.
    destruct (IH _ _ _ Hrun) as [Hch Hsub].
    destruct (selectionReleased_registries s x w) as (Hreg & _).
    split; [by rewrite Hch, selectionReleased_channel|].
    intros id' Hn. apply Hsub. by rewrite Hreg.
Qed.

(** X19. A participant who leaves, in any store that a controller with a
    channel can reach: the leave notification returns, the cursor registry
    has no entry for the participant any more, and the cursor widget and
    the selection that were registered for the participant are both
    disposed. *)
Theorem member_left_disposes_overlays (fuel n : nat) (ops : list Op)
    (m : option ITextModel) (tt : bool) (d : Z) (ch : bool) (w : World) (id : string) :
  run fuel ops (newWorld m tt d ch) = Some w →
  channel w = true →
  ∃ w', onMemberLeft (S (S n)) id w = Some w'
        ∧ cursorWidgets w' !! id = None
        ∧ (∀ c, cursorWidgets w !! id = Some c →
                RemoteCursorWidget_isDisposed c w' = true)
        ∧ (∀ s, remoteSelections w !! id = Some s →
                RemoteSelection_isDisposed s w' = true).
Proof.
  intros Hrun Hch.
  assert (HI : Inv w) by (eapply Inv_run; [exact Hrun | apply Inv_newWorld]).
  destruct (removeCursor_removes (S n) id w HI) as (w1 & H1 & Hnone & Hdisp).
  assert (HI1 : Inv w1).
  { eapply Inv_removeCursor_body; [|exact H1|done]. intros ???. apply Inv_runCallback. }
  destruct (runCallback_channel (S (S (S n))) (CbRemoveCursor id) w w1 H1) as [Hch1 _].
  destruct (runCallback_frame (S (S (S n))) (CbRemoveCursor id) w w1 H1) as [Hrs1 _].
  destruct (removeSelection_total (S n) id w1 HI1) as [w' H2].
  destruct (runCallback_channel (S (S (S n))) (CbRemoveSelection id) w1 w' H2)
    as [_ Hsub].
  destruct (staysDisposed_runCallback (S (S (S n))) (CbRemoveSelection id) w1 w' H2)
    as [HdC HdS].
  exists w'. split_and!.
  - unfold onMemberLeft. rewrite Hch, H1. simpl. by rewrite Hch1, Hch.
  - by apply Hsub.
  - intros c Hc. by apply HdC, Hdisp.
  - intros s Hs. rewrite <- Hrs1 in Hs.
    unfold removeSelection, removeSelection_body in H2. rewrite Hs in H2.
    destruct (RemoteSelection_isDisposed s w1) eqn:Hd; simpl in H2.
    + by injection H2 as <-.
    + eapply staysDisposed_selection_dispose; [|exact H2].
      intros cb w0 w2 Hcb. by apply (staysDisposed_runCallback (S (S n)) cb).
Qed.

(** ** Timers along every trace *)

Lemma deltaDecorations_timed (old : list nat) (new : list IModelDecoration) (w : World) :
  cursors (deltaDecorations old new w).2 = cursors w
  ∧ timers (deltaDecorations old new w).2 = timers w
  ∧ nextTimer (deltaDecorations old new w).2 = nextTimer w.
Proof.
  unfold deltaDecorations. destruct (model w); [|done].
  by destruct (freshDecorations _ _ _).
Qed.

Ltac keeps :=
  let x := fresh "x" in
  intros x; try destruct (cw_tooltipNode x); reflexivity.

(** Chains the closure properties of a timed predicate along the
    definition of an operation. *)
Ltac timed_step HP :=
  match goal with
  | |- _ => assumption
  | |- _ (updCursor _ _ _) => apply (timed_updCursor _ HP); [keeps|]
  | |- _ (updSelection _ _ ?w) => apply (timed_same _ HP w); [done..|]
  | |- _ (set_model _ ?w) => apply (timed_same _ HP w); [done..|]
  | |- _ (set_contentWidgets _ ?w) => apply (timed_same _ HP w); [done..|]
  | |- _ (set_decorations _ _ ?w) => apply (timed_same _ HP w); [done..|]
  | |- _ (set_editLog _ ?w) => apply (timed_same _ HP w); [done..|]
  | |- _ (set_contentListener _ ?w) => apply (timed_same _ HP w); [done..|]
  | |- _ (set_outbox _ ?w) => apply (timed_same _ HP w); [done..|]
  | |- _ (set_layouts _ ?w) => apply (timed_same _ HP w); [done..|]
  | |- _ (set_localCursor _ ?w) => apply (timed_same _ HP w); [done..|]
  | |- _ (set_cursorWidgets _ ?w) => apply (timed_same _ HP w); [done..|]
  | |- _ (set_remoteSelections _ ?w) => apply (timed_same _ HP w); [done..|]
  | |- _ (set_nextRef _ ?w) => apply (timed_same _ HP w); [done..|]
  | |- _ (set_selections _ ?w) => apply (timed_same _ HP w); [done..|]
  | |- context [deltaDecorations ?o ?n ?w] =>
      let H := fresh "Hdd" in
      pose proof (deltaDecorations_timed o n w) as H;
      destruct (deltaDecorations o n w) as [? ?]; simpl in H;
      destruct H as (? & ? & ?)
  | |- context [match ?x with _ => _ end] => destruct x eqn:?
  end.

Ltac timed_solve HP := simpl; repeat (timed_step HP; simpl).

Section TimedOperations.

Variable P : World → Prop.
Hypothesis HP : Timed P.

Lemma timed_updatePosition (c : nat) (p : IPosition) (w : World) :
  P w → P (updatePosition c p w).
Proof. intros. unfold updatePosition. timed_solve HP. Qed.

Lemma timed_cursor_setPosition (c : nat) (p : IPosition) (w : World) :
  P w → P (RemoteCursorWidget_setPosition c p w).
Proof.
  intros. unfold RemoteCursorWidget_setPosition.
  pose proof (timed_updatePosition c p w) as Hu.
  destruct (cursors _ !! c) as [x|]; [|auto].
  destruct (cw_tooltipNode x); [|auto]. apply (timed_setTimeout _ HP). auto.
Qed.

Lemma timed_cursor_setOffset (c : nat) (o : Z) (w : World) :
  P w → P (RemoteCursorWidget_setOffset c o w).
Proof.
  intros. unfold RemoteCursorWidget_setOffset.
  destruct (model w); [by apply timed_cursor_setPosition | done].
Qed.

Lemma timed_render (s : nat) (w : World) : P w → P (render s w).
Proof.
  intros. unfold render. timed_solve HP.
  match goal with
  | H1 : cursors ?w1 = cursors w |- P ?w1 => apply (timed_same _ HP w); done
  end.
Qed.

Lemma timed_selection_hide (s : nat) (w : World) : P w → P (RemoteSelection_hide s w).
Proof.
  intros. unfold RemoteSelection_hide. timed_solve HP.
  match goal with
  | H1 : cursors ?w1 = cursors w |- P ?w1 => apply (timed_same _ HP w); done
  end.
Qed.

Lemma timed_selection_setPositions (s : nat) (a b : IPosition) (w : World) :
  P w → P (RemoteSelection_setPositions s a b w).
Proof.
  intros. unfold RemoteSelection_setPositions. apply timed_render. timed_solve HP.
Qed.

Lemma timed_selection_setOffsets (s : nat) (a b : Z) (w : World) :
  P w → P (RemoteSelection_setOffsets s a b w).
Proof.
  intros. unfold RemoteSelection_setOffsets.
  destruct (model w); [by apply timed_selection_setPositions | done].
Qed.

Lemma timed_addSelection (u : IEditorUser) (w : World) : P w → P (addSelection u w).2.
Proof.
  intros. unfold addSelection, RemoteSelection_new.
  destruct (remoteSelections w !! uid u); [done|]. timed_solve HP.
Qed.

Lemma timed_setCursorPosition (id : string) (p : IPosition) (w : World) :
  P w → P (setCursorPosition id p w).
Proof.
  intros. unfold setCursorPosition.
  destruct (cursorWidgets w !! id); [by apply timed_cursor_setPosition | done].
Qed.

Lemma timed_setCursorOffset (id : string) (o : Z) (w : World) :
  P w → P (setCursorOffset id o w).
Proof.
  intros. unfold setCursorOffset.
  destruct (cursorWidgets w !! id); [by apply timed_cursor_setOffset | done].
Qed.

Lemma timed_setSelectionOffsets (id : string) (a b : Z) (w : World) :
  P w → P (setSelectionOffsets id a b w).
Proof.
  intros. unfold setSelectionOffsets.
  destruct (remoteSelections w !! id); [by apply timed_selection_setOffsets | done].
Qed.

Lemma timed_cursorReleased (c : nat) (x : RemoteCursorWidget) (w : World) :
  P w → P (cursorReleased c x w).
Proof. intros. unfold cursorReleased, removeContentWidget. timed_solve HP. Qed.

Lemma timed_selectionReleased (s : nat) (x : RemoteSelection) (w : World) :
  P w → P (selectionReleased s x w).
Proof.
  intros. unfold selectionReleased.
  timed_solve HP; apply timed_selection_hide; timed_solve HP.
Qed.

Lemma timed_runCallback (fuel : nat) (cb : Callback) (w w' : World) :
  runCallback fuel cb w = Some w' → P w → P w'.
Proof.
  revert cb w w'. induction fuel as [|n IH]; intros cb w w' Hrun Hw; [done|].
  destruct cb as [id|id]; simpl in Hrun.
  - unfold removeCursor_body in Hrun.
    destruct (cursorWidgets w !! id) as [c|]; simpl in Hrun;
      [|injection Hrun as <-; timed_solve HP].
    destruct (RemoteCursorWidget_isDisposed c w) eqn:Hd; simpl in Hrun;
      [injection Hrun as <-; timed_solve HP|].
    unfold RemoteCursorWidget_isDisposed in Hd.
    destruct (cursors w !! c) as [x|] eqn:Hx; [|done].
    rewrite (cursor_dispose_live _ c x) in Hrun by done.
    destruct (runCallback n _ _) as [w1|] eqn:Hcb; [|done].
    simpl in Hrun. injection Hrun as <-.
    assert (P w1) by (eapply IH; [exact Hcb | by apply timed_cursorReleased]).
    timed_solve HP.
  - unfold removeSelection_body in Hrun.
    destruct (remoteSelections w !! id) as [s|]; [|by injection Hrun as <-].
    destruct (RemoteSelection_isDisposed s w) eqn:Hd; simpl in Hrun;
      [by injection Hrun as <-|].
    unfold RemoteSelection_isDisposed in Hd.
    destruct (selections w !! s) as [x|] eqn:Hx; [|done].
    rewrite (selection_dispose_live _ s x) in Hrun by done.
    eapply IH; [exact Hrun | by apply timed_selectionReleased].
Qed.

Lemma timed_cursorDispose (fuel : nat) (c : nat) (w w' : World) :
  cursorDispose fuel c w = Some w' → P w → P w'.
Proof.
  intros Hrun Hw. unfold cursorDispose in Hrun.
  destruct (RemoteCursorWidget_isDisposed c w) eqn:Hd.
  - rewrite cursor_dispose_disposed in Hrun by done. by injection Hrun as <-.
  - unfold RemoteCursorWidget_isDisposed in Hd.
    destruct (cursors w !! c) as [x|] eqn:Hx; [|done].
    rewrite (cursor_dispose_live _ c x) in Hrun by done.
    eapply timed_runCallback; [exact Hrun | by apply timed_cursorReleased].
Qed.

Lemma timed_selectionDispose (fuel : nat) (s : nat) (w w' : World) :
  selectionDispose fuel s w = Some w' → P w → P w'.
Proof.
  intros Hrun Hw. unfold selectionDispose in Hrun.
  destruct (RemoteSelection_isDisposed s w) eqn:Hd.
  - rewrite selection_dispose_disposed in Hrun by done. by injection Hrun as <-.
  - unfold RemoteSelection_isDisposed in Hd.
    destruct (selections w !! s) as [x|] eqn:Hx; [|done].
    rewrite (selection_dispose_live _ s x) in Hrun by done.
    eapply timed_runCallback; [exact Hrun | by apply timed_selectionReleased].
Qed.

Lemma timed_onMemberJoined (id : string) (w : World) :
  Inv w → P w → P (onMemberJoined id w).
Proof.
  intros HI Hw. unfold onMemberJoined, ifManager.
  destruct (channel w) eqn:Hch; [|by rewrite Hch].
  assert (P (addCursor (mkUser id "blue" ("User-" +:+ id)) w).2)
    by (by apply (timed_addCursor _ HP)).
  destruct (channel (addCursor _ w).2); [|done]. by apply timed_addSelection.
Qed.

Lemma timed_sendMessage (d : IMessageData) (w : World) : P w → P (sendMessage d w).
Proof. intros. unfold sendMessage. timed_solve HP. Qed.

Lemma timed_sendCodeSnippet (e : IModelContentChangedEvent) (w : World) :
  P w → P (sendCodeSnippet e w).
Proof.
  intros. unfold sendCodeSnippet. destruct (model w); [|done].
  destruct (_ <? _); [done | by apply timed_sendMessage].
Qed.

Lemma timed_cursorStateChanged (s : ISelection) (w : World) :
  P w → P (cursorStateChanged s w).
Proof.
  intros. unfold cursorStateChanged, editorCursorSelectionChangedListener,
    editorCursorPositionChangeListener.
  do 2 apply timed_sendMessage. timed_solve HP.
Qed.

Lemma timed_executeEdits (src : string) (r : IRange) (t : string) (w : World) :
  P w → P (executeEdits src r t w).
Proof.
  intros Hw. unfold executeEdits. destruct (model w) as [m|]; [|done].
  destruct (editChanges _ _ _); [|timed_solve HP].
  cbn zeta. set (w1 := set_model _ _).
  assert (H1 : P w1) by (subst w1; timed_solve HP).
  assert (H2 : ∀ e, P (if contentListener w1 then sendCodeSnippet e w1 else w1)).
  { intros e. destruct (contentListener w1); [by apply timed_sendCodeSnippet | done]. }
  destruct (cursorAfterEdit _ _ _ _); [apply timed_cursorStateChanged|]; apply H2.
Qed.

Lemma timed_applyChange (id : string) (w : World) (ch : IModelContentChange) :
  P w → P (applyChange id w ch).
Proof.
  intros Hw. unfold applyChange.
  pose proof (timed_executeEdits id (toRange (range ch)) (text ch) w Hw).
  destruct (model _); [|done]. unfold ifManager.
  destruct (channel _); [|done]. by apply timed_setCursorPosition.
Qed.

Lemma timed_receiver (msg : IMessage) (w : World) : Inv w → P w → P (receiver msg w).
Proof.
  intros HI Hw. destruct (message_uid msg) as [id|] eqn:Hid;
    [|unfold receiver; by rewrite Hid].
  rewrite (receiver_joins msg id) by done.
  pose proof (timed_onMemberJoined id w HI Hw) as HJ.
  destruct (message msg) as [e|e|e|t]; [| | |done].
  - unfold updateCursorPosition, ifManager.
    destruct (model _); [|done]. destruct (channel _); [|done].
    by apply timed_setCursorOffset.
  - unfold updateSelection, ifManager.
    destruct (model _); [|done]. destruct (channel _); [|done].
    by apply timed_setSelectionOffsets.
  - unfold updateContent. destruct (model _); [|done].
    destruct (_ <=? _); [done|].
    revert HJ. generalize (onMemberJoined id w).
    induction (changes e) as [|ch l IH]; intros w0 H0; simpl; [done|].
    apply IH. by apply timed_applyChange.
Qed.

Lemma timed_step_preserved (fuel : nat) (op : Op) (w w' : World) :
  Inv w → P w → step fuel op w = Some w' → P w'.
Proof.
  intros HI Hw Hstep.
  destruct op; simpl in Hstep;
    try (injection Hstep as <-);
    try (destruct (channel w) eqn:Hch; [|try injection Hstep as <-; done]).
  - by apply timed_receiver.
  - by apply timed_onMemberJoined.
  - unfold onMemberLeft in Hstep. rewrite Hch in Hstep.
    destruct (removeCursor fuel memberId w) as [w1|] eqn:H1; [|done].
    simpl in Hstep.
    assert (Hw1 : P w1) by exact (timed_runCallback (S fuel) (CbRemoveCursor memberId) w w1 H1 Hw).
    destruct (channel w1); [|by injection Hstep as <-].
    exact (timed_runCallback (S fuel) (CbRemoveSelection memberId) w1 w' Hstep Hw1).
  - by apply timed_sendMessage.
  - by apply timed_sendMessage.
  - destruct (contentListener w); [by apply timed_sendCodeSnippet | done].
  - by apply timed_executeEdits.
  - destruct (decide _); [done | by apply timed_cursorStateChanged].
  - by apply (timed_fireTimer _ HP).
  - unfold EditorContentManager_dispose. timed_solve HP.
  - by apply (timed_addCursor _ HP).
  - exact (timed_runCallback (S fuel) (CbRemoveCursor id) w w' Hstep Hw).
  - by apply timed_setCursorPosition.
  - by apply timed_setCursorOffset.
  - unfold showCursor, RemoteCursorWidget_show. timed_solve HP.
  - unfold hideCursor, RemoteCursorWidget_hide. timed_solve HP.
  - by apply timed_addSelection.
  - exact (timed_runCallback (S fuel) (CbRemoveSelection id) w w' Hstep Hw).
  - by apply timed_setSelectionOffsets.
  - unfold setSelectionPositions. destruct (remoteSelections w !! id); [|done].
    by apply timed_selection_setPositions.
  - unfold showSelection, RemoteSelection_show. destruct (remoteSelections w !! id); [|done].
    by apply timed_render.
  - unfold hideSelection. destruct (remoteSelections w !! id); [|done].
    by apply timed_selection_hide.
  - by apply timed_cursor_setPosition.
  - by apply timed_cursor_setOffset.
  - unfold setPositionWithModelContentChange. destruct (model w); [|done].
    by apply timed_updatePosition.
  - unfold RemoteCursorWidget_show. timed_solve HP.
  - unfold RemoteCursorWidget_hide. timed_solve HP.
  - by eapply timed_cursorDispose.
  - by apply timed_selection_setPositions.
  - by apply timed_selection_setOffsets.
  - by apply timed_render.
  - by apply timed_selection_hide.
  - by eapply timed_selectionDispose.
Qed.

Lemma timed_run (fuel : nat) (ops : list Op) (w w' : World) :
  Inv w → P w → run fuel ops w = Some w' → P w'.
Proof.
  revert w. induction ops as [|op ops IH]; intros w HI Hw Hrun; simpl in Hrun.
  - by injection Hrun as <-.
  - destruct (step fuel op w) as [w1|] eqn:Hstep; [|done]. simpl in Hrun.
    eapply (IH w1); [by eapply Inv_step | by eapply timed_step_preserved | done].
Qed.

End TimedOperations.

(** *** The pending timers are well formed *)

Lemma TimersOk_clearTimeout (t : nat) (w : World) :
  TimersOk w → TimersOk (clearTimeout t w).
Proof.
  intros [T1 T2 T3]. split; simpl.
  - intros y Hy. apply list_elem_of_filter in Hy as [_ Hy]. by apply T1.
  - eapply sublist_NoDup; [exact T2|]. apply fmap_sublist, sublist_filter.
  - intros t' d c Hin. apply list_elem_of_filter in Hin as [_ Hin]. by eapply T3.
Qed.

Lemma TimersOk_updCursor (c : nat) (f : RemoteCursorWidget → RemoteCursorWidget)
    (w : World) :
  keepsHideTimer f → TimersOk w → TimersOk (updCursor c f w).
Proof.
  intros Hf [T1 T2 T3]. split; simpl; [done..|].
  intros t d c' Hin. destruct (T3 t d c' Hin) as (x & Hx & Ht).
  destruct (decide (c = c')) as [->|Hne].
  - exists (f x). rewrite lookup_alter_eq, Hx. split; [done|]. by rewrite Hf.
  - exists x. by rewrite lookup_alter_ne.
Qed.

Lemma TimersOk_setTimeout_show (c : nat) (d : Z) (w : World) :
  TimersOk w → TimersOk (setTimeout (TShowTooltip c) d w).2.
Proof.
  intros [T1 T2 T3]. split; simpl.
  - intros y Hy. apply elem_of_app in Hy as [Hy|Hy].
    + specialize (T1 y Hy). lia.
    + apply list_elem_of_singleton in Hy as ->. simpl. lia.
  - rewrite fmap_app. apply NoDup_app. split_and!; [done| |apply NoDup_singleton].
    intros t Ht Hn. simpl in Hn. apply list_elem_of_singleton in Hn as ->.
    apply list_elem_of_fmap in Ht as (y & Hy1 & Hy). specialize (T1 y Hy). lia.
  - intros t d' c' Hin. apply elem_of_app in Hin as [Hin|Hin]; [by eapply T3|].
    by apply list_elem_of_singleton in Hin.
Qed.

(** Arming the auto-hide timer of a widget that has none pending. *)
Lemma TimersOk_arm (c : nat) (d : Z) (w : World) :
  TimersOk w → is_Some (cursors w !! c) →
  (∀ t d', (t, (d', THideTooltip c)) ∉ timers w) →
  TimersOk (updCursor c (cw_set_hideTimer (Some (nextTimer w)))
              (setTimeout (THideTooltip c) d w).2).
Proof.
  intros [T1 T2 T3] [x Hx] Hnone. split; simpl.
  - intros y Hy. apply elem_of_app in Hy as [Hy|Hy].
    + specialize (T1 y Hy). lia.
    + apply list_elem_of_singleton in Hy as ->. simpl. lia.
  - rewrite fmap_app. apply NoDup_app. split_and!; [done| |apply NoDup_singleton].
    intros t Ht Hn. simpl in Hn. apply list_elem_of_singleton in Hn as ->.
    apply list_elem_of_fmap in Ht as (y & Hy1 & Hy). specialize (T1 y Hy). lia.
  - intros t d' c' Hin. apply elem_of_app in Hin as [Hin|Hin].
    + destruct (decide (c = c')) as [->|Hne]; [by destruct (Hnone t d')|].
      destruct (T3 t d' c' Hin) as (x' & Hx' & Ht).
      exists x'. by rewrite lookup_alter_ne.
    + apply list_elem_of_singleton in Hin. injection Hin as -> -> ->.
      eexists. rewrite lookup_alter_eq, Hx. by split.
Qed.

Lemma TimersOk_showTooltip (c : nat) (w : World) :
  TimersOk w → TimersOk (showTooltip c w).
Proof.
  intros HT. unfold showTooltip, updateTooltipPosition.
  destruct (cursors w !! c) as [x|] eqn:Hx; [|done].
  destruct (cw_hideTimer x) as [t0|] eqn:Ht0.
  - apply (TimersOk_arm c (cw_tooltipDuration x) (clearTimeout t0 w)).
    + by apply TimersOk_clearTimeout.
    + simpl. by rewrite Hx.
    + intros t d' Hin. simpl in Hin. apply list_elem_of_filter in Hin as [Hne Hin].
      destruct (timers_hide w HT t d' c Hin) as (x' & Hx' & Ht). simpl in Hne.
      congruence.
  - apply (TimersOk_arm c (cw_tooltipDuration x) (setTooltipVisible c true w)).
    + apply TimersOk_updCursor; [|done]. intros y. by destruct (cw_tooltipNode y).
    + simpl. rewrite lookup_alter_eq, Hx. by eexists.
    + intros t d' Hin. simpl in Hin.
      destruct (timers_hide w HT t d' c Hin) as (x' & Hx' & Ht). congruence.
Qed.

Lemma TimersOk_hideTooltipTask (t : nat) (d : Z) (c : nat) (w : World) :
  TimersOk w → (t, (d, THideTooltip c)) ∈ timers w →
  TimersOk (hideTooltipTask c (clearTimeout t w)).
Proof.
  intros HT Hin. unfold hideTooltipTask, setTooltipVisible.
  destruct (timers_hide w HT t d c Hin) as (x & Hx & Ht).
  destruct (TimersOk_clearTimeout t w HT) as [T1 T2 T3]. split; simpl; [done..|].
  intros t' d' c' Hin'. destruct (T3 t' d' c' Hin') as (x' & Hx' & Ht'). simpl in Hx'.
  destruct (decide (c = c')) as [->|Hne].
  - simpl in Hin'. apply list_elem_of_filter in Hin' as [Hne _]. simpl in Hne.
    congruence.
  - exists x'. by rewrite !lookup_alter_ne.
Qed.

Lemma list_find_id (l : list (nat * (Z * TimerTask))) (y : nat * (Z * TimerTask)) :
  NoDup l.*1 → y ∈ l → ∃ i, list_find (λ z, z.1 = y.1) l = Some (i, y).
Proof.
  intros Hnd Hy.
  destruct (list_find_elem_of (λ z, z.1 = y.1) l y Hy eq_refl) as [[i z] Hf].
  exists i. rewrite Hf. f_equal. f_equal.
  apply list_find_Some in Hf as (Hz & Heq & _).
  apply list_elem_of_lookup in Hy as [j Hj].
  assert (i = j); [|congruence].
  eapply NoDup_lookup; [exact Hnd|..].
  - rewrite list_lookup_fmap, Hz. reflexivity.
  - rewrite list_lookup_fmap, Hj. simpl. by rewrite Heq.
Qed.

Lemma TimersOk_fireTimer (t : nat) (w : World) : TimersOk w → TimersOk (fireTimer t w).
Proof.
  intros HT. unfold fireTimer.
  destruct (list_find _ _) as [[i [t' [d task]]]|] eqn:Hf; [|done].
  apply list_find_Some in Hf as (Hi & Heq & _). simpl in Heq. subst t'.
  apply list_elem_of_lookup_2 in Hi.
  destruct task as [c|c]; simpl.
  - apply TimersOk_showTooltip. by apply TimersOk_clearTimeout.
  - by eapply TimersOk_hideTooltipTask.
Qed.

Lemma Timed_TimersOk : Timed TimersOk.
Proof.
  split.
  - intros w w' Hc Ht Hn [T1 T2 T3]. split; rewrite ?Hc, ?Ht, ?Hn; done.
  - apply TimersOk_updCursor.
  - apply TimersOk_setTimeout_show.
  - apply TimersOk_showTooltip.
  - apply TimersOk_fireTimer.
  - intros u w HI [T1 T2 T3]. unfold addCursor.
    destruct (cursorWidgets w !! uid u); [done|]. split; simpl; [done..|].
    intros t d c Hin. destruct (T3 t d c Hin) as (x & Hx & Ht).
    exists x. split; [|done].
    destruct (inv_cursors w HI _ _ Hx) as (Hlt & _).
    rewrite lookup_insert_ne by lia. done.
Qed.

Lemma TimersOk_reachable (fuel : nat) (ops : list Op) (m : option ITextModel)
    (tt : bool) (d : Z) (ch : bool) (w : World) :
  run fuel ops (newWorld m tt d ch) = Some w → TimersOk w.
Proof.
  intros Hrun.
  eapply (timed_run _ Timed_TimersOk); [apply Inv_newWorld | | exact Hrun].
  split; simpl.
  - intros y Hy. by apply elem_of_nil in Hy.
  - apply NoDup_nil_2.
  - intros t d' c Hin. by apply elem_of_nil in Hin.
Qed.

Lemma hide_timers_one_id (c : nat) (l : list (nat * (Z * TimerTask)))
    (o : option (option nat)) :
  NoDup l.*1 →
  (∀ y, y ∈ l → y.2.2 = THideTooltip c → o = Some (Some y.1)) →
  (length (filter (λ y, y.2.2 = THideTooltip c) l) ≤ 1)%nat.
Proof.
  induction l as [|y l IH]; intros Hnd Hid; [simpl; lia|].
  simpl in Hnd. apply NoDup_cons in Hnd as [Hny Hnd].
  destruct (decide (y.2.2 = THideTooltip c)) as [Hy|Hy].
  - rewrite filter_cons_True by done. simpl.
    assert (Hnil : filter (λ z, z.2.2 = THideTooltip c) l = []).
    { apply elem_of_nil_inv. intros z Hz.
      apply list_elem_of_filter in Hz as [Hz1 Hz2].
      assert (Hz' : z.1 = y.1).
      { pose proof (Hid z (list_elem_of_further _ _ _ Hz2) Hz1) as E1.
        pose proof (Hid y (list_elem_of_here _ _) Hy) as E2. congruence. }
      apply Hny. rewrite <- Hz'. by apply list_elem_of_fmap_2. }
    rewrite Hnil. simpl. lia.
  - rewrite filter_cons_False by done. apply (IH Hnd).
    intros z Hz. apply Hid. by apply list_elem_of_further.
Qed.

Lemma hideTimersOf_at_most_one (c : nat) (w : World) :
  TimersOk w → (length (hideTimersOf c w) ≤ 1)%nat.
Proof.
  intros [_ T2 T3]. unfold hideTimersOf.
  apply (hide_timers_one_id c _ (cw_hideTimer <$> cursors w !! c) T2).
  intros [t [d task]] Hy Htask. simpl in Htask. subst task.
  destruct (T3 t d c Hy) as (x & -> & Ht). simpl. by rewrite Ht.
Qed.

(** X20. Timers never stack: in every store the program can reach, the
    pending timers have distinct ids, each cursor widget has at most one
    auto-hide timer pending, and that one is the timer the widget holds in
    [hideTimer]. *)
Theorem hide_timers_do_not_stack (fuel : nat) (ops : list Op) (m : option ITextModel)
    (tt : bool) (d : Z) (ch : bool) (w : World) :
  run fuel ops (newWorld m tt d ch) = Some w →
  NoDup (timers w).*1
  ∧ ∀ c, (length (hideTimersOf c w) ≤ 1)%nat
         ∧ ∀ y, y ∈ hideTimersOf c w →
                (cw_hideTimer <$> cursors w !! c) = Some (Some y.1).
Proof.
  intros Hrun. pose proof (TimersOk_reachable _ _ _ _ _ _ _ Hrun) as HT.
  split; [apply (timers_nodup w HT)|]. intros c. split.
  - by apply hideTimersOf_at_most_one.
  - intros [t [d' task]] Hy. apply list_elem_of_filter in Hy as [Htask Hy].
    simpl in Htask. subst task.
    destruct (timers_hide w HT t d' c Hy) as (x & -> & Ht). simpl. by rewrite Ht.
Qed.

Lemma no_hide_timers (c : nat) (l : list (nat * (Z * TimerTask))) :
  (∀ y, y ∈ l → y.2.2 ≠ THideTooltip c) →
  filter (λ y, y.2.2 = THideTooltip c) l = [].
Proof.
  intros Hno. apply elem_of_nil_inv. intros z Hz.
  apply list_elem_of_filter in Hz as [Hz1 Hz2]. by apply (Hno z).
Qed.

(** X21. When the auto-hide timer of a widget fires, in any store the
    program can reach: the timer leaves the pending ones, the tooltip of
    the widget (if it has one) is made transparent, [hideTimer] is reset,
    and no auto-hide timer is left pending for the widget. *)
Theorem hide_timer_hides_tooltip (fuel : nat) (ops : list Op) (m : option ITextModel)
    (tt : bool) (d0 : Z) (ch : bool) (w : World) (t : nat) (d : Z) (c : nat) :
  run fuel ops (newWorld m tt d0 ch) = Some w →
  (t, (d, THideTooltip c)) ∈ timers w →
  let w' := fireTimer t w in
  timers w' = filter (λ y, y.1 ≠ t) (timers w)
  ∧ hideTimersOf c w' = []
  ∧ ∃ x, cursors w !! c = Some x
         ∧ (cw_hideTimer <$> cursors w' !! c) = Some None
         ∧ (cw_tooltipNode <$> cursors w' !! c)
           = Some ((λ tn, mkTooltip (innerHTML tn) "0") <$> cw_tooltipNode x).
Proof.
  intros Hrun Hin w'. pose proof (TimersOk_reachable _ _ _ _ _ _ _ Hrun) as HT.
  destruct (list_find_id (timers w) _ (timers_nodup w HT) Hin) as [i Hf].
  simpl in Hf.
  destruct (timers_hide w HT t d c Hin) as (x & Hx & Ht).
  assert (Hw' : w' = hideTooltipTask c (clearTimeout t w)).
  { subst w'. unfold fireTimer. by rewrite Hf. }
  rewrite Hw'. clear Hw' w'.
  unfold hideTooltipTask, setTooltipVisible, hideTimersOf, updCursor, clearTimeout.
  simpl. split_and!.
  - done.
  - apply no_hide_timers. intros z Hz Hhide.
    apply list_elem_of_filter in Hz as [Hne Hz].
    destruct z as [tz [dz task]]. simpl in *. subst task.
    destruct (timers_hide w HT tz dz c Hz) as (x' & Hx' & Ht'). congruence.
  - exists x. rewrite !lookup_alter_eq, Hx. simpl.
    destruct (cw_tooltipNode x) eqn:Etn; simpl; by rewrite ?Etn.
Qed.

Lemma show_timer_fires (w : World) (t : nat) (d : Z) (c : nat)
    (x : RemoteCursorWidget) :
  TimersOk w →
  (t, (d, TShowTooltip c)) ∈ timers w →
  cursors w !! c = Some x →
  let w' := fireTimer t w in
  hideTimersOf c w' = [(nextTimer w, (cw_tooltipDuration x, THideTooltip c))]
  ∧ (cw_hideTimer <$> cursors w' !! c) = Some (Some (nextTimer w))
  ∧ (cw_hideTimer x = None →
     (cw_tooltipNode <$> cursors w' !! c)
     = Some ((λ tn, mkTooltip (innerHTML tn) "1.0") <$> cw_tooltipNode x))
  ∧ (cw_position <$> cursors w' !! c) = Some (cw_position x).
Proof.
  intros HT Hin Hx w'.
  destruct (list_find_id (timers w) _ (timers_nodup w HT) Hin) as [i Hf].
  simpl in Hf.
  assert (Hw' : w' = showTooltip c (clearTimeout t w)).
  { subst w'. unfold fireTimer. by rewrite Hf. }
  rewrite Hw'. clear Hw' w'.
  assert (Hself : filter (λ y : nat * (Z * TimerTask), y.2.2 = THideTooltip c)
                    [(nextTimer w, (cw_tooltipDuration x, THideTooltip c))]
                  = [(nextTimer w, (cw_tooltipDuration x, THideTooltip c))]).
  { by rewrite filter_cons_True. }
  unfold showTooltip, updateTooltipPosition, hideTimersOf. simpl. rewrite Hx.
  unfold setTooltipVisible, updCursor, setTimeout, clearTimeout.
  destruct (cw_hideTimer x) as [t0|] eqn:Ht0; simpl.
  - rewrite filter_app, Hself, lookup_alter_eq, Hx. simpl. split_and!; try done.
    rewrite no_hide_timers; [done|]. intros z Hz Hhide.
    apply list_elem_of_filter in Hz as [Hne0 Hz].
    apply list_elem_of_filter in Hz as [Hne Hz].
    destruct z as [tz [dz task]]. simpl in *. subst task.
    destruct (timers_hide w HT tz dz c Hz) as (x' & Hx' & Ht'). congruence.
  - rewrite filter_app, Hself, !lookup_alter_eq, Hx. simpl. split_and!.
    + rewrite no_hide_timers; [done|]. intros z Hz Hhide.
      apply list_elem_of_filter in Hz as [Hne Hz].
      destruct z as [tz [dz task]]. simpl in *. subst task.
      destruct (timers_hide w HT tz dz c Hz) as (x' & Hx' & Ht'). congruence.
    + by destruct (cw_tooltipNode x).
    + intros _. destruct (cw_tooltipNode x) eqn:Etn; simpl; by rewrite ?Etn.
    + by destruct (cw_tooltipNode x).
Qed.

(** X22. When the timer that [setPosition] scheduled fires, in any store
    the program can reach: afterwards exactly one auto-hide timer is
    pending for the widget, a new one that runs for the widget's
    [tooltipDuration] and that the widget holds in [hideTimer], whether or
    not one was pending before; and a tooltip that was not showing is made
    opaque. *)
Theorem show_timer_arms_one_hide_timer (fuel : nat) (ops : list Op)
    (m : option ITextModel) (tt : bool) (d0 : Z) (ch : bool) (w : World)
    (t : nat) (d : Z) (c : nat) (x : RemoteCursorWidget) :
  run fuel ops (newWorld m tt d0 ch) = Some w →
  (t, (d, TShowTooltip c)) ∈ timers w →
  cursors w !! c = Some x →
  let w' := fireTimer t w in
  hideTimersOf c w' = [(nextTimer w, (cw_tooltipDuration x, THideTooltip c))]
  ∧ (cw_hideTimer <$> cursors w' !! c) = Some (Some (nextTimer w))
  ∧ (cw_hideTimer x = None →
     (cw_tooltipNode <$> cursors w' !! c)
     = Some ((λ tn, mkTooltip (innerHTML tn) "1.0") <$> cw_tooltipNode x)).
Proof.
  intros Hrun Hin Hx.
  destruct (show_timer_fires w t d c x (TimersOk_reachable _ _ _ _ _ _ _ Hrun) Hin Hx)
    as (H1 & H2 & H3 & _).
  by split_and!.
Qed.

(** X23. Moving the cursor of a registered participant shows its tooltip
    for a while, in any store the program can reach in which tooltips are
    on: [setCursorPosition] stores the position, lays the widget out and
    schedules one timer of delay 0; once that timer has fired the widget
    is still at the position, a tooltip that was not showing is opaque, and
    exactly one auto-hide timer is pending for the widget, running for its
    [tooltipDuration]. *)
Theorem moved_cursor_shows_tooltip (fuel : nat) (ops : list Op)
    (m : option ITextModel) (tt : bool) (d0 : Z) (ch : bool) (w : World)
    (id : string) (c : nat) (x : RemoteCursorWidget) (tn : TooltipNode)
    (p : IPosition) :
  run fuel ops (newWorld m tt d0 ch) = Some w →
  cursorWidgets w !! id = Some c →
  cursors w !! c = Some x →
  cw_tooltipNode x = Some tn →
  let w1 := setCursorPosition id p w in
  let w2 := fireTimer (nextTimer w) w1 in
  timers w1 = timers w ++ [(nextTimer w, (0, TShowTooltip c))]
  ∧ layouts w1 = layouts w ++ [(c, p)]
  ∧ (cw_position <$> cursors w2 !! c) = Some (Some p)
  ∧ hideTimersOf c w2 = [(S (nextTimer w), (cw_tooltipDuration x, THideTooltip c))]
  ∧ (cw_hideTimer x = None →
     (cw_tooltipNode <$> cursors w2 !! c) = Some (Some (mkTooltip (innerHTML tn) "1.0"))).
Proof.
  intros Hrun Hc Hx Htn w1 w2.
  pose proof (TimersOk_reachable _ _ _ _ _ _ _ Hrun) as HT.
  pose proof (timed_setCursorPosition _ Timed_TimersOk id p w HT) as HT1.
  fold w1 in HT1.
  assert (Hw1 : timers w1 = timers w ++ [(nextTimer w, (0, TShowTooltip c))]
                ∧ layouts w1 = layouts w ++ [(c, p)]
                ∧ nextTimer w1 = S (nextTimer w)
                ∧ cursors w1 !! c = Some (cw_set_position (Some p) x)).
  { subst w1 w2. unfold setCursorPosition. rewrite Hc.
    unfold RemoteCursorWidget_setPosition, updatePosition, setTimeout, updCursor. simpl.
    rewrite lookup_alter_eq, Hx. simpl. rewrite Htn. simpl.
    rewrite lookup_alter_eq, Hx. by split_and!. }
  destruct Hw1 as (Ht1 & Hl1 & Hn1 & Hx1).
  assert (Hin : (nextTimer w, (0, TShowTooltip c)) ∈ timers w1).
  { rewrite Ht1. apply elem_of_app. right. apply list_elem_of_here. }
  destruct (show_timer_fires w1 (nextTimer w) 0 c _ HT1 Hin Hx1)
    as (Hh & _ & Hop & Hpos).
  fold w2 in Hh, Hop, Hpos. rewrite Hn1 in Hh. simpl in Hh, Hop, Hpos.
  split_and!; try done.
  intros Hnone. rewrite (Hop Hnone), Htn. done.
Qed.

End Properties.

(** * The program on examples *)

(** ** No feedback loop? *)

(** C1 fails as stated. The controller of [emptyDoc] receives "hi" typed
    by "a" at version 1: nothing had been sent before, and afterwards the
    very edit it applied has been handed to the channel again, followed by
    the cursor of the editor, which the edit has moved behind "hi". *)
Lemma remote_edit_echo_example :
  outbox emptyDoc = []
  ∧ model (receiver (fromA typeHi) emptyDoc) = Some (mkModel "hi" 1)
  ∧ outbox (receiver (fromA typeHi) emptyDoc)
    = [ CodeSnippet typeHi;
        CursorPosition (mkCursorMoved (mkPosition 1 3));
        CursorSelection (mkSelectionChanged (mkSelection 1 3 1 3)) ].
Proof. vm_compute. by split_and!. Qed.

Lemma remote_edit_is_resent_witness :
  outbox (receiver (fromA typeHi) emptyDoc)
  = outbox emptyDoc
    ++ echoes (contentListener emptyDoc) "" 0 (localCursor emptyDoc) (changes typeHi).
Proof.
  apply (remote_edit_is_resent emptyDoc (mkModel "" 0) "a" typeHi).
  - reflexivity.
  - reflexivity.
  - simpl. lia.
Defined.

(** ** Stale and duplicate edits *)

Lemma stale_edit_discarded_witness :
  model (receiver (fromA typeHi) hiDoc) = model hiDoc
  ∧ editLog (receiver (fromA typeHi) hiDoc) = editLog hiDoc
  ∧ layouts (receiver (fromA typeHi) hiDoc) = layouts hiDoc.
Proof.
  destruct (stale_edit_discarded hiDoc (mkModel "hi" 1) (Some "a") typeHi)
    as (_ & Hm & Hlog & Hlay & _).
  - vm_compute. reflexivity.
  - simpl. lia.
  - by split_and!.
Defined.

Lemma version_checks_witness :
  outbox (sendCodeSnippet typeHi hiDoc) = outbox hiDoc ++ [CodeSnippet typeHi]
  ∧ updateContent "a" typeHi hiDoc = hiDoc.
Proof.
  destruct (version_checks hiDoc (mkModel "hi" 1) "a" typeHi) as (Hs & Hu & _).
  - vm_compute. reflexivity.
  - vm_compute. reflexivity.
  - split; [rewrite Hs | rewrite Hu]; vm_compute; reflexivity.
Defined.

(** ** Lengths

    "hi", a letter of two bytes (U+00E9) and a character of four bytes
    (U+1F600), which JavaScript holds as a surrogate pair. *)
Lemma jsLength_examples :
  jsLength "hi" = 2
  ∧ jsLength (String "195" (String "169" "")) = 1
  ∧ jsLength (String "240" (String "159" (String "152" (String "128" "")))) = 2.
Proof. vm_compute. by split_and!. Qed.

(** ** Sequences of edits *)

(** C3 fails as stated. The document is at version 0; "a" sends an edit
    of two changes at version 1 and then an edit at version 2.  The two
    changes are executed one by one and take the document to version 2, so
    the second edit is dropped: "c" is never inserted. *)
Lemma multi_change_edit_blocks_next :
  model emptyDoc = Some (mkModel "" 0)
  ∧ model (receiveAll [fromA twoChanges; fromA thenC] emptyDoc) = Some (mkModel "ab" 2)
  ∧ editLog (receiveAll [fromA twoChanges; fromA thenC] emptyDoc)
    = [("a", mkRange 1 1 1 1, "b"); ("a", mkRange 1 1 1 1, "a")].
Proof. vm_compute. by split_and!. Qed.

Lemma single_change_edits_witness :
  model (receiveAll (editMessages 0 twoEdits) emptyDoc) = Some (mkModel "hi!" 2)
  ∧ editLog (receiveAll (editMessages 0 twoEdits) emptyDoc)
    = [("a", mkRange 1 1 1 1, "hi"); ("b", mkRange 1 3 1 3, "!")].
Proof.
  destruct (single_change_edits_applied_in_order emptyDoc (mkModel "" 0) twoEdits)
    as (Hm & Hlog & _).
  - apply Inv_newWorld.
  - reflexivity.
  - reflexivity.
  - vm_compute. reflexivity.
  - cbn [getVersionId getValue] in Hm, Hlog.
    split; [rewrite Hm | rewrite Hlog]; vm_compute; reflexivity.
Defined.

(** ** Adding twice *)

Lemma add_twice_same_instance_witness :
  addCursor (mkUser "a" "green" "Bob") (addCursor alice managersOnly).2
  = addCursor alice managersOnly
  ∧ size (cursors (addCursor (mkUser "a" "green" "Bob") (addCursor alice managersOnly).2).2)
    = 1%nat
  ∧ cw_background <$> cursors (addCursor alice managersOnly).2 !! 0%nat = Some "red".
Proof.
  destruct (add_twice_same_instance managersOnly "a" "red" "Alice" "green" "Bob")
    as (Hsame & _ & _ & _ & _ & (_ & Hsize & _) & _).
  - apply Inv_newWorld.
  - split_and!; [exact Hsame | unfold alice; rewrite Hsize | ]; vm_compute; reflexivity.
Defined.

(** ** Removing an overlay *)

(** C5 at work: "a" is added to the selection manager and removed again;
    the registry still maps "a" to the selection, which is disposed. *)
Lemma removeSelection_keeps_entry_witness :
  remoteSelections selectionRemoved !! "a" = Some 0%nat
  ∧ RemoteSelection_isDisposed 0 selectionRemoved = true.
Proof.
  rewrite (removeSelection_keeps_entry 2 "a" withSelection selectionRemoved).
  - vm_compute. by split.
  - vm_compute. reflexivity.
Defined.

(** The cursor manager on the same input: the entry is gone. *)
Lemma removeCursor_example :
  cursorWidgets (default managersOnly
                   (removeCursor 2 "a" (addCursor alice managersOnly).2)) !! "a" = None.
Proof. vm_compute. reflexivity. Qed.

(** ** Disposal *)

Lemma overlay_disposed_once_witness :
  (∀ c x, cursors lifetimeEnd !! c = Some x → (cw_onDisposedCalls x ≤ 1)%nat)
  ∧ (∀ s x, selections lifetimeEnd !! s = Some x → (rs_onDisposedCalls x ≤ 1)%nat).
Proof.
  destruct (overlay_disposed_once 2 lifetimeTrace (Some (mkModel "" 0)) true 1 false
              lifetimeEnd) as (Hc & Hs & _).
  - vm_compute. reflexivity.
  - by split.
Defined.

(** C9 at work: the auto-hide timer of a tooltip that is showing is still
    pending after [dispose]. *)
Lemma dispose_keeps_timers_witness :
  timers tooltipDisposed = [(1%nat, (1000, THideTooltip 0))]
  ∧ RemoteCursorWidget_isDisposed 0 tooltipDisposed = true.
Proof.
  rewrite (dispose_keeps_timers 2 0 tooltipShowing tooltipDisposed).
  - vm_compute. by split.
  - vm_compute. reflexivity.
Defined.

(** When that timer fires, its callback writes to the disposed widget: the
    tooltip goes from shown to hidden and [hideTimer] is reset. *)
Lemma hide_timer_fires_after_dispose :
  (cw_tooltipNode <$> cursors tooltipDisposed !! 0%nat)
  = Some (Some (mkTooltip "Alice" "1.0"))
  ∧ (cw_tooltipNode <$> cursors (fireTimer 1 tooltipDisposed) !! 0%nat)
    = Some (Some (mkTooltip "Alice" "0"))
  ∧ (cw_hideTimer <$> cursors (fireTimer 1 tooltipDisposed) !! 0%nat) = Some None
  ∧ (cw_disposed <$> cursors (fireTimer 1 tooltipDisposed) !! 0%nat) = Some true.
Proof. vm_compute. by split_and!. Qed.

(** ** The hover message of a selection *)

Lemma selection_label_is_color_witness :
  ∃ x d dec,
    selections (setSelectionPositions "a" (mkPosition 1 2) (mkPosition 1 1) withSelection)
      !! (addSelection alice managersOnly).1 = Some x
    ∧ rs_decorations x = [d]
    ∧ decorations (setSelectionPositions "a" (mkPosition 1 2) (mkPosition 1 1) withSelection)
        !! d = Some dec
    ∧ hoverMessage dec = Some "red".
Proof.
  exact (proj2 (selection_label_is_color managersOnly alice (mkModel "" 0)
                  (mkPosition 1 2) (mkPosition 1 1) eq_refl eq_refl)).
Defined.

(** * The further properties at work *)

(** ** Selections *)

Lemma setPositions_draws_ordered_witness :
  inDocument "hi" (mkPosition 1 3)
  ∧ RemoteSelection_getStartPosition 1
      (RemoteSelection_setPositions 1 (mkPosition 1 3) (mkPosition 1 1) hiDoc)
    = Some (mkPosition 1 1)
  ∧ RemoteSelection_getEndPosition 1
      (RemoteSelection_setPositions 1 (mkPosition 1 3) (mkPosition 1 1) hiDoc)
    = Some (mkPosition 1 3)
  ∧ decorationRange
    <$> decorations (RemoteSelection_setPositions 1 (mkPosition 1 3) (mkPosition 1 1) hiDoc)
        !! nextDecoration hiDoc
    = Some (mkRange 1 1 1 3).
Proof.
  edestruct (λ x, setPositions_draws_ordered 1 x (mkPosition 1 3) (mkPosition 1 1)
                    hiDoc (mkModel "hi" 1)) as (Hs & He & _ & _ & _ & _ & Hd & _).
  - vm_compute. reflexivity.
  - vm_compute. reflexivity.
  - vm_compute. reflexivity.
  - vm_compute. reflexivity.
  - split_and!; [vm_compute; reflexivity | | | rewrite Hd]; vm_compute; reflexivity.
Defined.

Lemma hide_keeps_positions_witness :
  RemoteSelection_getStartPosition 0 (RemoteSelection_hide 0 selectionDrawn)
  = Some (mkPosition 1 1)
  ∧ RemoteSelection_getEndPosition 0 (RemoteSelection_hide 0 selectionDrawn)
    = Some (mkPosition 1 2)
  ∧ decorations (RemoteSelection_hide 0 selectionDrawn) !! 0%nat = None.
Proof.
  edestruct (λ x, hide_keeps_positions 0 x (mkPosition 1 1) (mkPosition 1 2)
                    selectionDrawn (mkModel "" 0)) as (_ & Hd & Hs & He & _).
  - vm_compute. reflexivity.
  - vm_compute. reflexivity.
  - vm_compute. reflexivity.
  - vm_compute. reflexivity.
  - split_and!; [exact Hs | exact He | vm_compute; reflexivity].
Defined.

(** ** Missing model, unknown ids, missing channel *)

Lemma no_model_no_effect_witness :
  setCursorOffset "a" 3 noModel = noModel
  ∧ sendCodeSnippet typeHi noModel = noModel.
Proof.
  destruct (no_model_no_effect noModel) as (_ & _ & _ & Hc & _ & Hs & _).
  - vm_compute. reflexivity.
  - split; [apply Hc | apply Hs].
Defined.

Lemma unknown_id_no_effect_witness :
  removeCursor 0 "a" managersOnly = Some managersOnly
  ∧ hideSelection "a" managersOnly = managersOnly.
Proof.
  destruct (unknown_id_no_effect managersOnly "a")
    as (_ & _ & _ & _ & Hr & _ & _ & _ & Hh & _).
  - vm_compute. reflexivity.
  - vm_compute. reflexivity.
  - split; [apply Hr | apply Hh].
Defined.

Lemma no_channel_inert_witness :
  default emptyDoc (run 2 deliveries noChannel) = noChannel.
Proof.
  apply (no_channel_inert 2 deliveries (Some (mkModel "" 0))).
  - vm_compute. reflexivity.
  - vm_compute. reflexivity.
Defined.

Lemma dispose_stops_content_only_witness :
  outbox <$> step 2 (LocalEdit (mkRange 1 1 1 1) "x") (EditorContentManager_dispose emptyDoc)
  = Some [ CursorPosition (mkCursorMoved (mkPosition 1 2));
           CursorSelection (mkSelectionChanged (mkSelection 1 2 1 2)) ]
  ∧ outbox <$> step 2 (CursorMoved (mkCursorMoved (mkPosition 1 1)))
                 (EditorContentManager_dispose emptyDoc)
    = Some [CursorPosition (mkCursorMoved (mkPosition 1 1))].
Proof.
  destruct (dispose_stops_content_only emptyDoc (mkModel "" 0) 2)
    as (Hl & _ & Hc & _).
  - vm_compute. reflexivity.
  - vm_compute. reflexivity.
  - split; [rewrite Hl | rewrite Hc]; vm_compute; reflexivity.
Defined.

(** ** Edits *)

Lemma applied_edit_advances_by_changes_witness :
  model (receiver (fromA twoChanges) emptyDoc) = Some (mkModel "ab" 2).
Proof.
  destruct (applied_edit_advances_by_changes emptyDoc (mkModel "" 0) "a" twoChanges)
    as (Hm & _).
  - vm_compute. reflexivity.
  - vm_compute. reflexivity.
  - unfold fromA. rewrite Hm. vm_compute. reflexivity.
Defined.

(** An edit whose second change replaces nothing by nothing: the document
    moves on by one version. *)
Lemma empty_change_keeps_version :
  model (receiver (fromA (mkChanged [ mkChange (mkRange 1 1 1 1) 0 0 "b";
                                      mkChange (mkRange 1 1 1 1) 0 0 "" ] 1)) emptyDoc)
  = Some (mkModel "b" 1).
Proof. vm_compute. reflexivity. Qed.

Lemma duplicate_edit_is_dropped_witness :
  receiver (fromA typeHi) (receiver (fromA typeHi) emptyDoc)
  = receiver (fromA typeHi) emptyDoc.
Proof.
  apply (duplicate_edit_is_dropped emptyDoc (mkModel "" 0) "a" typeHi).
  - vm_compute. reflexivity.
  - vm_compute. reflexivity.
  - vm_compute. discriminate.
Defined.

Lemma local_edit_reaches_peer_witness :
  outbox (executeEdits "keyboard" (mkRange 1 1 1 1) "hi" emptyDoc)
  = [ CodeSnippet typeHi;
      CursorPosition (mkCursorMoved (mkPosition 1 3));
      CursorSelection (mkSelectionChanged (mkSelection 1 3 1 3)) ]
  ∧ model (receiver (fromA typeHi) emptyDoc)
    = model (executeEdits "keyboard" (mkRange 1 1 1 1) "hi" emptyDoc).
Proof.
  destruct (local_edit_reaches_peer emptyDoc emptyDoc (mkModel "" 0) "a"
              (mkRange 1 1 1 1) "hi") as (Ho & Hm & _).
  - vm_compute. reflexivity.
  - vm_compute. reflexivity.
  - vm_compute. reflexivity.
  - vm_compute. reflexivity.
  - vm_compute. reflexivity.
  - vm_compute. reflexivity.
  - vm_compute. reflexivity.
  - vm_compute. reflexivity.
  - split; [rewrite Ho; vm_compute; reflexivity | exact Hm].
Defined.

(** ** Cursor and selection messages *)

Lemma cursor_message_places_cursor_witness :
  ∃ c x,
    cursorWidgets (receiver (mkMessage (Some "a")
                     (CursorPosition (mkCursorMoved (mkPosition 1 3)))) hiDoc) !! "a"
    = Some c
    ∧ cursors (receiver (mkMessage (Some "a")
                 (CursorPosition (mkCursorMoved (mkPosition 1 3)))) hiDoc) !! c = Some x
    ∧ cw_position x = Some (mkPosition 1 3).
Proof.
  destruct (cursor_message_places_cursor hiDoc (mkModel "hi" 1) "a"
              (mkCursorMoved (mkPosition 1 3))) as (c & x & Hc & Hx & Hp & _).
  - apply Inv_receiver, Inv_newWorld.
  - vm_compute. reflexivity.
  - vm_compute. reflexivity.
  - exists c, x. split_and!; [exact Hc | exact Hx |].
    rewrite Hp. vm_compute. reflexivity.
Defined.

Lemma selection_message_draws_selection_witness :
  ∃ s x d,
    remoteSelections (receiver (mkMessage (Some "a")
                        (CursorSelection (mkSelectionChanged (mkSelection 1 3 1 1)))) hiDoc)
      !! "a" = Some s
    ∧ selections (receiver (mkMessage (Some "a")
                    (CursorSelection (mkSelectionChanged (mkSelection 1 3 1 1)))) hiDoc)
        !! s = Some x
    ∧ rs_startPosition x = Some (mkPosition 1 1)
    ∧ rs_endPosition x = Some (mkPosition 1 3)
    ∧ rs_decorations x = [d].
Proof.
  destruct (selection_message_draws_selection hiDoc (mkModel "hi" 1) "a"
              (mkSelectionChanged (mkSelection 1 3 1 1)))
    as (s & x & d & Hs & Hx & Ha & Hb & Hd & _).
  - apply Inv_receiver, Inv_newWorld.
  - vm_compute. reflexivity.
  - vm_compute. reflexivity.
  - exists s, x, d. split_and!; [exact Hs | exact Hx | | | exact Hd].
    + rewrite Ha. vm_compute. reflexivity.
    + rewrite Hb. vm_compute. reflexivity.
Defined.

(** ** Reachable stores *)

Lemma registered_cursors_are_live_witness :
  ∃ x, cursors sessionEnd !! 2%nat = Some x ∧ cw_disposed x = false.
Proof.
  apply (registered_cursors_are_live 2 sessionTrace (Some (mkModel "" 0)) true 20 true
           sessionEnd "a" 2).
  - vm_compute. reflexivity.
  - vm_compute. reflexivity.
Defined.

Lemma overlays_not_shared_witness :
  cursorWidgets sessionEnd !! "a" = Some 2%nat
  ∧ ∀ id, cursorWidgets sessionEnd !! id = Some 2%nat → id = "a".
Proof.
  destruct (overlays_not_shared 2 sessionTrace (Some (mkModel "" 0)) true 20 true
              sessionEnd) as (Hc & _).
  - vm_compute. reflexivity.
  - assert (Ha : cursorWidgets sessionEnd !! "a" = Some 2%nat) by (vm_compute; reflexivity).
    split; [exact Ha |]. intros id Hid. exact (Hc id "a" 2%nat Hid Ha).
Defined.

Lemma removeCursor_releases_widget_witness :
  ∃ w', removeCursor 1 "a" sessionEnd = Some w'
        ∧ cursorWidgets w' = delete "a" (cursorWidgets sessionEnd)
        ∧ RemoteCursorWidget_isDisposed 2 w' = true
        ∧ timers w' = timers sessionEnd.
Proof.
  destruct (removeCursor_releases_widget 2 0 sessionTrace (Some (mkModel "" 0)) true 20
              true sessionEnd "a" 2)
    as (w' & x & x' & Hr & Hreg & _ & Hx' & Hd & _ & _ & _ & _ & _ & _ & _ & Ht).
  - vm_compute. reflexivity.
  - vm_compute. reflexivity.
  - exists w'. split_and!; [exact Hr | exact Hreg | | exact Ht].
    unfold RemoteCursorWidget_isDisposed. by rewrite Hx'.
Defined.

Lemma member_left_disposes_overlays_witness :
  ∃ w', onMemberLeft 2 "a" sessionEnd = Some w'
        ∧ cursorWidgets w' !! "a" = None
        ∧ RemoteCursorWidget_isDisposed 2 w' = true
        ∧ RemoteSelection_isDisposed 1 w' = true.
Proof.
  destruct (member_left_disposes_overlays 2 0 sessionTrace (Some (mkModel "" 0)) true 20
              true sessionEnd "a") as (w' & Hl & Hreg & Hc & Hs).
  - vm_compute. reflexivity.
  - vm_compute. reflexivity.
  - exists w'. split_and!; [exact Hl | exact Hreg | apply Hc | apply Hs];
      vm_compute; reflexivity.
Defined.

(** ** Timers *)

Lemma hide_timers_do_not_stack_witness :
  NoDup (timers sessionEnd).*1
  ∧ (length (hideTimersOf 0 sessionEnd) ≤ 1)%nat.
Proof.
  destruct (hide_timers_do_not_stack 2 sessionTrace (Some (mkModel "" 0)) true 20 true
              sessionEnd) as (Hn & Hc).
  - vm_compute. reflexivity.
  - split; [exact Hn | apply Hc].
Defined.

Lemma hide_timer_hides_tooltip_witness :
  timers (fireTimer 1 tooltipShowing) = []
  ∧ hideTimersOf 0 (fireTimer 1 tooltipShowing) = [].
Proof.
  destruct (hide_timer_hides_tooltip 2 tooltipTrace (Some (mkModel "" 0)) true 1 false
              tooltipShowing 1 1000 0) as (Ht & Hh & _).
  - vm_compute. reflexivity.
  - assert (E : timers tooltipShowing = [(1%nat, (1000, THideTooltip 0))])
      by (vm_compute; reflexivity).
    rewrite E. apply list_elem_of_here.
  - split; [rewrite Ht; vm_compute; reflexivity | exact Hh].
Defined.

Lemma show_timer_arms_one_hide_timer_witness :
  hideTimersOf 0 (fireTimer 0 tooltipPending) = [(1%nat, (1000, THideTooltip 0))]
  ∧ (cw_hideTimer <$> cursors (fireTimer 0 tooltipPending) !! 0%nat) = Some (Some 1%nat).
Proof.
  edestruct (λ x, show_timer_arms_one_hide_timer 2 (take 2 tooltipTrace)
                    (Some (mkModel "" 0)) true 1 false tooltipPending 0 0 0 x)
    as (Hh & Ht & _).
  - vm_compute. reflexivity.
  - assert (E : timers tooltipPending = [(0%nat, (0, TShowTooltip 0))])
      by (vm_compute; reflexivity).
    rewrite E. apply list_elem_of_here.
  - vm_compute. reflexivity.
  - split; [rewrite Hh | rewrite Ht]; vm_compute; reflexivity.
Defined.

Lemma moved_cursor_shows_tooltip_witness :
  timers (setCursorPosition "a" (mkPosition 1 1) cursorAdded)
  = [(0%nat, (0, TShowTooltip 0))]
  ∧ hideTimersOf 0 (fireTimer (nextTimer cursorAdded)
                      (setCursorPosition "a" (mkPosition 1 1) cursorAdded))
    = [(1%nat, (1000, THideTooltip 0))].
Proof.
  edestruct (λ x tn, moved_cursor_shows_tooltip 2 [AddCursor alice] (Some (mkModel "" 0))
                       true 1 false cursorAdded "a" 0 x tn (mkPosition 1 1))
    as (Ht & _ & _ & Hh & _).
  - vm_compute. reflexivity.
  - vm_compute. reflexivity.
  - vm_compute. reflexivity.
  - vm_compute. reflexivity.
  - split; [rewrite Ht | rewrite Hh]; vm_compute; reflexivity.
Defined.
